(** * C4 Studio: the annotation engine, its history stack and the exporter

    A shallow embedding of the event handlers of [src/App.tsx] and of the
    header stripping of [editImage] (services/geminiService), with the
    properties of the design document proved about them; then the rest
    of the page's handlers and of the service, with further properties
    the code shows.

    Conventions of the embedding.
    - React state variables are the fields of the record [App]; the two
      refs the handlers use ([canvasRef.current], [textValueRef.current])
      are fields of the same record.
    - A handler is a function of the render it was created in (the values
      its closure captured) that runs in a state-and-exception monad:
      reads of state variables go to the closure, writes ([setX]) and every
      access to a ref go to the threaded store.
    - JavaScript numbers that are integral by construction (the history
      cursor, the brush size, time stamps, canvas sizes) are [Z] or [nat];
      coordinates are idealised as real numbers.
    - The overlay's pixels are never inspected by the program: a bitmap is
      the sequence of canvas calls that produced it, so equal bitmaps are
      pixel-identical. *)

From Stdlib Require Import String Ascii.
From Stdlib Require Import ZArith NArith List Bool Lia.
From Stdlib Require Import Reals.
Import ListNotations.

Local Open Scope Z_scope.

(** ** JavaScript strings and arrays *)

Module JS.

(** A string is its sequence of UTF-16 code units. *)
Definition jsstring : Type := list N.

Definition lit (s : string) : jsstring :=
  List.map N_of_ascii (list_ascii_of_string s).

Fixpoint streq (a b : jsstring) : bool :=
  match a, b with
  | [], [] => true
  | x :: a', y :: b' => N.eqb x y && streq a' b'
  | _, _ => false
  end.

(** [WhiteSpace] and [LineTerminator] of ECMAScript, the code units
    [String.prototype.trim] removes. *)
Definition is_white (c : N) : bool :=
  let n := Z.of_N c in
  (n =? 9) || (n =? 10) || (n =? 11) || (n =? 12) || (n =? 13) ||
  (n =? 32) || (n =? 160) || (n =? 5760) ||
  ((8192 <=? n) && (n <=? 8202)) ||
  (n =? 8232) || (n =? 8233) || (n =? 8239) || (n =? 8287) ||
  (n =? 12288) || (n =? 65279).

Fixpoint trimStart (s : jsstring) : jsstring :=
  match s with
  | c :: s' => if is_white c then trimStart s' else s
  | [] => []
  end.

Definition trimEnd (s : jsstring) : jsstring := rev (trimStart (rev s)).

Definition trim (s : jsstring) : jsstring := trimEnd (trimStart s).

(** Truthiness of a string: only the empty string is falsy. *)
Definition truthy (s : jsstring) : bool :=
  match s with [] => false | _ => true end.

(** [a.slice(0, e)] for an integral [e]: a negative end counts from the
    back, and both ends are clamped to the array. *)
Definition slice0 {A : Type} (a : list A) (e : Z) : list A :=
  let len := Z.of_nat (length a) in
  let final := if e <? 0 then Z.max (len + e) 0 else Z.min e len in
  firstn (Z.to_nat final) a.

(** [a[i]]: [undefined] (here [None]) outside [0 .. length-1]. *)
Definition index {A : Type} (a : list A) (i : Z) : option A :=
  if i <? 0 then None else nth_error a (Z.to_nat i).

(** [a.push(x)] and [a.shift()], as the new contents of the array. *)
Definition push {A : Type} (a : list A) (x : A) : list A := a ++ [x].
Definition shift {A : Type} (a : list A) : list A := tl a.

(** [a.length] as a number. *)
Definition len {A : Type} (a : list A) : Z := Z.of_nat (length a).

End JS.

Import JS.

(** ** The canvas element and its 2D context *)

Inductive CompositeOp : Type := SourceOver | DestinationOut.
Inductive LineCap : Type := CapButt | CapRound.
Inductive LineJoin : Type := JoinMiter | JoinRound.
Inductive Baseline : Type := BaseAlphabetic | BaseTop.

(** [ctx.font]: the context's default, or the template
    [bold ${px}px Inter, sans-serif] of [commitText]. *)
Inductive Font : Type := FontDefault | FontBoldInter (px : Z).

Definition point : Type := (R * R)%type.

(** The drawing state of a [CanvasRenderingContext2D] and its current
    path, a list of sub-paths, the newest first, each with its newest
    point first. *)
Record Context2D : Type := mkContext2D {
  strokeStyle : jsstring;
  fillStyle : jsstring;
  lineWidth : Z;
  lineCap : LineCap;
  lineJoin : LineJoin;
  globalCompositeOperation : CompositeOp;
  font : Font;
  textBaseline : Baseline;
  path : list (list point)
}.

(** The calls that put ink on the canvas. *)
Inductive DrawCall : Type :=
| CallStroke
| CallFill
| CallStrokeRect (x y w h : R)
| CallFillText (text : jsstring) (x y : R).

(** The contents of a canvas: a transparent sheet, a call rendered with a
    drawing state over earlier contents, or the [w] by [h] block [src]
    copied raw at the origin of [under]. *)
Inductive Bitmap : Type :=
| Transparent
| Drawn (c : DrawCall) (st : Context2D) (under : Bitmap)
| Patched (w h : nat) (src under : Bitmap).

Record ImageData : Type := mkImageData {
  iwidth : nat;
  iheight : nat;
  idata : Bitmap
}.

(** The canvas element: its size, its position in the viewport
    ([getBoundingClientRect]), its pixels and its context. Only the 2d
    context is ever requested, so [getContext] does not fail. *)
Record Canvas : Type := mkCanvas {
  cwidth : nat;
  cheight : nat;
  rectLeft : R;
  rectTop : R;
  bitmap : Bitmap;
  ctx : Context2D
}.

Definition with_bitmap (b : Bitmap) (c : Canvas) : Canvas :=
  mkCanvas (cwidth c) (cheight c) (rectLeft c) (rectTop c) b (ctx c).

Definition with_ctx (st : Context2D) (c : Canvas) : Canvas :=
  mkCanvas (cwidth c) (cheight c) (rectLeft c) (rectTop c) (bitmap c) st.

(** [ctx.getImageData(0, 0, canvas.width, canvas.height)]: an
    [IndexSizeError] ([None]) when a side is zero. *)
Definition getImageData (c : Canvas) : option ImageData :=
  if (Nat.eqb (cwidth c) 0 || Nat.eqb (cheight c) 0)%bool then None
  else Some (mkImageData (cwidth c) (cheight c) (bitmap c)).

(** [ctx.putImageData(img, 0, 0)]: a raw copy, without compositing. An
    image of the canvas's size replaces every pixel. *)
Definition putImageData (img : ImageData) (c : Canvas) : Canvas :=
  if (Nat.eqb (iwidth img) (cwidth c) && Nat.eqb (iheight img) (cheight c))%bool
  then with_bitmap (idata img) c
  else with_bitmap (Patched (iwidth img) (iheight img) (idata img) (bitmap c)) c.

(** [ctx.clearRect(0, 0, canvas.width, canvas.height)]. *)
Definition clearRect (c : Canvas) : Canvas := with_bitmap Transparent c.

(** A call that paints with the current drawing state. *)
Definition paint (d : DrawCall) (c : Canvas) : Canvas :=
  with_bitmap (Drawn d (ctx c) (bitmap c)) c.

(** Setters of the drawing state. The width setter ignores values that
    are not positive. *)
Definition set_strokeStyle (v : jsstring) (st : Context2D) : Context2D :=
  mkContext2D v (fillStyle st) (lineWidth st) (lineCap st) (lineJoin st)
    (globalCompositeOperation st) (font st) (textBaseline st) (path st).
Definition set_fillStyle (v : jsstring) (st : Context2D) : Context2D :=
  mkContext2D (strokeStyle st) v (lineWidth st) (lineCap st) (lineJoin st)
    (globalCompositeOperation st) (font st) (textBaseline st) (path st).
Definition set_lineWidth (v : Z) (st : Context2D) : Context2D :=
  mkContext2D (strokeStyle st) (fillStyle st)
    (if 0 <? v then v else lineWidth st) (lineCap st) (lineJoin st)
    (globalCompositeOperation st) (font st) (textBaseline st) (path st).
Definition set_lineCap (v : LineCap) (st : Context2D) : Context2D :=
  mkContext2D (strokeStyle st) (fillStyle st) (lineWidth st) v (lineJoin st)
    (globalCompositeOperation st) (font st) (textBaseline st) (path st).
Definition set_lineJoin (v : LineJoin) (st : Context2D) : Context2D :=
  mkContext2D (strokeStyle st) (fillStyle st) (lineWidth st) (lineCap st) v
    (globalCompositeOperation st) (font st) (textBaseline st) (path st).
Definition set_gco (v : CompositeOp) (st : Context2D) : Context2D :=
  mkContext2D (strokeStyle st) (fillStyle st) (lineWidth st) (lineCap st)
    (lineJoin st) v (font st) (textBaseline st) (path st).
Definition set_font (v : Font) (st : Context2D) : Context2D :=
  mkContext2D (strokeStyle st) (fillStyle st) (lineWidth st) (lineCap st)
    (lineJoin st) (globalCompositeOperation st) v (textBaseline st) (path st).
Definition set_textBaseline (v : Baseline) (st : Context2D) : Context2D :=
  mkContext2D (strokeStyle st) (fillStyle st) (lineWidth st) (lineCap st)
    (lineJoin st) (globalCompositeOperation st) (font st) v (path st).
Definition set_path (v : list (list point)) (st : Context2D) : Context2D :=
  mkContext2D (strokeStyle st) (fillStyle st) (lineWidth st) (lineCap st)
    (lineJoin st) (globalCompositeOperation st) (font st) (textBaseline st) v.

(** [beginPath], [moveTo] and [lineTo] on the current path. A [lineTo] on
    an empty path starts a sub-path at its point. *)
Definition beginPath (st : Context2D) : Context2D := set_path [] st.
Definition moveTo (p : point) (st : Context2D) : Context2D :=
  set_path ([p] :: path st) st.
Definition lineTo (p : point) (st : Context2D) : Context2D :=
  match path st with
  | [] => set_path [[p]] st
  | sub :: rest => set_path ((p :: sub) :: rest) st
  end.

Definition onCtx (f : Context2D -> Context2D) (c : Canvas) : Canvas :=
  with_ctx (f (ctx c)) c.

(** ** Application state *)

Inductive LayerType : Type := TImage | TGeneration | TSegment.

Definition LayerType_eqb (a b : LayerType) : bool :=
  match a, b with
  | TImage, TImage | TGeneration, TGeneration | TSegment, TSegment => true
  | _, _ => false
  end.

Record Layer : Type := mkLayer {
  id : jsstring;
  type : LayerType;
  name : jsstring;
  url : jsstring;
  visible : bool;
  opacity : Z
}.

Inductive Tool : Type := Cursor | Brush | Rect | Arrow | Eraser | Text.

Definition Tool_eqb (a b : Tool) : bool :=
  match a, b with
  | Cursor, Cursor | Brush, Brush | Rect, Rect
  | Arrow, Arrow | Eraser, Eraser | Text, Text => true
  | _, _ => false
  end.

Record TextInput : Type := mkTextInput {
  tiX : R;
  tiY : R;
  tiVisible : bool
}.

Inductive ToastType : Type := Success | Error | Info.

(** A toast; its id is the time stamp [Date.now()] it was made at. *)
Record Toast : Type := mkToast {
  toastId : Z;
  message : jsstring;
  toastType : ToastType
}.

Record App : Type := mkApp {
  layers : list Layer;
  activeLayerId : option jsstring;
  annotationTool : Tool;
  brushColor : jsstring;
  brushSize : Z;
  isDrawing : bool;
  startPos : option point;
  history : list ImageData;
  historyStep : Z;
  snapshot : option ImageData;
  textInput : TextInput;
  textValue : jsstring;          (* textValueRef.current *)
  canvas : option Canvas;        (* canvasRef.current *)
  toasts : list Toast
}.

Definition annotationsId : jsstring := lit "annotations-layer".

(** The state of the first render: the [useState] and [useRef] initial
    values, with the overlay canvas of the page. *)
Definition initialApp (cv : option Canvas) : App :=
  mkApp [] None Cursor (lit "#8b5cf6") 4 false None [] (-1) None
    (mkTextInput 0%R 0%R false) [] cv [].

Definition set_layers (v : list Layer) (s : App) : App :=
  mkApp v (activeLayerId s) (annotationTool s) (brushColor s) (brushSize s)
    (isDrawing s) (startPos s) (history s) (historyStep s) (snapshot s)
    (textInput s) (textValue s) (canvas s) (toasts s).
Definition set_activeLayerId (v : option jsstring) (s : App) : App :=
  mkApp (layers s) v (annotationTool s) (brushColor s) (brushSize s)
    (isDrawing s) (startPos s) (history s) (historyStep s) (snapshot s)
    (textInput s) (textValue s) (canvas s) (toasts s).
Definition set_annotationTool (v : Tool) (s : App) : App :=
  mkApp (layers s) (activeLayerId s) v (brushColor s) (brushSize s)
    (isDrawing s) (startPos s) (history s) (historyStep s) (snapshot s)
    (textInput s) (textValue s) (canvas s) (toasts s).
Definition set_isDrawing (v : bool) (s : App) : App :=
  mkApp (layers s) (activeLayerId s) (annotationTool s) (brushColor s)
    (brushSize s) v (startPos s) (history s) (historyStep s) (snapshot s)
    (textInput s) (textValue s) (canvas s) (toasts s).
Definition set_startPos (v : option point) (s : App) : App :=
  mkApp (layers s) (activeLayerId s) (annotationTool s) (brushColor s)
    (brushSize s) (isDrawing s) v (history s) (historyStep s) (snapshot s)
    (textInput s) (textValue s) (canvas s) (toasts s).
Definition set_history (v : list ImageData) (s : App) : App :=
  mkApp (layers s) (activeLayerId s) (annotationTool s) (brushColor s)
    (brushSize s) (isDrawing s) (startPos s) v (historyStep s) (snapshot s)
    (textInput s) (textValue s) (canvas s) (toasts s).
Definition set_historyStep (v : Z) (s : App) : App :=
  mkApp (layers s) (activeLayerId s) (annotationTool s) (brushColor s)
    (brushSize s) (isDrawing s) (startPos s) (history s) v (snapshot s)
    (textInput s) (textValue s) (canvas s) (toasts s).
Definition set_snapshot (v : option ImageData) (s : App) : App :=
  mkApp (layers s) (activeLayerId s) (annotationTool s) (brushColor s)
    (brushSize s) (isDrawing s) (startPos s) (history s) (historyStep s) v
    (textInput s) (textValue s) (canvas s) (toasts s).
Definition set_textInput (v : TextInput) (s : App) : App :=
  mkApp (layers s) (activeLayerId s) (annotationTool s) (brushColor s)
    (brushSize s) (isDrawing s) (startPos s) (history s) (historyStep s)
    (snapshot s) v (textValue s) (canvas s) (toasts s).
Definition set_textValue (v : jsstring) (s : App) : App :=
  mkApp (layers s) (activeLayerId s) (annotationTool s) (brushColor s)
    (brushSize s) (isDrawing s) (startPos s) (history s) (historyStep s)
    (snapshot s) (textInput s) v (canvas s) (toasts s).
Definition set_canvas (v : option Canvas) (s : App) : App :=
  mkApp (layers s) (activeLayerId s) (annotationTool s) (brushColor s)
    (brushSize s) (isDrawing s) (startPos s) (history s) (historyStep s)
    (snapshot s) (textInput s) (textValue s) v (toasts s).
Definition set_toasts (v : list Toast) (s : App) : App :=
  mkApp (layers s) (activeLayerId s) (annotationTool s) (brushColor s)
    (brushSize s) (isDrawing s) (startPos s) (history s) (historyStep s)
    (snapshot s) (textInput s) (textValue s) (canvas s) v.

(** ** Handlers: a state monad with exceptions

    A handler that throws keeps the writes it made before the throw: the
    canvas and the refs are mutated in place, and React still applies the
    state updates that were queued. *)

Inductive completion (A : Type) : Type :=
| Normal (a : A)
| Thrown.                        (* a DOMException *)
Arguments Normal {A} a.
Arguments Thrown {A}.

Definition M (A : Type) : Type := App -> completion A * App.

Definition ret {A : Type} (a : A) : M A := fun s => (Normal a, s).

Definition bind {A B : Type} (m : M A) (k : A -> M B) : M B :=
  fun s => match m s with
           | (Normal a, s') => k a s'
           | (Thrown, s') => (Thrown, s')
           end.

Definition throw {A : Type} : M A := fun s => (Thrown, s).
Definition gets {A : Type} (f : App -> A) : M A := fun s => (Normal (f s), s).
Definition modify (f : App -> App) : M unit := fun s => (Normal tt, f s).

Declare Scope handler_scope.
Delimit Scope handler_scope with handler.
Notation "x <- c1 ;; c2" := (bind c1 (fun x => c2))
  (at level 100, c1 at next level, right associativity) : handler_scope.
Notation "c1 ;; c2" := (bind c1 (fun _ => c2))
  (at level 100, right associativity) : handler_scope.
Local Open Scope handler_scope.

(** A canvas call; the handlers only make one after they have seen that
    the ref is set. *)
Definition onCanvas (f : Canvas -> Canvas) : M unit :=
  modify (fun s => match canvas s with
                   | Some c => set_canvas (Some (f c)) s
                   | None => s
                   end).

(** A browser call that may throw. *)
Definition orThrow {A : Type} (o : option A) : M A :=
  match o with
  | Some a => ret a
  | None => throw
  end.

(** An event: the handler of the current render runs on the current
    state, and the next render shows the state it leaves. *)
Definition fire {A : Type} (h : App -> M A) (s : App) : App := snd (h s s).
Definition result {A : Type} (h : App -> M A) (s : App) : completion A :=
  fst (h s s).

(** ** The handlers of [App.tsx]

    In each handler [r] is the render whose closure the handler is: the
    state variables it reads are those of [r]. *)

(** [addToast]; the removal after four seconds is a later event. *)
Definition addToast (now : Z) (msg : jsstring) (ty : ToastType) : M unit :=
  modify (fun s => set_toasts (toasts s ++ [mkToast now msg ty]) s).

(** [id === activeLayerId], for an [activeLayerId] that may be [null]. *)
Definition isActive (i : jsstring) (a : option jsstring) : bool :=
  match a with
  | Some j => streq i j
  | None => false
  end.

(** [filtered[0]?.id || null] *)
Definition firstIdOrNull (ls : list Layer) : option jsstring :=
  match ls with
  | l :: _ => if truthy (id l) then Some (id l) else None
  | [] => None
  end.

Definition handleDeleteLayer (i : jsstring) (r : App) : M unit :=
  modify (fun s =>
    let filtered := filter (fun l => negb (streq (id l) i)) (layers s) in
    let s := if isActive i (activeLayerId r)
             then set_activeLayerId (firstIdOrNull filtered) s else s in
    set_layers filtered s) ;;
  if streq i annotationsId then
    modify (set_history []) ;;
    modify (set_historyStep (-1)) ;;
    onCanvas clearRect
  else ret tt.

Definition annotationLayer0 : Layer :=
  mkLayer annotationsId TSegment (lit "Annotations") [] true 1.

Definition show (l : Layer) : Layer :=
  mkLayer (id l) (type l) (name l) (url l) true (opacity l).

Definition ensureAnnotationLayer (r : App) : M unit :=
  match find (fun l => streq (id l) annotationsId) (layers r) with
  | None =>
      modify (fun s => set_layers (annotationLayer0 :: layers s) s) ;;
      modify (set_activeLayerId (Some (id annotationLayer0)))
  | Some existing =>
      if negb (visible existing) then
        modify (fun s => set_layers
          (map (fun l => if streq (id l) (id existing) then show l else l)
               (layers s)) s) ;;
        modify (set_activeLayerId (Some (id existing)))
      else ret tt
  end.

Definition handleToolSelect (tool : Tool) (r : App) : M unit :=
  modify (set_annotationTool tool) ;;
  if negb (Tool_eqb tool Cursor) then ensureAnnotationLayer r else ret tt.

Definition saveHistory (r : App) : M unit :=
  c <- gets canvas ;;
  match c with
  | None => ret tt
  | Some cv =>
      data <- orThrow (getImageData cv) ;;
      let newHistory := push (slice0 (history r) (historyStep r + 1)) data in
      let newHistory :=
        if 20 <? len newHistory then shift newHistory else newHistory in
      modify (set_history newHistory) ;;
      modify (set_historyStep (len newHistory - 1))
  end.

Definition handleUndo (r : App) : M unit :=
  c <- gets canvas ;;
  match c with
  | None => ret tt
  | Some _ =>
      if 0 <? historyStep r then
        let newStep := historyStep r - 1 in
        modify (set_historyStep newStep) ;;
        match index (history r) newStep with
        | Some img => onCanvas clearRect ;; onCanvas (putImageData img)
        | None => ret tt
        end
      else if historyStep r =? 0 then
        modify (set_historyStep (-1)) ;;
        onCanvas clearRect
      else ret tt
  end.

Definition handleRedo (r : App) : M unit :=
  if historyStep r <? len (history r) - 1 then
    let newStep := historyStep r + 1 in
    modify (set_historyStep newStep) ;;
    c <- gets canvas ;;
    match c, index (history r) newStep with
    | Some _, Some img => onCanvas clearRect ;; onCanvas (putImageData img)
    | _, _ => ret tt
    end
  else ret tt.

Definition hide (t : TextInput) : TextInput :=
  mkTextInput (tiX t) (tiY t) false.

Definition commitText (r : App) : M unit :=
  if negb (tiVisible (textInput r)) then ret tt
  else
    text <- gets textValue ;;
    if negb (truthy (trim text)) then
      modify (fun s => set_textInput (hide (textInput s)) s)
    else
      c <- gets canvas ;;
      match c with
      | Some _ =>
          onCanvas (onCtx (set_gco SourceOver)) ;;
          onCanvas (onCtx (set_font (FontBoldInter (16 + brushSize r * 2)))) ;;
          onCanvas (onCtx (set_fillStyle (brushColor r))) ;;
          onCanvas (onCtx (set_textBaseline BaseTop)) ;;
          onCanvas (paint (CallFillText text (tiX (textInput r))
                                             (tiY (textInput r)))) ;;
          saveHistory r
      | None => ret tt
      end ;;
      modify (set_textValue []) ;;
      modify (fun s => set_textInput (hide (textInput s)) s).

(** The part of a mouse event the handlers read. *)
Record MouseEvent : Type := mkMouseEvent {
  clientX : R;
  clientY : R
}.

Definition startDrawing (e : MouseEvent) (r : App) : M unit :=
  if Tool_eqb (annotationTool r) Cursor then ret tt
  else
    (if tiVisible (textInput r) then commitText r else ret tt) ;;
    if tiVisible (textInput r) && Tool_eqb (annotationTool r) Text then ret tt
    else
      ensureAnnotationLayer r ;;
      c <- gets canvas ;;
      match c with
      | None => ret tt
      | Some cv =>
          modify (set_isDrawing true) ;;
          let x := (clientX e - rectLeft cv)%R in
          let y := (clientY e - rectTop cv)%R in
          modify (set_startPos (Some (x, y))) ;;
          if Tool_eqb (annotationTool r) Text then
            modify (set_textValue []) ;;
            modify (set_textInput (mkTextInput x y true)) ;;
            modify (set_isDrawing false)
          else
            (if Tool_eqb (annotationTool r) Rect
                || Tool_eqb (annotationTool r) Arrow
             then data <- orThrow (getImageData cv) ;;
                  modify (set_snapshot (Some data))
             else ret tt) ;;
            onCanvas (onCtx beginPath) ;;
            onCanvas (onCtx (moveTo (x, y))) ;;
            onCanvas (onCtx (set_strokeStyle
              (if Tool_eqb (annotationTool r) Eraser
               then lit "rgba(0,0,0,1)" else brushColor r))) ;;
            onCanvas (onCtx (set_lineWidth (brushSize r))) ;;
            onCanvas (onCtx (set_lineCap CapRound)) ;;
            onCanvas (onCtx (set_lineJoin JoinRound)) ;;
            onCanvas (onCtx (set_gco
              (if Tool_eqb (annotationTool r) Eraser
               then DestinationOut else SourceOver)))
      end.

Definition stopDrawing (r : App) : M unit :=
  if isDrawing r then
    modify (set_isDrawing false) ;;
    modify (set_snapshot None) ;;
    onCanvas (onCtx (set_gco SourceOver)) ;;
    saveHistory r
  else ret tt.

(** [Math.atan2(y, x)] over the reals: the angle in (-PI, PI] of the
    vector (x, y), and 0 for the null vector. The code computes it, and
    the vertices below, in doubles; they stand here for the points that
    [drawArrow] hands to [lineTo], and nothing is proved of their
    values. *)
Definition atan2 (y x : R) : R :=
  if Rlt_dec 0 x then atan (y / x)
  else if Rlt_dec x 0 then
         if Rle_dec 0 y then (atan (y / x) + PI)%R else (atan (y / x) - PI)%R
  else if Rlt_dec 0 y then (PI / 2)%R
  else if Rlt_dec y 0 then (- (PI / 2))%R
  else 0%R.

Definition headLength (r : App) : Z := 15 + brushSize r.

(** The two points behind the tip of an arrow, in the order they are
    drawn. *)
Definition backVertex1 (r : App) (fromX fromY toX toY : R) : point :=
  let angle := atan2 (toY - fromY) (toX - fromX) in
  ((toX - IZR (headLength r) * cos (angle - PI / 6))%R,
   (toY - IZR (headLength r) * sin (angle - PI / 6))%R).

Definition backVertex2 (r : App) (fromX fromY toX toY : R) : point :=
  let angle := atan2 (toY - fromY) (toX - fromX) in
  ((toX - IZR (headLength r) * cos (angle + PI / 6))%R,
   (toY - IZR (headLength r) * sin (angle + PI / 6))%R).

Definition drawArrow (r : App) (fromX fromY toX toY : R) (c : Canvas)
  : Canvas :=
  let c := onCtx beginPath c in
  let c := onCtx (moveTo (fromX, fromY)) c in
  let c := onCtx (lineTo (toX, toY)) c in
  let c := paint CallStroke c in
  let c := onCtx beginPath c in
  let c := onCtx (moveTo (toX, toY)) c in
  let c := onCtx (lineTo (backVertex1 r fromX fromY toX toY)) c in
  let c := onCtx (lineTo (backVertex2 r fromX fromY toX toY)) c in
  let c := onCtx (lineTo (toX, toY)) c in
  let c := onCtx (fun st => set_fillStyle (strokeStyle st) st) c in
  paint CallFill c.

Definition restoreSnapshot (r : App) : M unit :=
  match snapshot r with
  | Some img => onCanvas (putImageData img)
  | None => ret tt
  end.

Definition draw (e : MouseEvent) (r : App) : M unit :=
  match isDrawing r, startPos r with
  | true, Some (startX, startY) =>
      c <- gets canvas ;;
      match c with
      | None => ret tt
      | Some cv =>
          let currentX := (clientX e - rectLeft cv)%R in
          let currentY := (clientY e - rectTop cv)%R in
          match annotationTool r with
          | Brush | Eraser =>
              onCanvas (onCtx (lineTo (currentX, currentY))) ;;
              onCanvas (paint CallStroke)
          | Rect =>
              restoreSnapshot r ;;
              onCanvas (onCtx beginPath) ;;
              onCanvas (paint (CallStrokeRect startX startY
                                 (currentX - startX) (currentY - startY)))
          | Arrow =>
              restoreSnapshot r ;;
              onCanvas (drawArrow r startX startY currentX currentY)
          | _ => ret tt
          end
      end
  | _, _ => ret tt
  end.

(** What [handleExport] hands to the browser: nothing, a download of a
    layer's own url, or the compositing of a base layer with the overlay
    (which downloads once the base image has loaded). *)
Inductive Exported : Type :=
| NoExport
| Download (href filename : jsstring)
| Composite (base : Layer) (overlay : Canvas).

Definition isExportCandidate (a : option jsstring) (l : Layer) : bool :=
  isActive (id l) a && negb (streq (id l) annotationsId).

Definition isVisibleImage (l : Layer) : bool :=
  negb (LayerType_eqb (type l) TSegment) && visible l.

(** [layers.find(p) || layers.find(q)]: a layer object is truthy. *)
Definition exportLayer (r : App) : option Layer :=
  match find (isExportCandidate (activeLayerId r)) (layers r) with
  | Some l => Some l
  | None => find isVisibleImage (layers r)
  end.

Definition hasAnnotations (r : App) : bool :=
  match find (fun l => streq (id l) annotationsId) (layers r) with
  | Some annotationLayer => visible annotationLayer && (0 <=? historyStep r)
  | None => false
  end.

Definition handleExport (now : Z) (r : App) : M Exported :=
  match exportLayer r with
  | None =>
      addToast now (lit "No valid image layer to export") Error ;;
      ret NoExport
  | Some l =>
      c <- gets canvas ;;
      match hasAnnotations r, c with
      | true, Some cv => ret (Composite l cv)
      | _, _ =>
          addToast now (lit "Export started") Success ;;
          ret (Download (url l)
                 (lit "c4-export-" ++ name l ++ lit ".png"))
      end
  end.

(** ** The header stripping of [editImage] *)

Module Regex.

(** The fragment of regular expressions the service uses: literal text,
    alternation and sequence. *)
Inductive regex : Type :=
| Chars (s : jsstring)
| Alt (a b : regex)
| Seq (a b : regex).

Fixpoint stripPrefix (p s : jsstring) : option jsstring :=
  match p, s with
  | [], _ => Some s
  | x :: p', y :: s' => if N.eqb x y then stripPrefix p' s' else None
  | _ :: _, [] => None
  end.

(** Backtracking match at the head of [s]: alternatives are tried from
    the left, and [k] receives what follows the match. *)
Fixpoint matchHead {A : Type} (re : regex) (s : jsstring)
    (k : jsstring -> option A) : option A :=
  match re with
  | Chars p => match stripPrefix p s with
               | Some rest => k rest
               | None => None
               end
  | Alt a b => match matchHead a s k with
               | Some x => Some x
               | None => matchHead b s k
               end
  | Seq a b => matchHead a s (fun rest => matchHead b rest k)
  end.

(** [s.replace(/^re/, by)]: without the [g] and [m] flags an anchored
    expression can only match at index 0. *)
Definition replaceAnchored (re : regex) (by_ s : jsstring) : jsstring :=
  match matchHead re s Some with
  | Some rest => by_ ++ rest
  | None => s
  end.

End Regex.

(** [/^data:image\/(png|jpeg|webp);base64,/] *)
Definition headerRe : Regex.regex :=
  Regex.Seq (Regex.Chars (lit "data:image/"))
    (Regex.Seq
       (Regex.Alt (Regex.Chars (lit "png"))
          (Regex.Alt (Regex.Chars (lit "jpeg")) (Regex.Chars (lit "webp"))))
       (Regex.Chars (lit ";base64,"))).

Definition cleanBase64 (imageBase64 : jsstring) : jsstring :=
  Regex.replaceAnchored headerRe [] imageBase64.

Inductive ModelTier : Type := NANO_BANANA | NANO_BANANA_PRO.

(** The [generateContent] request of [editImage]: the model, the inline
    image part and the text part. *)
Record EditRequest : Type := mkEditRequest {
  reqModel : ModelTier;
  reqMimeType : jsstring;
  reqData : jsstring;
  reqText : jsstring
}.

Definition editImageRequest (imageBase64 prompt : jsstring) (model : ModelTier)
  : EditRequest :=
  mkEditRequest model (lit "image/png") (cleanBase64 imageBase64) prompt.

(** A data URI with a base64 payload, as [FileReader.readAsDataURL] and
    [generateImage] build them. *)
Definition dataURI (mime b64 : jsstring) : jsstring :=
  lit "data:" ++ mime ++ lit ";base64," ++ b64.

(** * Vocabulary of the properties *)

(** The stack [saveHistory] builds from the stack [h] and the cursor [k]
    it found and the snapshot [data] it took. *)
Definition pushed (h : list ImageData) (k : Z) (data : ImageData)
  : list ImageData :=
  push (slice0 h (k + 1)) data.

Definition committed (h : list ImageData) (k : Z) (data : ImageData)
  : list ImageData :=
  if 20 <? len (pushed h k data) then shift (pushed h k data)
  else pushed h k data.

(** The invariant of the history stack. *)
Definition hist_inv (s : App) : Prop :=
  -1 <= historyStep s <= len (history s) - 1 /\ len (history s) <= 20.

(** What the user does to the page. [EvInput] is a key stroke in the text
    box ([onChange]); the other events run the handler of their name. *)
Inductive Event : Type :=
| EvToolSelect (tool : Tool)
| EvStartDrawing (e : MouseEvent)
| EvDraw (e : MouseEvent)
| EvStopDrawing
| EvInput (value : jsstring)
| EvCommitText
| EvUndo
| EvRedo
| EvDeleteLayer (i : jsstring)
| EvExport (now : Z).

Definition handle (ev : Event) (s : App) : App :=
  match ev with
  | EvToolSelect tool => fire (handleToolSelect tool) s
  | EvStartDrawing e => fire (startDrawing e) s
  | EvDraw e => fire (draw e) s
  | EvStopDrawing => fire stopDrawing s
  | EvInput value => set_textValue value s
  | EvCommitText => fire commitText s
  | EvUndo => fire handleUndo s
  | EvRedo => fire handleRedo s
  | EvDeleteLayer i => fire (handleDeleteLayer i) s
  | EvExport now => fire (handleExport now) s
  end.

(** The states of a session: the first render, then events, and between
    them anything else the page does (uploads, generated layers, layer
    selection and visibility, brush settings, resizing and remounting of
    the canvas), none of which writes the history or its cursor. *)
Inductive reachable : App -> Prop :=
| reach_init (cv : option Canvas) : reachable (initialApp cv)
| reach_event (ev : Event) (s : App) :
    reachable s -> reachable (handle ev s)
| reach_other (s s' : App) :
    reachable s ->
    history s' = history s -> historyStep s' = historyStep s ->
    reachable s'.

(** Drawing between two commits, by its net effect on the overlay. *)
Definition redraw (b : Bitmap) (s : App) : App :=
  match canvas s with
  | Some cv => set_canvas (Some (with_bitmap b cv)) s
  | None => s
  end.

(** A sequence of commits, each of the overlay as drawn before it. *)
Definition commits (bs : list Bitmap) (s : App) : App :=
  fold_left (fun s b => fire saveHistory (redraw b s)) bs s.

(** The state that shows entry [k] of the history of [s] on the canvas
    [cv], or the cleared canvas for [k = -1]. *)
Definition showing (s : App) (cv : Canvas) (k : Z) : App :=
  set_canvas
    (Some (match index (history s) k with
           | Some img => putImageData img (clearRect cv)
           | None => clearRect cv
           end))
    (set_historyStep k s).

(** A handler preserves a property of the store. *)
Definition preserves {A : Type} (P : App -> Prop) (m : M A) : Prop :=
  forall t, P t -> P (snd (m t)).

(** Writes that leave the history and its cursor alone. *)
Definition frame (f : App -> App) : Prop :=
  forall t, history (f t) = history t /\ historyStep (f t) = historyStep t.

(** The drawing state [commitText] writes the text with. *)
Definition textState (r : App) (st : Context2D) : Context2D :=
  set_textBaseline BaseTop
    (set_fillStyle (brushColor r)
       (set_font (FontBoldInter (16 + brushSize r * 2))
          (set_gco SourceOver st))).

(** The canvas after the one [fillText] of [commitText]. *)
Definition textDrawn (r : App) (cv : Canvas) : Canvas :=
  paint (CallFillText (textValue r) (tiX (textInput r)) (tiY (textInput r)))
    (with_ctx (textState r (ctx cv)) cv).

(** The tools whose press keeps a preview snapshot. *)
Definition isShape (tool : Tool) : bool :=
  Tool_eqb tool Rect || Tool_eqb tool Arrow.

(** The canvas as [startDrawing] leaves it for a stroke from the press
    point: a fresh path at the point and the pen of the tool. *)
Definition sessionCanvas (e : MouseEvent) (r : App) (cv : Canvas) : Canvas :=
  let x := (clientX e - rectLeft cv)%R in
  let y := (clientY e - rectTop cv)%R in
  onCtx (set_gco (if Tool_eqb (annotationTool r) Eraser
                  then DestinationOut else SourceOver))
    (onCtx (set_lineJoin JoinRound)
       (onCtx (set_lineCap CapRound)
          (onCtx (set_lineWidth (brushSize r))
             (onCtx (set_strokeStyle
                       (if Tool_eqb (annotationTool r) Eraser
                        then lit "rgba(0,0,0,1)" else brushColor r))
                (onCtx (moveTo (x, y)) (onCtx beginPath cv)))))).

(** Sample states: a 300 by 150 overlay with a fresh context, the first
    render on it, a full history with the cursor on top, an open text
    edit holding "hi" under the text tool, and a session with the overlay
    active above a segmentation result and the photo it was cut from. *)
Definition ctx0 : Context2D :=
  mkContext2D (lit "#000000") (lit "#000000") 1 CapButt JoinMiter SourceOver
    FontDefault BaseAlphabetic [].
Definition canvas0 : Canvas := mkCanvas 300 150 0%R 0%R Transparent ctx0.
Definition img0 : ImageData := mkImageData 300 150 Transparent.
Definition app0 : App := initialApp (Some canvas0).
Definition fullApp : App :=
  set_historyStep 19 (set_history (repeat img0 20) app0).
Definition twoApp : App :=
  set_historyStep 1 (set_history [img0; img0] app0).
Definition textApp : App :=
  set_textValue (lit "hi")
    (set_textInput (mkTextInput 10%R 20%R true)
       (set_annotationTool Text app0)).
Definition press0 : MouseEvent := mkMouseEvent 50%R 60%R.
Definition photoLayer : Layer :=
  mkLayer (lit "1700000000000") TImage (lit "photo.png")
    (lit "data:image/png;base64,AAAA") true 1.
Definition cutoutLayer : Layer :=
  mkLayer (lit "1700000005000") TSegment (lit "Segment: photo.png")
    (lit "data:image/png;base64,BBBB") true 1.
Definition exportApp : App :=
  set_activeLayerId (Some annotationsId)
    (set_layers [annotationLayer0; cutoutLayer; photoLayer] app0).
Definition gifUpload : jsstring :=
  dataURI (lit "image/gif") (lit "R0lGODlhAQABAAAAACw=").

Definition blankApp : App := set_textValue (lit "  ") textApp.

(** A session: the brush is selected and one dot is drawn. *)
Definition dotApp : App :=
  handle EvStopDrawing
    (handle (EvStartDrawing press0) (handle (EvToolSelect Brush) app0)).

(** A second dot, and then the displayed layer is gone: the overlay
    canvas is unmounted while the history holds both strokes. *)
Definition twoDotsApp : App :=
  handle EvStopDrawing (handle (EvStartDrawing press0) dotApp).
Definition unmountedApp : App := set_canvas None twoDotsApp.

(** Claim C2 in the words of the design document, for an undo with the
    cursor above 0: the cursor is decremented and the overlay is repainted
    from the snapshot at the new cursor. *)
Definition undoesOneStep (s s' : App) : Prop :=
  historyStep s' = historyStep s - 1 /\
  exists cv img,
    canvas s' = Some cv /\
    index (history s) (historyStep s - 1) = Some img /\
    bitmap cv = idata img.

(** Claim C4 in the words of the design document, for the text tool: the
    press discards the pending text without rendering it (overlay and
    history stay as they were) and opens an empty edit anchored at the
    press point. *)
Definition opensFreshEdit (e : MouseEvent) (s s' : App) : Prop :=
  option_map bitmap (canvas s') = option_map bitmap (canvas s) /\
  history s' = history s /\
  textValue s' = [] /\
  tiVisible (textInput s') = true /\
  (forall cv, canvas s = Some cv ->
     tiX (textInput s') = (clientX e - rectLeft cv)%R /\
     tiY (textInput s') = (clientY e - rectTop cv)%R).

(** Claim C5 in the words of the design document: the base layer is the
    active layer when it is not the overlay, and otherwise the first
    visible layer that is not the overlay. *)
Definition isVisibleNonOverlay (l : Layer) : bool :=
  negb (streq (id l) annotationsId) && visible l.

Definition claimedExportLayer (r : App) : option Layer :=
  match find (isExportCandidate (activeLayerId r)) (layers r) with
  | Some l => Some l
  | None => find isVisibleNonOverlay (layers r)
  end.

(** * More of [App.tsx]: layers, keyboard, resizing *)

Definition set_brushSize (v : Z) (s : App) : App :=
  mkApp (layers s) (activeLayerId s) (annotationTool s) (brushColor s) v
    (isDrawing s) (startPos s) (history s) (historyStep s) (snapshot s)
    (textInput s) (textValue s) (canvas s) (toasts s).

(** [Number.prototype.toString] of an integral number: its decimal
    digits, after a minus sign when it is negative. *)
Fixpoint digits (u : Decimal.uint) : jsstring :=
  match u with
  | Decimal.Nil => []
  | Decimal.D0 u' => 48%N :: digits u'
  | Decimal.D1 u' => 49%N :: digits u'
  | Decimal.D2 u' => 50%N :: digits u'
  | Decimal.D3 u' => 51%N :: digits u'
  | Decimal.D4 u' => 52%N :: digits u'
  | Decimal.D5 u' => 53%N :: digits u'
  | Decimal.D6 u' => 54%N :: digits u'
  | Decimal.D7 u' => 55%N :: digits u'
  | Decimal.D8 u' => 56%N :: digits u'
  | Decimal.D9 u' => 57%N :: digits u'
  end.

Definition numberToString (z : Z) : jsstring :=
  match Z.to_int z with
  | Decimal.Pos u => digits u
  | Decimal.Neg u => 45%N :: digits u
  end.

(** [addLayer], at the time [now] of [Date.now()]. *)
Definition newLayerAt (now : Z) (u : jsstring) (ty : LayerType) (n : jsstring)
  : Layer :=
  mkLayer (numberToString now) ty n u true 1.

Definition addLayer (now : Z) (u : jsstring) (ty : LayerType) (n : jsstring)
  : M unit :=
  modify (fun s => set_layers (newLayerAt now u ty n :: layers s) s) ;;
  modify (set_activeLayerId (Some (id (newLayerAt now u ty n)))).

(** The [onToggleVisibility] and [onSelect] of a layer item. *)
Definition flipVisible (l : Layer) : Layer :=
  mkLayer (id l) (type l) (name l) (url l) (negb (visible l)) (opacity l).

Definition toggleVisibility (i : jsstring) (r : App) : M unit :=
  modify (fun s => set_layers
    (map (fun l => if streq (id l) i then flipVisible l else l) (layers s)) s).

Definition selectLayer (i : jsstring) (r : App) : M unit :=
  modify (set_activeLayerId (Some i)).

(** The values a render derives from the layers: the active layer, and
    the layer shown under the overlay (the overlay canvas is mounted only
    when there is one). *)
Definition activeLayer (r : App) : option Layer :=
  find (fun l => isActive (id l) (activeLayerId r)) (layers r).

Definition displayLayer (r : App) : option Layer :=
  match activeLayer r with
  | Some l =>
      if negb (streq (id l) annotationsId) then Some l
      else find (fun l => negb (streq (id l) annotationsId) && visible l)
             (layers r)
  | None => find (fun l => negb (streq (id l) annotationsId) && visible l)
              (layers r)
  end.

(** The part of a keyboard event the shortcut handler reads. *)
Record KeyboardEvent : Type := mkKeyboardEvent {
  targetTag : jsstring;
  ctrlKey : bool;
  metaKey : bool;
  shiftKey : bool;
  key : jsstring
}.

(** [String.prototype.toLowerCase] on the Basic Latin capitals; other code
    units are left alone. For the comparison with the shortcut keys this
    is the full function: the only other code unit whose lower case is in
    Basic Latin is U+212A, which gives k. *)
Definition lowerUnit (c : N) : N :=
  if (N.leb 65 c && N.leb c 90)%bool then (c + 32)%N else c.

Definition toLowerCase (k : jsstring) : jsstring := map lowerUnit k.

(** The tool shortcuts and the bracket keys, after [toLowerCase]. *)
Definition shortcut (k : jsstring) (r : App) : M unit :=
  if streq k (lit "v") then handleToolSelect Cursor r
  else if streq k (lit "b") then handleToolSelect Brush r
  else if streq k (lit "e") then handleToolSelect Eraser r
  else if streq k (lit "t") then handleToolSelect Text r
  else if streq k (lit "r") then handleToolSelect Rect r
  else if streq k (lit "a") then handleToolSelect Arrow r
  else if streq k (lit "[") then
    modify (fun s => set_brushSize (Z.max 1 (brushSize s - 2)) s)
  else if streq k (lit "]") then
    modify (fun s => set_brushSize (Z.min 50 (brushSize s + 2)) s)
  else ret tt.

(** [handleKeyDown]. Its closure [r] is the render of the last change of
    [historyStep] or [history], the dependencies of the effect that
    registers it. *)
Definition handleKeyDown (e : KeyboardEvent) (r : App) : M unit :=
  if streq (targetTag e) (lit "INPUT") || streq (targetTag e) (lit "TEXTAREA")
  then ret tt
  else
    (if (ctrlKey e || metaKey e) && streq (key e) (lit "z") && negb (shiftKey e)
     then handleUndo r else ret tt) ;;
    (if ((ctrlKey e || metaKey e) && shiftKey e && streq (key e) (lit "z"))
        || ((ctrlKey e || metaKey e) && streq (key e) (lit "y"))
     then handleRedo r else ret tt) ;;
    shortcut (toLowerCase (key e)) r.

(** The brush slider: [setBrushSize(parseInt(e.target.value))], for the
    value of a range input, an integer of its range. *)
Definition slideBrush (v : Z) (r : App) : M unit := modify (set_brushSize v).

(** Assigning [canvas.width] or [canvas.height] clears the canvas and
    resets its context, also when the value does not change. *)
Definition setWidth (w : nat) (c : Canvas) : Canvas :=
  mkCanvas w (cheight c) (rectLeft c) (rectTop c) Transparent ctx0.
Definition setHeight (h : nat) (c : Canvas) : Canvas :=
  mkCanvas (cwidth c) h (rectLeft c) (rectTop c) Transparent ctx0.

(** [updateCanvasSize], for the client size of the displayed image
    ([None] when [imageRef] is not set). Its closure [r] is the current
    render when the image's [onLoad] calls it, and the render of the last
    change of [activeLayerId] when the window's resize listener does. *)
Definition updateCanvasSize (img : option (nat * nat)) (r : App) : M unit :=
  c <- gets canvas ;;
  match c, img with
  | Some cv, Some (w, h) =>
      if negb (Nat.eqb (cwidth cv) w) || negb (Nat.eqb (cheight cv) h) then
        onCanvas (setWidth w) ;;
        onCanvas (setHeight h) ;;
        if 0 <=? historyStep r then
          match index (history r) (historyStep r) with
          | Some snap => onCanvas (putImageData snap)
          | None => ret tt
          end
        else ret tt
      else ret tt
  | _, _ => ret tt
  end.

(** A handler whose closure [r] is an earlier render, on the store [t]. *)
Definition fireFrom {A : Type} (h : App -> M A) (r t : App) : App :=
  snd (h r t).

(** The number of layers that carry the overlay's id. *)
Definition overlayCount (ls : list Layer) : nat :=
  length (filter (fun l => streq (id l) annotationsId) ls).

(** * The image service ([geminiService]) *)

(** How an async function settles: with its value, or with an error and
    the [message] of that error ([None] when it has none). *)
Inductive Outcome (A : Type) : Type :=
| Fulfilled (a : A)
| RejectedWith (message : option jsstring).
Arguments Fulfilled {A} a.
Arguments RejectedWith {A} message.

(** [window.aistudio]: what [hasSelectedApiKey] answers before and after
    the key dialog (its calls are taken to fulfil). *)
Record AIStudio : Type := mkAIStudio {
  hasKeyBefore : bool;
  hasKeyAfter : bool
}.

(** [ensureApiKey]; its value here says whether the key dialog was
    opened. *)
Definition ensureApiKey (model : ModelTier) (aistudio : option AIStudio)
  : Outcome bool :=
  match model with
  | NANO_BANANA_PRO =>
      match aistudio with
      | Some host =>
          if negb (hasKeyBefore host) then
            if negb (hasKeyAfter host) then
              RejectedWith
                (Some (lit "API Key selection is required for Nano Banana Pro."))
            else Fulfilled true
          else Fulfilled false
      | None => Fulfilled false
      end
  | NANO_BANANA => Fulfilled false
  end.

(** The part of a [generateContent] response the service reads; every
    field may be missing. *)
Record InlineData : Type := mkInlineData {
  mimeType : option jsstring;
  data : option jsstring
}.

Record Part : Type := mkPart {
  inlineData : option InlineData;
  partText : option jsstring
}.

Record Content : Type := mkContent { parts : option (list Part) }.
Record Candidate : Type := mkCandidate { content : option Content }.
Record Response : Type := mkResponse { candidates : option (list Candidate) }.

(** [response.candidates?.[0]?.content?.parts || []] *)
Definition responseParts (response : Response) : list Part :=
  match candidates response with
  | Some (c :: _) =>
      match content c with
      | Some ct => match parts ct with Some ps => ps | None => [] end
      | None => []
      end
  | _ => []
  end.

(** A value in a template literal: [undefined] prints as its name. *)
Definition templ (o : option jsstring) : jsstring :=
  match o with
  | Some s => s
  | None => lit "undefined"
  end.

(** The loop over the parts: the data URI of the first part that has
    inline data. *)
Fixpoint firstInline (ps : list Part) : option jsstring :=
  match ps with
  | [] => None
  | part :: ps' =>
      match inlineData part with
      | Some d => Some (dataURI (templ (mimeType d)) (templ (data d)))
      | None => firstInline ps'
      end
  end.

(** [catch (error) { throw new Error(error.message || fallback) }] *)
Definition rethrow {A : Type} (fallback : jsstring) (o : Outcome A)
  : Outcome A :=
  match o with
  | Fulfilled a => Fulfilled a
  | RejectedWith (Some m) =>
      RejectedWith (Some (if truthy m then m else fallback))
  | RejectedWith None => RejectedWith (Some fallback)
  end.

(** The [generateContent] request of [generateImage]. *)
Record GenerateRequest : Type := mkGenerateRequest {
  genModel : ModelTier;
  genText : jsstring;
  genAspectRatio : jsstring;
  genImageSize : option jsstring
}.

Definition generateImageRequest (prompt : jsstring) (model : ModelTier)
    (aspectRatio : jsstring) : GenerateRequest :=
  mkGenerateRequest model prompt aspectRatio
    (match model with
     | NANO_BANANA_PRO => Some (lit "2K")
     | NANO_BANANA => None
     end).

Inductive Request : Type :=
| GenReq (q : GenerateRequest)
| EditReq (q : EditRequest).

(** What the service runs against: [window.aistudio], when there is one,
    and the API, by how its call settles for a request (the client of
    [getClient] is taken to be constructed without an error). *)
Record Host : Type := mkHost {
  aistudio : option AIStudio;
  generateContent : Request -> Outcome Response
}.

(** The body of the [try] of both functions, after the call. *)
Definition imageOf (missing : jsstring) (o : Outcome Response)
  : Outcome jsstring :=
  match o with
  | Fulfilled response =>
      match firstInline (responseParts response) with
      | Some uri => Fulfilled uri
      | None => RejectedWith (Some missing)
      end
  | RejectedWith m => RejectedWith m
  end.

Definition generateImage (h : Host) (prompt : jsstring) (model : ModelTier)
    (aspectRatio : jsstring) : Outcome jsstring :=
  match ensureApiKey model (aistudio h) with
  | RejectedWith m => RejectedWith m
  | Fulfilled _ =>
      rethrow (lit "Failed to generate image.")
        (imageOf (lit "No image data returned from generation.")
           (generateContent h
              (GenReq (generateImageRequest prompt model aspectRatio))))
  end.

Definition editImage (h : Host) (imageBase64 prompt : jsstring)
    (model : ModelTier) : Outcome jsstring :=
  match ensureApiKey model (aistudio h) with
  | RejectedWith m => RejectedWith m
  | Fulfilled _ =>
      rethrow (lit "Failed to edit image.")
        (imageOf (lit "No image data returned from edit.")
           (generateContent h
              (EditReq (editImageRequest imageBase64 prompt model))))
  end.

(** * The prompt panel of [App.tsx] *)

Inductive AppMode : Type := EDIT | GENERATE.

(** The state the handlers of the prompt panel read and write, around
    the state of the layers and the overlay. *)
Record Page : Type := mkPage {
  appState : App;
  mode : AppMode;
  modelTier : ModelTier;
  prompt : jsstring;
  negativePrompt : jsstring;
  isProcessing : bool
}.

Definition initialPage (cv : option Canvas) : Page :=
  mkPage (initialApp cv) GENERATE NANO_BANANA [] [] false.

Definition onApp {A : Type} (m : M A) (t : Page) : Page :=
  mkPage (snd (m (appState t))) (mode t) (modelTier t) (prompt t)
    (negativePrompt t) (isProcessing t).
Definition set_mode (v : AppMode) (t : Page) : Page :=
  mkPage (appState t) v (modelTier t) (prompt t) (negativePrompt t)
    (isProcessing t).
Definition set_prompt (v : jsstring) (t : Page) : Page :=
  mkPage (appState t) (mode t) (modelTier t) v (negativePrompt t)
    (isProcessing t).
Definition set_isProcessing (v : bool) (t : Page) : Page :=
  mkPage (appState t) (mode t) (modelTier t) (prompt t) (negativePrompt t) v.

(** The service call a handler awaits, and the layer it adds when the
    call fulfils. *)
Inductive Call : Type :=
| CallGenerate (prompt : jsstring) (model : ModelTier)
| CallEdit (imageBase64 prompt : jsstring) (model : ModelTier).

Record Pending : Type := mkPending {
  call : Call;
  layerType : LayerType;
  layerName : jsstring
}.

Definition awaitCall (h : Host) (c : Call) : Outcome jsstring :=
  match c with
  | CallGenerate p m => generateImage h p m (lit "1:1")
  | CallEdit i p m => editImage h i p m
  end.

(** [prompt + (negativePrompt ? ` --no ${negativePrompt}` : '')] *)
Definition withNegative (r : Page) : jsstring :=
  prompt r ++
  (if truthy (negativePrompt r) then lit " --no " ++ negativePrompt r else []).

Definition isImageOrGeneration (l : Layer) : bool :=
  LayerType_eqb (type l) TImage || LayerType_eqb (type l) TGeneration.

(** [handleAction] up to its [await]: the closure [r] is of the render
    of the click. Without a pending call the handler is over. *)
Definition actionBegin (now : Z) (r t : Page) : option Pending * Page :=
  if negb (truthy (trim (prompt r))) then
    (None, onApp (addToast now (lit "Please enter a prompt.") Error) t)
  else
    let t := set_isProcessing true t in
    match mode r with
    | GENERATE =>
        (Some (mkPending (CallGenerate (withNegative r) (modelTier r))
                 TGeneration
                 (lit "Gen: " ++ slice0 (prompt r) 15 ++ lit "...")), t)
    | EDIT =>
        match find (isExportCandidate (activeLayerId (appState r)))
                (layers (appState r)) with
        | None =>
            match find isImageOrGeneration (layers (appState r)) with
            | None =>
                let t := onApp (addToast now
                           (lit "Select a valid image layer to edit.") Error)
                           t in
                let t := set_isProcessing false t in
                (None, set_isProcessing false t)
            | Some imgLayer =>
                (Some (mkPending
                         (CallEdit (url imgLayer) (withNegative r)
                            (modelTier r))
                         TImage (lit "Edit: " ++ name imgLayer)), t)
            end
        | Some activeLayer =>
            (Some (mkPending
                     (CallEdit (url activeLayer) (withNegative r)
                        (modelTier r))
                     TImage (lit "Edit: " ++ name activeLayer)), t)
        end
    end.

(** [handleAction] from the settling of the call, on the store of that
    time; [now] and [now'] are the times of [addLayer] and of
    [addToast]. *)
Definition actionEnd (now now' : Z) (p : Pending) (res : Outcome jsstring)
    (t : Page) : Page :=
  let t :=
    match res with
    | Fulfilled resultImage =>
        let t := onApp (addLayer now resultImage (layerType p) (layerName p))
                   t in
        let t := onApp (addToast now' (lit "Processing complete!") Success)
                   t in
        set_prompt [] t
    | RejectedWith m =>
        onApp (addToast now'
                 (match m with
                  | Some s => if truthy s then s else lit "Operation failed"
                  | None => lit "Operation failed"
                  end) Error) t
    end in
  set_isProcessing false t.

(** [handleMagicTool], in the same two parts. *)
Definition magicBegin (now : Z) (r t : Page) : option Pending * Page :=
  match find (isExportCandidate (activeLayerId (appState r))) (layers (appState r)) with
  | None =>
      (None, onApp (addToast now (lit "Select an image layer for magic tool")
                      Error) t)
  | Some activeLayer =>
      (Some (mkPending
               (CallEdit (url activeLayer)
                  (lit "Segment the main subject and make background transparent")
                  (modelTier r))
               TSegment (lit "Segment: " ++ name activeLayer)),
       set_isProcessing true t)
  end.

Definition magicEnd (now now' : Z) (p : Pending) (res : Outcome jsstring)
    (t : Page) : Page :=
  let t :=
    match res with
    | Fulfilled result =>
        let t := onApp (addLayer now result (layerType p) (layerName p)) t in
        onApp (addToast now' (lit "Magic segmentation complete") Success) t
    | RejectedWith m =>
        onApp (addToast now' (lit "Magic tool failed: " ++ templ m) Error) t
    end in
  set_isProcessing false t.

(** [handleFileUpload]: the file of the input, when one was chosen, by
    its name and its size in bytes. A file within the limit is read, and
    [uploadEnd] is the reader's [onload] with the data URI it read. *)
Record File : Type := mkFile {
  fileName : jsstring;
  fileSize : Z
}.

Definition uploadBegin (now : Z) (file : option File) (t : Page)
  : option File * Page :=
  match file with
  | Some f =>
      if 50 * 1024 * 1024 <? fileSize f then
        (None, onApp (addToast now (lit "File too large. Max 50MB.") Error) t)
      else (Some f, t)
  | None => (None, t)
  end.

Definition uploadEnd (now : Z) (f : File) (result : jsstring) (t : Page)
  : Page :=
  set_mode EDIT (onApp (addLayer now result TImage (fileName f)) t).

(** * Vocabulary of the further properties *)

(** The canvas after [restoreSnapshot], and after a mouse move of a
    session that started at [start]. *)
Definition restored (r : App) (cv : Canvas) : Canvas :=
  match snapshot r with
  | Some img => putImageData img cv
  | None => cv
  end.

Definition drawOn (e : MouseEvent) (r : App) (start : point) (cv : Canvas)
  : Canvas :=
  let currentX := (clientX e - rectLeft cv)%R in
  let currentY := (clientY e - rectTop cv)%R in
  match annotationTool r with
  | Brush | Eraser =>
      paint CallStroke (onCtx (lineTo (currentX, currentY)) cv)
  | Rect =>
      paint (CallStrokeRect (fst start) (snd start)
               (currentX - fst start) (currentY - snd start))
        (onCtx beginPath (restored r cv))
  | Arrow =>
      drawArrow r (fst start) (snd start) currentX currentY (restored r cv)
  | _ => cv
  end.

(** The mouse moves of a session, in order. *)
Definition moves (ms : list MouseEvent) (s : App) : App :=
  fold_left (fun t m => fire (draw m) t) ms s.

(** Everything the page can do with the closure of the current render. *)
Inductive PageEvent : Type :=
| EvApp (ev : Event)
| EvAddLayer (now : Z) (u : jsstring) (ty : LayerType) (n : jsstring)
| EvToggle (i : jsstring)
| EvSelect (i : jsstring)
| EvSlide (v : Z)
| EvResize (img : option (nat * nat))
| EvKey (e : KeyboardEvent).

Definition pageHandle (ev : PageEvent) (s : App) : App :=
  match ev with
  | EvApp ev => handle ev s
  | EvAddLayer now u ty n => snd (addLayer now u ty n s)
  | EvToggle i => fire (toggleVisibility i) s
  | EvSelect i => fire (selectLayer i) s
  | EvSlide v => fire (slideBrush v) s
  | EvResize img => fire (updateCanvasSize img) s
  | EvKey e => fire (handleKeyDown e) s
  end.

(** The active id is null or the id of a layer of the list. *)
Definition activeValid (s : App) : Prop :=
  activeLayerId s = None \/ activeLayer s <> None.

(** The keys that select a drawing tool. *)
Definition isToolKey (k : jsstring) : bool :=
  streq k (lit "b") || streq k (lit "e") || streq k (lit "t")
  || streq k (lit "r") || streq k (lit "a").

Definition inField (e : KeyboardEvent) : bool :=
  streq (targetTag e) (lit "INPUT") || streq (targetTag e) (lit "TEXTAREA").

(** A handler keeps a component of the store. *)
Definition keeps {A B : Type} (f : App -> B) (m : M A) : Prop :=
  forall t, f (snd (m t)) = f t.

(** The layer list with the active id. *)
Definition layerState (t : App) : list Layer * option jsstring :=
  (layers t, activeLayerId t).

Definition isOverlay (l : Layer) : bool := streq (id l) annotationsId.

Definition showOverlay (l : Layer) : Layer :=
  if streq (id l) annotationsId then show l else l.

(** What [ensureAnnotationLayer] of closure [r] makes of a layer list and
    an active id. *)
Definition ensured (r : App) (ls : list Layer) (a : option jsstring)
  : list Layer * option jsstring :=
  match find isOverlay (layers r) with
  | None => (annotationLayer0 :: ls, Some annotationsId)
  | Some existing =>
      if visible existing then (ls, a)
      else (map showOverlay ls, Some annotationsId)
  end.

(** A handler of closure [r] leaves the layer list and the active id, or
    changes them as one [ensureAnnotationLayer] of that closure does. *)
Definition viaEnsure {A : Type} (r : App) (m : M A) : Prop :=
  forall t, layerState (snd (m t)) = layerState t \/
            layerState (snd (m t))
              = ensured r (layers t) (activeLayerId t).

(** The layer list, the active id and the brush size: what the handlers
    of the history and of the canvas never write. *)
Definition panel (t : App) : list Layer * option jsstring * Z :=
  (layerState t, brushSize t).

(** What [handleDeleteLayer] of the current render makes of a layer list
    and an active id. *)
Definition deleted (i : jsstring) (ls : list Layer) (a : option jsstring)
  : list Layer * option jsstring :=
  let filtered := filter (fun l => negb (streq (id l) i)) ls in
  (filtered, if isActive i a then firstIdOrNull filtered else a).

Definition toggled (i : jsstring) (ls : list Layer) : list Layer :=
  map (fun l => if streq (id l) i then flipVisible l else l) ls.

(** The ways an event of the page changes the layer list and the active
    id. *)
Inductive layerStep (ev : PageEvent) (s : App)
  : list Layer * option jsstring -> Prop :=
| step_same : layerStep ev s (layerState s)
| step_ensured : layerStep ev s (ensured s (layers s) (activeLayerId s))
| step_deleted (i : jsstring) :
    layerStep ev s (deleted i (layers s) (activeLayerId s))
| step_added (now : Z) (u : jsstring) (ty : LayerType) (n : jsstring) :
    layerStep ev s
      (newLayerAt now u ty n :: layers s, Some (numberToString now))
| step_toggled (i : jsstring) :
    layerStep ev s (toggled i (layers s), activeLayerId s)
| step_selected (i : jsstring) :
    ev = EvSelect i -> layerStep ev s (layers s, Some i).

(** A layer with the overlay's id is the overlay as
    [ensureAnnotationLayer] makes it, shown or hidden. *)
Definition overlayShape (l : Layer) : Prop :=
  isOverlay l = true -> show l = annotationLayer0.

Definition overlayInv (ls : list Layer) : Prop :=
  (overlayCount ls <= 1)%nat /\ Forall overlayShape ls.

(** The active id is null or names a layer of the list. *)
Definition validIn (st : list Layer * option jsstring) : Prop :=
  snd st = None \/ find (fun l => isActive (id l) (snd st)) (fst st) <> None.

(** The keys the shortcut switch has a case for. *)
Definition boundKey (k : jsstring) : bool :=
  isToolKey k || streq k (lit "v") || streq k (lit "[") || streq k (lit "]").

Definition brushInRange (s : App) : Prop := 1 <= brushSize s <= 50.

(** The overlay after a change of size by [updateCanvasSize] of closure
    [r]. *)
Definition resized (r : App) (w h : nat) (cv : Canvas) : Canvas :=
  let blank := mkCanvas w h (rectLeft cv) (rectTop cv) Transparent ctx0 in
  if 0 <=? historyStep r then
    match index (history r) (historyStep r) with
    | Some snap => putImageData snap blank
    | None => blank
    end
  else blank.

(** A key pressed on the page, outside any field, without modifiers. *)
Definition plainKey (k : string) : KeyboardEvent :=
  mkKeyboardEvent (lit "BODY") false false false (lit k).

(** The brush selected on the first render. *)
Definition brushApp : App := set_annotationTool Brush app0.

(** The three types the header expression of [editImage] lists. *)
Definition listedType (mime : jsstring) : bool :=
  streq mime (lit "image/png") || streq mime (lit "image/jpeg")
  || streq mime (lit "image/webp").

(** A response whose first part with inline data carries [d]. *)
Definition firstInlineIs (d : InlineData) (response : Response) : Prop :=
  exists pre post tx,
    responseParts response = pre ++ mkPart (Some d) tx :: post /\
    Forall (fun part => inlineData part = None) pre.

(** Sample inputs: a mouse move; a rectangle session after its press at
    (50, 60), its preview snapshot taken; Ctrl+z, and Ctrl+Shift with the
    key reported as the capital Z; a host whose API call rejects without
    a message, and one whose response has a text part and then a JPEG;
    the first render with a prompt typed; a file of 200 KB. *)
Definition move0 : MouseEvent := mkMouseEvent 70%R 80%R.
Definition undoKey : KeyboardEvent :=
  mkKeyboardEvent (lit "BODY") true false false (lit "z").
Definition shiftedZ : KeyboardEvent :=
  mkKeyboardEvent (lit "BODY") true false true (lit "Z").
Definition deadHost : Host := mkHost None (fun _ => RejectedWith None).
Definition catResponse : Response :=
  mkResponse (Some [mkCandidate (Some (mkContent (Some
    [mkPart None (Some (lit "Here is your image."));
     mkPart (Some (mkInlineData (Some (lit "image/jpeg"))
                     (Some (lit "/9j/4AAQSkZJRg=="))))
       None])))]).
Definition catHost : Host := mkHost None (fun _ => Fulfilled catResponse).
Definition catPage : Page :=
  set_prompt (lit "a cat") (initialPage (Some canvas0)).
Definition catPending : Pending :=
  mkPending (CallGenerate (lit "a cat") NANO_BANANA) TGeneration
    (lit "Gen: a cat...").
Definition nightPage : Page :=
  set_prompt (lit "at night")
    (set_mode EDIT
       (actionEnd 1700000001000 1700000001001 catPending
          (Fulfilled (dataURI (lit "image/jpeg") (lit "/9j/4AAQSkZJRg==")))
          catPage)).
Definition photoFile : File := mkFile (lit "photo.png") 204800.

(** * Properties *)

(** ** Arrays and strings *)

Lemma streq_refl (a : jsstring) : streq a a = true.
Proof.
  induction a as [|x a IH]; simpl; [reflexivity|].
  now rewrite N.eqb_refl, IH.
Qed.

Lemma streq_eq (a b : jsstring) : streq a b = true <-> a = b.
Proof.
  split; [|intros ->; apply streq_refl].
  revert b; induction a as [|x a IH]; intros [|y b]; simpl; try discriminate;
    [reflexivity|].
  intros H; apply andb_true_iff in H as [Hx Hab].
  apply N.eqb_eq in Hx; apply IH in Hab; congruence.
Qed.

Lemma len_app {A : Type} (a b : list A) : len (a ++ b) = len a + len b.
Proof. unfold len. rewrite length_app. lia. Qed.

Lemma slice0_firstn {A : Type} (a : list A) (e : Z) :
  0 <= e -> slice0 a e = firstn (Z.to_nat e) a.
Proof.
  intros He. unfold slice0.
  destruct (e <? 0) eqn:E; [apply Z.ltb_lt in E; lia|].
  destruct (Z.le_ge_cases e (Z.of_nat (length a))) as [H|H].
  - now rewrite Z.min_l by lia.
  - rewrite Z.min_r by lia. rewrite Nat2Z.id.
    rewrite !firstn_all2; [reflexivity|lia|lia].
Qed.

Lemma index_Some {A : Type} (a : list A) (i : Z) :
  0 <= i < len a -> exists x, index a i = Some x.
Proof.
  unfold index, len. intros [H0 H1].
  destruct (i <? 0) eqn:E; [apply Z.ltb_lt in E; lia|].
  destruct (nth_error a (Z.to_nat i)) eqn:N; [eauto|].
  apply nth_error_None in N. lia.
Qed.

Lemma index_last {A : Type} (a : list A) (x : A) :
  index (a ++ [x]) (len (a ++ [x]) - 1) = Some x.
Proof.
  unfold index. rewrite len_app. unfold len.
  change (Z.of_nat (length [x])) with 1.
  replace (Z.of_nat (length a) + 1 - 1) with (Z.of_nat (length a)) by lia.
  destruct (_ <? 0) eqn:E; [apply Z.ltb_lt in E; lia|].
  rewrite Nat2Z.id, nth_error_app2, Nat.sub_diag by lia. reflexivity.
Qed.

Lemma index_tl {A : Type} (a : list A) (i : Z) :
  0 <= i -> index (tl a) i = index a (i + 1).
Proof.
  intros Hi. unfold index.
  destruct (i <? 0) eqn:E; [apply Z.ltb_lt in E; lia|].
  destruct (i + 1 <? 0) eqn:E'; [apply Z.ltb_lt in E'; lia|].
  replace (Z.to_nat (i + 1)) with (S (Z.to_nat i)) by lia.
  destruct a; simpl; [now destruct (Z.to_nat i)|reflexivity].
Qed.

Lemma len_tl {A : Type} (a : list A) : a <> [] -> len (tl a) = len a - 1.
Proof.
  destruct a; [congruence|]. intros _. unfold len. cbn [tl length]. lia.
Qed.

(** ** The history stack *)

Lemma saveHistory_run (r t : App) :
  snd (saveHistory r t) =
  match canvas t with
  | Some cv =>
      match getImageData cv with
      | Some data =>
          let c := committed (history r) (historyStep r) data in
          set_historyStep (len c - 1) (set_history c t)
      | None => t
      end
  | None => t
  end.
Proof.
  unfold saveHistory, bind, gets, orThrow, ret, modify, throw.
  destruct (canvas t) as [cv|]; [|reflexivity].
  destruct (getImageData cv); reflexivity.
Qed.

Lemma saveHistory_fire (s : App) (cv : Canvas) (data : ImageData) :
  canvas s = Some cv ->
  getImageData cv = Some data ->
  fire saveHistory s =
  set_historyStep (len (committed (history s) (historyStep s) data) - 1)
    (set_history (committed (history s) (historyStep s) data) s).
Proof.
  intros Hc Hd. unfold fire. rewrite saveHistory_run, Hc, Hd. reflexivity.
Qed.

Lemma pushed_kept (h : list ImageData) (k : Z) (data : ImageData) :
  -1 <= k -> pushed h k data = firstn (Z.to_nat (k + 1)) h ++ [data].
Proof. intros H. unfold pushed, push. now rewrite slice0_firstn by lia. Qed.

Lemma pushed_nonempty (h : list ImageData) (k : Z) (data : ImageData) :
  pushed h k data <> [].
Proof. unfold pushed, push. now destruct (slice0 h (k + 1)). Qed.

Lemma committed_last (h : list ImageData) (k : Z) (data : ImageData) :
  index (committed h k data) (len (committed h k data) - 1) = Some data.
Proof.
  unfold committed. destruct (20 <? len (pushed h k data)) eqn:E.
  - apply Z.ltb_lt in E. unfold shift.
    rewrite len_tl by apply pushed_nonempty.
    rewrite index_tl by lia.
    replace (len (pushed h k data) - 1 - 1 + 1)
      with (len (pushed h k data) - 1) by lia.
    apply index_last.
  - apply index_last.
Qed.

Lemma len_pushed (h : list ImageData) (k : Z) (data : ImageData) :
  1 <= len (pushed h k data) <= len h + 1.
Proof.
  unfold pushed, push, slice0. rewrite len_app. unfold len.
  rewrite length_firstn. cbn [length]. lia.
Qed.

Lemma len_committed (h : list ImageData) (k : Z) (data : ImageData) :
  len h <= 20 ->
  1 <= len (committed h k data) <= 20.
Proof.
  intros Hh. pose proof (len_pushed h k data) as Hp. unfold committed.
  destruct (20 <? len (pushed h k data)) eqn:E.
  - apply Z.ltb_lt in E. unfold shift.
    rewrite len_tl by apply pushed_nonempty. lia.
  - apply Z.ltb_ge in E. lia.
Qed.

(** C1. Committing a snapshot with [saveHistory], on a mounted overlay
    whose pixels can be read and from a stack of at most 20 entries with
    its cursor at -1 or above: the entries after the cursor are dropped
    and the snapshot is appended; when that makes 21 entries exactly the
    oldest one is evicted; the stack ends with at most 20 entries, the
    cursor is its last index and the entry there is the new snapshot. The
    overlay itself is not touched. *)
Theorem saveHistory_commit (s : App) (cv : Canvas) (data : ImageData) :
  canvas s = Some cv ->
  getImageData cv = Some data ->
  -1 <= historyStep s ->
  (length (history s) <= 20)%nat ->
  let kept := firstn (Z.to_nat (historyStep s + 1)) (history s) in
  let s' := fire saveHistory s in
  ((length kept < 20)%nat -> history s' = kept ++ [data]) /\
  (length kept = 20%nat -> history s' = tl kept ++ [data]) /\
  (length (history s') <= 20)%nat /\
  historyStep s' = len (history s') - 1 /\
  index (history s') (historyStep s') = Some data /\
  canvas s' = canvas s.
Proof.
  intros Hc Hd Hstep Hlen kept s'.
  set (c := committed (history s) (historyStep s) data).
  assert (Hs' : s' = set_historyStep (len c - 1) (set_history c s))
    by (now apply saveHistory_fire with (cv := cv)).
  assert (Hp : pushed (history s) (historyStep s) data = kept ++ [data])
    by (now apply pushed_kept).
  assert (Hl : len (pushed (history s) (historyStep s) data)
               = Z.of_nat (length kept) + 1).
  { rewrite Hp, len_app. reflexivity. }
  assert (Hlt : (length kept < 20)%nat -> c = kept ++ [data]).
  { intros Hcase. unfold c, committed.
    destruct (20 <? _) eqn:E; [apply Z.ltb_lt in E; lia|exact Hp]. }
  assert (Heq : length kept = 20%nat -> c = tl kept ++ [data]).
  { intros Hcase. unfold c, committed.
    destruct (20 <? _) eqn:E; [|apply Z.ltb_ge in E; lia].
    unfold shift. rewrite Hp. destruct kept; [discriminate|reflexivity]. }
  assert (Hc20 : 1 <= len c <= 20) by (apply len_committed; unfold len; lia).
  rewrite Hs'. cbn [history historyStep canvas set_historyStep set_history].
  repeat split; auto.
  - unfold len in Hc20. lia.
  - apply committed_last.
Qed.

(** A snapshot of the canvas's size, written on the cleared canvas, is
    what the canvas then shows. *)
Lemma repaint_same_size (img : ImageData) (cv : Canvas) :
  iwidth img = cwidth cv -> iheight img = cheight cv ->
  putImageData img (clearRect cv) = with_bitmap (idata img) cv.
Proof.
  intros Hw Hh. unfold putImageData. cbn [clearRect with_bitmap cwidth cheight].
  now rewrite Hw, Hh, !Nat.eqb_refl.
Qed.

Lemma handleUndo_fire (s : App) (cv : Canvas) :
  canvas s = Some cv ->
  0 <= historyStep s < len (history s) ->
  fire handleUndo s = showing s cv (historyStep s - 1).
Proof.
  intros Hc [H0 H1]. unfold fire, handleUndo, showing, bind, gets.
  rewrite Hc.
  destruct (0 <? historyStep s) eqn:E.
  - apply Z.ltb_lt in E.
    destruct (index_Some (history s) (historyStep s - 1)) as [img Hi]; [lia|].
    rewrite Hi. unfold modify, onCanvas, ret. cbn. rewrite Hc. reflexivity.
  - apply Z.ltb_ge in E. assert (Hz : historyStep s = 0) by lia.
    rewrite Hz. cbn. rewrite Hc. reflexivity.
Qed.

Lemma handleUndo_bottom (s : App) :
  historyStep s < 0 -> fire handleUndo s = s.
Proof.
  intros H. unfold fire, handleUndo, bind, gets, ret.
  destruct (canvas s); [|reflexivity].
  destruct (0 <? historyStep s) eqn:E; [apply Z.ltb_lt in E; lia|].
  destruct (historyStep s =? 0) eqn:E'; [apply Z.eqb_eq in E'; lia|].
  reflexivity.
Qed.

Lemma handleRedo_fire (s : App) (cv : Canvas) :
  canvas s = Some cv ->
  -1 <= historyStep s < len (history s) - 1 ->
  fire handleRedo s = showing s cv (historyStep s + 1).
Proof.
  intros Hc [H0 H1]. unfold fire, handleRedo, showing, bind, gets.
  destruct (historyStep s <? len (history s) - 1) eqn:E;
    [|apply Z.ltb_ge in E; lia].
  destruct (index_Some (history s) (historyStep s + 1)) as [img Hi]; [lia|].
  unfold modify. cbn. rewrite Hc, Hi.
  unfold onCanvas, modify. cbn. rewrite Hc. reflexivity.
Qed.

Lemma handleRedo_top (s : App) :
  len (history s) - 1 <= historyStep s -> fire handleRedo s = s.
Proof.
  intros H. unfold fire, handleRedo.
  destruct (historyStep s <? len (history s) - 1) eqn:E;
    [apply Z.ltb_lt in E; lia|reflexivity].
Qed.

Lemma handleUndo_unmounted (s : App) :
  canvas s = None -> fire handleUndo s = s.
Proof.
  intros Hc. unfold fire, handleUndo, bind, gets. now rewrite Hc.
Qed.

Lemma handleRedo_unmounted (s : App) :
  canvas s = None -> historyStep s < len (history s) - 1 ->
  fire handleRedo s = set_historyStep (historyStep s + 1) s.
Proof.
  intros Hc Hlt. unfold fire, handleRedo, bind, gets, modify.
  apply Z.ltb_lt in Hlt. rewrite Hlt. cbn. now rewrite Hc.
Qed.

(** C2. With the cursor within the stack. On a mounted overlay: undo
    above 0 moves the cursor down and the overlay becomes the snapshot
    there written on the cleared canvas; undo at 0 moves the cursor to -1
    and clears the overlay; undo at -1 changes nothing. Redo below the last
    index moves the cursor up and the overlay becomes the snapshot there
    written on the cleared canvas; redo at the last index changes nothing.
    The canvas is cleared before the snapshot is written: the result does
    not depend on the pixels shown before, and a snapshot of the canvas's
    size becomes its contents. With no overlay mounted there is nothing to
    repaint: undo changes nothing, whatever the cursor, and redo below the
    last index only moves the cursor up. *)
Theorem undo_redo_cases (s : App) :
  -1 <= historyStep s <= len (history s) - 1 ->
  (forall cv, canvas s = Some cv ->
     (0 < historyStep s ->
        exists img, index (history s) (historyStep s - 1) = Some img /\
          fire handleUndo s =
          set_canvas (Some (putImageData img (clearRect cv)))
            (set_historyStep (historyStep s - 1) s)) /\
     (historyStep s = 0 ->
        fire handleUndo s =
        set_canvas (Some (clearRect cv)) (set_historyStep (-1) s)) /\
     (historyStep s = -1 -> fire handleUndo s = s) /\
     (historyStep s < len (history s) - 1 ->
        exists img, index (history s) (historyStep s + 1) = Some img /\
          fire handleRedo s =
          set_canvas (Some (putImageData img (clearRect cv)))
            (set_historyStep (historyStep s + 1) s)) /\
     (historyStep s = len (history s) - 1 -> fire handleRedo s = s) /\
     (forall img b,
        bitmap (putImageData img (clearRect (with_bitmap b cv))) =
        bitmap (putImageData img (clearRect cv))) /\
     (forall img, iwidth img = cwidth cv -> iheight img = cheight cv ->
        bitmap (putImageData img (clearRect cv)) = idata img) /\
     bitmap (clearRect cv) = Transparent) /\
  (canvas s = None ->
     fire handleUndo s = s /\
     (historyStep s < len (history s) - 1 ->
        fire handleRedo s = set_historyStep (historyStep s + 1) s) /\
     (historyStep s = len (history s) - 1 -> fire handleRedo s = s)).
Proof.
  intros [Hlo Hhi]. split.
  - intros cv Hc. repeat split.
    + intros Hpos.
      destruct (index_Some (history s) (historyStep s - 1)) as [img Hi];
        [lia|].
      exists img. split; [exact Hi|].
      rewrite (handleUndo_fire s cv) by (auto; lia).
      unfold showing. now rewrite Hi.
    + intros Hz. rewrite (handleUndo_fire s cv) by (auto; lia).
      unfold showing. now rewrite Hz.
    + intros Hm. apply handleUndo_bottom. lia.
    + intros Hlt.
      destruct (index_Some (history s) (historyStep s + 1)) as [img Hi];
        [lia|].
      exists img. split; [exact Hi|].
      rewrite (handleRedo_fire s cv) by (auto; lia).
      unfold showing. now rewrite Hi.
    + intros Heq. apply handleRedo_top. lia.
    + intros img Hw Hh. now rewrite repaint_same_size.
  - intros Hc. split; [now apply handleUndo_unmounted|]. split.
    + intros Hlt. now apply handleRedo_unmounted.
    + intros Heq. apply handleRedo_top. lia.
Qed.

(** ** Undo and redo along the stack *)

Lemma clearRect_putImageData (img : ImageData) (c : Canvas) :
  clearRect (putImageData img c) = clearRect c.
Proof. unfold putImageData. now destruct (_ && _)%bool. Qed.

Lemma showing_canvas (s : App) (cv : Canvas) (k : Z) :
  exists c, canvas (showing s cv k) = Some c /\ clearRect c = clearRect cv.
Proof.
  unfold showing. cbn. destruct (index (history s) k); eexists; split;
    try reflexivity.
  now rewrite clearRect_putImageData.
Qed.

Lemma showing_again (s : App) (cv c : Canvas) (k j : Z) :
  clearRect c = clearRect cv ->
  showing (showing s cv k) c j = showing s cv j.
Proof. intros H. unfold showing. cbn. now rewrite H. Qed.

Lemma undo_showing (s : App) (cv : Canvas) (k : Z) :
  -1 <= k < len (history s) ->
  fire handleUndo (showing s cv k) = showing s cv (Z.max (-1) (k - 1)).
Proof.
  intros Hk. destruct (Z.eq_dec k (-1)) as [->|Hne].
  - now rewrite handleUndo_bottom.
  - destruct (showing_canvas s cv k) as [c [Hc Hclr]].
    rewrite (handleUndo_fire _ c Hc) by (cbn; lia).
    rewrite Z.max_r by lia. now apply showing_again.
Qed.

Lemma redo_showing (s : App) (cv : Canvas) (k : Z) :
  -1 <= k < len (history s) ->
  fire handleRedo (showing s cv k) =
  showing s cv (Z.min (len (history s) - 1) (k + 1)).
Proof.
  intros Hk. destruct (Z.eq_dec k (len (history s) - 1)) as [->|Hne].
  - rewrite handleRedo_top by (cbn; lia). now rewrite Z.min_l by lia.
  - destruct (showing_canvas s cv k) as [c [Hc Hclr]].
    rewrite (handleRedo_fire _ c Hc) by (cbn; lia).
    rewrite Z.min_r by lia. now apply showing_again.
Qed.

Lemma undo_showing_iter (s : App) (cv : Canvas) (n : nat) (k : Z) :
  -1 <= k < len (history s) ->
  Nat.iter n (fire handleUndo) (showing s cv k) =
  showing s cv (Z.max (-1) (k - Z.of_nat n)).
Proof.
  intros Hk. induction n as [|n IH].
  - unfold Nat.iter; cbn [nat_rect]. f_equal. lia.
  - rewrite Nat.iter_succ, IH, undo_showing by lia. f_equal. lia.
Qed.

Lemma redo_showing_iter (s : App) (cv : Canvas) (n : nat) (k : Z) :
  -1 <= k < len (history s) ->
  Nat.iter n (fire handleRedo) (showing s cv k) =
  showing s cv (Z.min (len (history s) - 1) (k + Z.of_nat n)).
Proof.
  intros Hk. induction n as [|n IH].
  - unfold Nat.iter; cbn [nat_rect]. f_equal. lia.
  - rewrite Nat.iter_succ, IH, redo_showing by lia. f_equal. lia.
Qed.

(** A state whose overlay is the snapshot under its cursor shows it. *)
Lemma showing_self (s : App) (cv : Canvas) :
  canvas s = Some cv ->
  index (history s) (historyStep s) = getImageData cv ->
  getImageData cv <> None ->
  showing s cv (historyStep s) = s.
Proof.
  intros Hc Hi Hd. unfold showing. rewrite Hi.
  unfold getImageData in *.
  destruct (_ || _)%bool; [congruence|].
  unfold putImageData. cbn. rewrite !Nat.eqb_refl. cbn.
  destruct s, cv. cbn in *. now rewrite Hc.
Qed.

(** From a state that shows the top of its stack, at least as many undos
    as there are entries and then as many redos lead back to it. *)
Lemma undo_redo_back (s : App) (cv : Canvas) (n : nat) :
  canvas s = Some cv ->
  historyStep s = len (history s) - 1 ->
  index (history s) (historyStep s) = getImageData cv ->
  getImageData cv <> None ->
  len (history s) <= Z.of_nat n ->
  Nat.iter n (fire handleRedo) (Nat.iter n (fire handleUndo) s) = s.
Proof.
  intros Hc Hk Hi Hd Hn.
  assert (Hpos : 0 <= len (history s)) by (unfold len; lia).
  rewrite <- (showing_self s cv Hc Hi Hd) at 1.
  rewrite undo_showing_iter by lia.
  rewrite Z.max_l by lia.
  rewrite redo_showing_iter by lia.
  rewrite Z.min_l by lia.
  rewrite <- Hk. now apply showing_self.
Qed.

Lemma commits_snoc (bs : list Bitmap) (b : Bitmap) (s : App) :
  commits (bs ++ [b]) s = fire saveHistory (redraw b (commits bs s)).
Proof. unfold commits. now rewrite fold_left_app. Qed.

Lemma commit_step (s : App) (cv : Canvas) (b : Bitmap) :
  canvas s = Some cv -> cwidth cv <> 0%nat -> cheight cv <> 0%nat ->
  let data := mkImageData (cwidth cv) (cheight cv) b in
  let c := committed (history s) (historyStep s) data in
  fire saveHistory (redraw b s) =
  set_historyStep (len c - 1)
    (set_history c (set_canvas (Some (with_bitmap b cv)) s)).
Proof.
  intros Hc Hw Hh data c. unfold redraw. rewrite Hc.
  rewrite (saveHistory_fire _ (with_bitmap b cv) data); [reflexivity..|].
  unfold getImageData. cbn.
  apply Nat.eqb_neq in Hw, Hh. now rewrite Hw, Hh.
Qed.

Lemma commits_canvas (bs : list Bitmap) (s : App) (cv : Canvas) :
  canvas s = Some cv -> cwidth cv <> 0%nat -> cheight cv <> 0%nat ->
  exists b, canvas (commits bs s) = Some (with_bitmap b cv).
Proof.
  revert s cv. induction bs as [|b bs IH]; intros s cv Hc Hw Hh.
  - exists (bitmap cv). cbn. rewrite Hc. now destruct cv.
  - cbn [commits fold_left]. fold (commits bs (fire saveHistory (redraw b s))).
    rewrite (commit_step s cv b Hc Hw Hh).
    match goal with |- context [commits bs ?t] =>
      destruct (IH t (with_bitmap b cv) eq_refl Hw Hh) as [b' Hb']
    end.
    exists b'. rewrite Hb'. reflexivity.
Qed.

Lemma commits_history (bs : list Bitmap) (s : App) (cv : Canvas) :
  canvas s = Some cv -> cwidth cv <> 0%nat -> cheight cv <> 0%nat ->
  historyStep s = len (history s) - 1 ->
  len (history s) + len bs <= 20 ->
  history (commits bs s) =
    history s ++ map (mkImageData (cwidth cv) (cheight cv)) bs /\
  historyStep (commits bs s) = len (history (commits bs s)) - 1.
Proof.
  revert s cv. induction bs as [|b bs IH]; intros s cv Hc Hw Hh Hk Hlen.
  - cbn. now rewrite app_nil_r.
  - cbn [commits fold_left]. fold (commits bs (fire saveHistory (redraw b s))).
    rewrite (commit_step s cv b Hc Hw Hh).
    set (data := mkImageData (cwidth cv) (cheight cv) b).
    assert (Hcm : committed (history s) (historyStep s) data
                  = history s ++ [data]).
    { unfold committed. rewrite pushed_kept by (unfold len in *; lia).
      rewrite Hk. unfold len.
      replace (Z.to_nat (Z.of_nat (length (history s)) - 1 + 1))
        with (length (history s)) by lia.
      rewrite firstn_all.
      destruct (20 <? _) eqn:E; [|reflexivity].
      apply Z.ltb_lt in E. rewrite length_app in E. unfold len in Hlen.
      cbn [length] in *. lia. }
    rewrite Hcm.
    edestruct (IH (set_historyStep (len (history s ++ [data]) - 1)
                    (set_history (history s ++ [data])
                      (set_canvas (Some (with_bitmap b cv)) s)))
                  (with_bitmap b cv)) as [H1 H2];
      [reflexivity|assumption|assumption|reflexivity| |].
    + cbn [history set_historyStep set_history]. rewrite len_app.
      unfold len in *. cbn [length] in *. lia.
    + cbn [history set_historyStep set_history cwidth cheight with_bitmap] in H1.
      split; [|exact H2].
      rewrite H1, <- app_assoc. reflexivity.
Qed.

(** After a commit the overlay is the snapshot under the cursor. *)
Lemma commit_shows_top (s : App) (cv : Canvas) (b : Bitmap) :
  canvas s = Some cv -> cwidth cv <> 0%nat -> cheight cv <> 0%nat ->
  let s1 := fire saveHistory (redraw b s) in
  canvas s1 = Some (with_bitmap b cv) /\
  historyStep s1 = len (history s1) - 1 /\
  index (history s1) (historyStep s1) = getImageData (with_bitmap b cv) /\
  getImageData (with_bitmap b cv) <> None.
Proof.
  intros Hc Hw Hh s1. unfold s1. rewrite (commit_step s cv b Hc Hw Hh).
  cbn [canvas history historyStep set_historyStep set_history set_canvas].
  assert (Hd : getImageData (with_bitmap b cv)
               = Some (mkImageData (cwidth cv) (cheight cv) b)).
  { unfold getImageData. cbn.
    apply Nat.eqb_neq in Hw, Hh. now rewrite Hw, Hh. }
  rewrite Hd. repeat split; [apply committed_last|discriminate].
Qed.

Lemma commits_show_top (bs : list Bitmap) (s : App) (cv : Canvas) :
  bs <> [] ->
  canvas s = Some cv -> cwidth cv <> 0%nat -> cheight cv <> 0%nat ->
  exists cv1, canvas (commits bs s) = Some cv1 /\
    index (history (commits bs s)) (historyStep (commits bs s))
      = getImageData cv1 /\
    getImageData cv1 <> None.
Proof.
  intros Hne Hc Hw Hh. destruct bs as [|b bs _] using rev_ind; [congruence|].
  rewrite commits_snoc.
  destruct (commits_canvas bs s cv Hc Hw Hh) as [b' Hb'].
  destruct (commit_shows_top (commits bs s) (with_bitmap b' cv) b Hb' Hw Hh)
    as (H1 & _ & H3 & H4).
  eauto.
Qed.

Lemma commits_undo_redo (bs : list Bitmap) (s : App) (cv : Canvas) :
  canvas s = Some cv -> cwidth cv <> 0%nat -> cheight cv <> 0%nat ->
  historyStep (commits bs s) = len (history (commits bs s)) - 1 ->
  len (history (commits bs s)) <= len bs ->
  Nat.iter (length bs) (fire handleRedo)
    (Nat.iter (length bs) (fire handleUndo) (commits bs s)) = commits bs s.
Proof.
  intros Hc Hw Hh Hk Hlen.
  destruct (Nat.eq_dec (length bs) 0) as [E|E].
  - apply length_zero_iff_nil in E. subst bs. reflexivity.
  - destruct (commits_show_top bs s cv) as (cv1 & Hc1 & Hi1 & Hd1);
      try assumption.
    { intros ->. now apply E. }
    now apply undo_redo_back with (cv := cv1).
Qed.

(** C3. From the empty history (cursor -1) and on a mounted overlay whose
    pixels can be read, after N commits with N at most 20 (each of the
    overlay as drawn before it) all N snapshots are on the stack, and N
    undos followed by N redos give back the very state the N-th commit
    left: the same overlay bitmap, and the cursor at the last index. *)
Theorem undo_redo_roundtrip (s0 : App) (cv : Canvas) (bs : list Bitmap) :
  canvas s0 = Some cv ->
  cwidth cv <> 0%nat -> cheight cv <> 0%nat ->
  history s0 = [] -> historyStep s0 = -1 ->
  (length bs <= 20)%nat ->
  let n := length bs in
  let s1 := commits bs s0 in
  let s3 := Nat.iter n (fire handleRedo) (Nat.iter n (fire handleUndo) s1) in
  history s1 = map (mkImageData (cwidth cv) (cheight cv)) bs /\
  s3 = s1 /\
  option_map bitmap (canvas s3) = option_map bitmap (canvas s1) /\
  historyStep s3 = len (history s3) - 1.
Proof.
  intros Hc Hw Hh Hhist Hstep Hn n s1 s3.
  destruct (commits_history bs s0 cv Hc Hw Hh) as [Hh1 Hk1].
  { rewrite Hhist, Hstep. reflexivity. }
  { rewrite Hhist. unfold len. cbn [length]. lia. }
  rewrite Hhist in Hh1. cbn [app] in Hh1. fold s1 in Hh1, Hk1.
  assert (Hback : s3 = s1).
  { apply commits_undo_redo with (cv := cv); try assumption.
    fold s1. rewrite Hh1. unfold len. rewrite length_map. lia. }
  rewrite Hback. repeat split; assumption.
Qed.

(** ** The invariant of the history *)

Lemma preserves_ret {A : Type} (P : App -> Prop) (a : A) :
  preserves P (ret a).
Proof. intros t H. exact H. Qed.

Lemma preserves_throw {A : Type} (P : App -> Prop) :
  preserves P (@throw A).
Proof. intros t H. exact H. Qed.

Lemma preserves_gets {A : Type} (P : App -> Prop) (f : App -> A) :
  preserves P (gets f).
Proof. intros t H. exact H. Qed.

Lemma preserves_orThrow {A : Type} (P : App -> Prop) (o : option A) :
  preserves P (orThrow o).
Proof. destruct o; [apply preserves_ret|apply preserves_throw]. Qed.

Lemma preserves_bind {A B : Type} (P : App -> Prop) (m : M A) (k : A -> M B) :
  preserves P m -> (forall a, preserves P (k a)) -> preserves P (bind m k).
Proof.
  intros Hm Hk t H. unfold bind. specialize (Hm t H).
  destruct (m t) as [[a|] t']; cbn in *; [now apply Hk|exact Hm].
Qed.

Lemma preserves_modify (P : App -> Prop) (f : App -> App) :
  (forall t, P t -> P (f t)) -> preserves P (modify f).
Proof. intros Hf t H. now apply Hf. Qed.

Lemma frame_hist_inv (f : App -> App) :
  frame f -> forall t, hist_inv t -> hist_inv (f t).
Proof.
  intros Hf t H. destruct (Hf t) as [Hh Hk]. unfold hist_inv.
  now rewrite Hh, Hk.
Qed.

Lemma frame_onCanvas (f : Canvas -> Canvas) :
  frame (fun s => match canvas s with
                  | Some c => set_canvas (Some (f c)) s
                  | None => s
                  end).
Proof. intros t. now destruct (canvas t). Qed.

Lemma preserves_onCanvas (f : Canvas -> Canvas) :
  preserves hist_inv (onCanvas f).
Proof.
  apply preserves_modify, frame_hist_inv, frame_onCanvas.
Qed.

Lemma preserves_frame (f : App -> App) :
  frame f -> preserves hist_inv (modify f).
Proof. intros H. now apply preserves_modify, frame_hist_inv. Qed.

Lemma preserves_saveHistory (r : App) :
  hist_inv r -> preserves hist_inv (saveHistory r).
Proof.
  intros [_ Hr] t Ht. rewrite saveHistory_run.
  destruct (canvas t) as [cv|]; [|exact Ht].
  destruct (getImageData cv) as [data|]; [|exact Ht].
  pose proof (len_committed (history r) (historyStep r) data Hr) as Hc.
  unfold hist_inv. cbn. lia.
Qed.

Create HintDb hist.
#[local] Hint Resolve preserves_ret preserves_throw preserves_gets
  preserves_orThrow preserves_onCanvas preserves_saveHistory : hist.
#[local] Hint Extern 1 (preserves hist_inv (modify _)) =>
  apply preserves_frame; intros ?; split; reflexivity : hist.
#[local] Hint Extern 1 (frame _) => intros ?; split; reflexivity : hist.

(** Walk through a handler: close what is known, split sequences, branch
    on tests. *)
Ltac walk :=
  repeat first
    [ solve [auto 2 with hist]
    | apply preserves_bind; [|intros ?]
    | match goal with
      | |- preserves _ (if ?b then _ else _) => destruct b
      | |- preserves _ (match ?x with _ => _ end) => destruct x
      end ].

Lemma preserves_addToast (now : Z) (msg : jsstring) (ty : ToastType) :
  preserves hist_inv (addToast now msg ty).
Proof. unfold addToast. walk. Qed.

Lemma preserves_ensureAnnotationLayer (r : App) :
  preserves hist_inv (ensureAnnotationLayer r).
Proof. unfold ensureAnnotationLayer. walk. Qed.

#[local] Hint Resolve preserves_addToast preserves_ensureAnnotationLayer
  : hist.

Lemma preserves_handleToolSelect (tool : Tool) (r : App) :
  preserves hist_inv (handleToolSelect tool r).
Proof. unfold handleToolSelect. walk. Qed.

Lemma preserves_commitText (r : App) :
  hist_inv r -> preserves hist_inv (commitText r).
Proof. intros Hr. unfold commitText. walk. Qed.

#[local] Hint Resolve preserves_commitText : hist.

Lemma preserves_startDrawing (e : MouseEvent) (r : App) :
  hist_inv r -> preserves hist_inv (startDrawing e r).
Proof. intros Hr. unfold startDrawing. walk. Qed.

Lemma preserves_stopDrawing (r : App) :
  hist_inv r -> preserves hist_inv (stopDrawing r).
Proof. intros Hr. unfold stopDrawing. walk. Qed.

Lemma preserves_draw (e : MouseEvent) (r : App) :
  preserves hist_inv (draw e r).
Proof. unfold draw, restoreSnapshot. walk. Qed.

Lemma preserves_handleExport (now : Z) (r : App) :
  preserves hist_inv (handleExport now r).
Proof. unfold handleExport. walk. Qed.

Lemma hist_inv_handleUndo (s : App) : hist_inv s -> hist_inv (fire handleUndo s).
Proof.
  intros [[Hlo Hhi] Hlen]. unfold fire, handleUndo, bind, gets.
  destruct (canvas s) as [cv|] eqn:Hc; [|now repeat split].
  destruct (0 <? historyStep s) eqn:E.
  - apply Z.ltb_lt in E. cbn.
    destruct (index (history s) (historyStep s - 1)); cbn; rewrite ?Hc; cbn;
      unfold hist_inv; cbn; lia.
  - destruct (historyStep s =? 0) eqn:E'; cbn; rewrite ?Hc; cbn;
      unfold hist_inv; cbn; lia.
Qed.

Lemma hist_inv_handleRedo (s : App) : hist_inv s -> hist_inv (fire handleRedo s).
Proof.
  intros [[Hlo Hhi] Hlen]. unfold fire, handleRedo, bind, gets.
  destruct (historyStep s <? len (history s) - 1) eqn:E; [|now repeat split].
  apply Z.ltb_lt in E. cbn.
  destruct (canvas s) as [cv|] eqn:Hc;
    [destruct (index (history s) (historyStep s + 1))|];
    cbn; rewrite ?Hc; cbn; unfold hist_inv; cbn; lia.
Qed.

Lemma handleDeleteLayer_fire (i : jsstring) (s : App) :
  let filtered := filter (fun l => negb (streq (id l) i)) (layers s) in
  let s1 := set_layers filtered
              (if isActive i (activeLayerId s)
               then set_activeLayerId (firstIdOrNull filtered) s else s) in
  fire (handleDeleteLayer i) s =
  if streq i annotationsId
  then set_canvas (option_map clearRect (canvas s))
         (set_historyStep (-1) (set_history [] s1))
  else s1.
Proof.
  unfold fire, handleDeleteLayer, bind, modify, onCanvas, ret.
  destruct (streq i annotationsId); [|reflexivity].
  destruct (isActive i (activeLayerId s));
    destruct s as [? ? ? ? ? ? ? ? ? ? ? ? c ?]; cbn; destruct c; reflexivity.
Qed.

Lemma hist_inv_handleDeleteLayer (i : jsstring) (s : App) :
  hist_inv s -> hist_inv (fire (handleDeleteLayer i) s).
Proof.
  intros H. rewrite handleDeleteLayer_fire.
  destruct (streq i annotationsId).
  - unfold hist_inv, len. cbn. lia.
  - now destruct (isActive i (activeLayerId s)).
Qed.

Lemma hist_inv_handle (ev : Event) (s : App) :
  hist_inv s -> hist_inv (handle ev s).
Proof.
  intros H. destruct ev; cbn [handle].
  - now apply preserves_handleToolSelect.
  - now apply preserves_startDrawing.
  - now apply preserves_draw.
  - now apply preserves_stopDrawing.
  - exact H.
  - now apply preserves_commitText.
  - now apply hist_inv_handleUndo.
  - now apply hist_inv_handleRedo.
  - now apply hist_inv_handleDeleteLayer.
  - now apply preserves_handleExport.
Qed.

(** C10. In every state of a session, which starts with the empty history
    and the cursor at -1, the cursor lies between -1 and the last index of
    the history and the history has at most 20 entries; a cursor that is
    not negative indexes an entry. Each history-touching operation on its
    own (a commit, an undo, a redo, the deletion of a layer) keeps the
    invariant. *)
Theorem history_invariant (s : App) :
  reachable s ->
  hist_inv s /\
  (0 <= historyStep s ->
     exists img, index (history s) (historyStep s) = Some img) /\
  hist_inv (fire saveHistory s) /\
  hist_inv (fire handleUndo s) /\
  hist_inv (fire handleRedo s) /\
  (forall i, hist_inv (fire (handleDeleteLayer i) s)).
Proof.
  intros Hr.
  assert (H : hist_inv s).
  { induction Hr as [cv|ev s Hr IH|s s' Hr IH Hh Hk].
    - unfold hist_inv, len. cbn. lia.
    - now apply hist_inv_handle.
    - unfold hist_inv. now rewrite Hh, Hk. }
  split; [exact H|]. split.
  - intros Hpos. apply index_Some. destruct H as [[? ?] ?]. lia.
  - repeat split; try (now apply preserves_saveHistory);
      try (now apply hist_inv_handleUndo); try (now apply hist_inv_handleRedo);
      intros; now apply hist_inv_handleDeleteLayer.
Qed.

(** ** Deleting a layer *)

(** C7. Deleting a layer removes the layers of that id from the list and
    keeps the others in order. When the id is "annotations-layer" the
    history becomes empty, the cursor -1 and the overlay canvas, if it is
    mounted, transparent; for any other id the history, the cursor and
    the canvas stay as they were. *)
Theorem deleteLayer_history (i : jsstring) (s : App) :
  let s' := fire (handleDeleteLayer i) s in
  layers s' = filter (fun l => negb (streq (id l) i)) (layers s) /\
  existsb (fun l => streq (id l) i) (layers s') = false /\
  if streq i annotationsId
  then history s' = [] /\ historyStep s' = -1 /\
       canvas s' = option_map clearRect (canvas s) /\
       option_map bitmap (canvas s')
         = option_map (fun _ => Transparent) (canvas s)
  else history s' = history s /\ historyStep s' = historyStep s /\
       canvas s' = canvas s.
Proof.
  intros s'. unfold s'. rewrite handleDeleteLayer_fire.
  set (filtered := filter (fun l => negb (streq (id l) i)) (layers s)).
  assert (Hex : existsb (fun l => streq (id l) i) filtered = false).
  { unfold filtered. induction (layers s) as [|l ls IH]; [reflexivity|].
    cbn [filter]. destruct (streq (id l) i) eqn:E; cbn [negb]; [exact IH|].
    cbn [existsb]. now rewrite E, IH. }
  destruct (streq i annotationsId).
  - cbn [layers history historyStep canvas set_canvas set_historyStep
           set_history set_layers].
    split; [destruct (isActive i (activeLayerId s)); reflexivity|].
    split; [destruct (isActive i (activeLayerId s)); exact Hex|].
    repeat split. now destruct (canvas s).
  - destruct (isActive i (activeLayerId s)); cbn; auto.
Qed.

(** ** Export *)

Lemma find_active (a : option jsstring) (ls : list Layer) :
  find (isExportCandidate a) ls =
  match find (fun l => isActive (id l) a) ls with
  | Some l => if streq (id l) annotationsId then None else Some l
  | None => None
  end.
Proof.
  destruct a as [j|].
  - induction ls as [|l ls IH]; [reflexivity|].
    cbn [find]. unfold isExportCandidate at 1. cbn [isActive].
    destruct (streq (id l) j) eqn:E; cbn [andb].
    + apply streq_eq in E.
      destruct (streq (id l) annotationsId) eqn:E'; cbn [negb];
        [|reflexivity].
      (* the active id is the overlay's: no layer is a candidate *)
      apply streq_eq in E'.
      clear IH. induction ls as [|l' ls IH]; [reflexivity|].
      cbn [find]. unfold isExportCandidate at 1. cbn [isActive].
      destruct (streq (id l') j) eqn:E2; cbn [andb]; [|exact IH].
      apply streq_eq in E2.
      replace (streq (id l') annotationsId) with true;
        [exact IH|symmetry; apply streq_eq; congruence].
    + exact IH.
  - induction ls as [|l ls IH]; [reflexivity|]. exact IH.
Qed.

(** The base layer of an export, as the code chooses it: the active
    layer (the first layer of the active id) when there is one and it is
    not the overlay, and otherwise the first visible layer whose type is
    not [segment], a test that leaves out the overlay and the segmentation
    results alike. Without such a layer the export only adds the error
    toast and hands nothing to the browser; with one, the export is of
    that layer. *)
Lemma export_base_layer (now : Z) (s : App) :
  exportLayer s =
    match find (fun l => isActive (id l) (activeLayerId s)) (layers s) with
    | Some l => if streq (id l) annotationsId
                then find isVisibleImage (layers s) else Some l
    | None => find isVisibleImage (layers s)
    end /\
  match exportLayer s with
  | None =>
      result (handleExport now) s = Normal NoExport /\
      fire (handleExport now) s =
        set_toasts
          (toasts s ++ [mkToast now (lit "No valid image layer to export") Error])
          s
  | Some l =>
      result (handleExport now) s =
        Normal (Download (url l) (lit "c4-export-" ++ name l ++ lit ".png")) \/
      exists cv, canvas s = Some cv /\
        result (handleExport now) s = Normal (Composite l cv)
  end.
Proof.
  split.
  - unfold exportLayer. rewrite find_active.
    destruct (find (fun l => isActive (id l) (activeLayerId s)) (layers s))
      as [l|]; [|reflexivity].
    now destruct (streq (id l) annotationsId).
  - unfold result, fire, handleExport.
    destruct (exportLayer s) as [l|]; [|split; reflexivity].
    unfold bind, gets.
    destruct (hasAnnotations s); destruct (canvas s) as [cv|];
      try (left; reflexivity).
    right. exists cv. split; reflexivity.
Qed.

(** ** The text tool *)

Lemma trimStart_nil (t : jsstring) :
  trimStart t = [] <-> forallb is_white t = true.
Proof.
  induction t as [|c t IH]; cbn; [tauto|].
  destruct (is_white c); cbn; [exact IH|]. split; discriminate.
Qed.

Lemma trimStart_head (t : jsstring) :
  match trimStart t with
  | c :: _ => is_white c = false
  | [] => True
  end.
Proof.
  induction t as [|c t IH]; cbn; [exact I|].
  destruct (is_white c) eqn:E; [exact IH|exact E].
Qed.

Lemma forallb_rev {A : Type} (f : A -> bool) (l : list A) :
  forallb f (rev l) = forallb f l.
Proof.
  induction l as [|x l IH]; [reflexivity|].
  cbn [rev forallb]. rewrite forallb_app, IH. cbn. rewrite andb_true_r.
  apply andb_comm.
Qed.

(** [!text.trim()] holds exactly of the strings of white space. *)
Lemma blank_iff (t : jsstring) :
  truthy (trim t) = negb (forallb is_white t).
Proof.
  destruct (forallb is_white t) eqn:E; cbn [negb].
  - apply trimStart_nil in E. unfold trim, trimEnd. now rewrite E.
  - destruct (trim t) eqn:Et; [|reflexivity]. exfalso.
    unfold trim, trimEnd in Et.
    apply (f_equal (@rev N)) in Et. rewrite rev_involutive in Et.
    cbn [rev] in Et. apply trimStart_nil in Et. rewrite forallb_rev in Et.
    pose proof (trimStart_head t) as Hh.
    destruct (trimStart t) as [|c u] eqn:Eu.
    + apply trimStart_nil in Eu. congruence.
    + cbn in Et. rewrite Hh in Et. discriminate.
Qed.

Lemma commitText_blank (s : App) :
  tiVisible (textInput s) = true ->
  forallb is_white (textValue s) = true ->
  commitText s s = (Normal tt, set_textInput (hide (textInput s)) s).
Proof.
  intros Hv Hb. unfold commitText. rewrite Hv. cbn [negb].
  unfold bind, gets. rewrite blank_iff, Hb. reflexivity.
Qed.

#[local] Arguments Z.add : simpl never.
#[local] Arguments Z.mul : simpl never.
#[local] Arguments Z.sub : simpl never.
#[local] Arguments lit : simpl never.

Lemma commitText_render (s : App) (cv : Canvas) :
  tiVisible (textInput s) = true ->
  forallb is_white (textValue s) = false ->
  canvas s = Some cv ->
  cwidth cv <> 0%nat -> cheight cv <> 0%nat ->
  commitText s s =
  (Normal tt,
   set_textInput (hide (textInput s))
     (set_textValue []
        (fire saveHistory (set_canvas (Some (textDrawn s cv)) s)))).
Proof.
  intros Hv Hb Hc Hw Hh. unfold commitText. rewrite Hv. cbn [negb].
  unfold bind at 1. unfold gets at 1. rewrite blank_iff, Hb. cbn [negb].
  unfold bind at 1. unfold bind at 1. unfold gets at 1. rewrite Hc.
  assert (Hd : getImageData (textDrawn s cv) =
               Some (mkImageData (cwidth cv) (cheight cv)
                       (bitmap (textDrawn s cv)))).
  { unfold getImageData. cbn.
    apply Nat.eqb_neq in Hw, Hh. now rewrite Hw, Hh. }
  rewrite (saveHistory_fire (set_canvas (Some (textDrawn s cv)) s)
             (textDrawn s cv) _ eq_refl Hd).
  unfold saveHistory, bind, gets, onCanvas, modify, orThrow, ret. cbn.
  rewrite Hc. cbn.
  apply Nat.eqb_neq in Hw, Hh. unfold getImageData. cbn. rewrite Hw, Hh. cbn.
  reflexivity.
Qed.

(** C6. Committing the text edit that is open. A buffer that is empty or
    all white space only closes the edit: the overlay, the history and the
    cursor are untouched. Any other buffer, on a mounted overlay whose
    pixels can be read, is written by one [fillText] over the overlay, in
    the brush colour and at the anchor of the edit, and one snapshot, of
    the overlay with the text, is pushed by one [saveHistory]; the buffer
    is emptied and the edit closed. *)
Theorem commitText_cases (s : App) :
  tiVisible (textInput s) = true ->
  let s' := fire commitText s in
  if forallb is_white (textValue s)
  then s' = set_textInput (hide (textInput s)) s /\
       canvas s' = canvas s /\
       history s' = history s /\
       historyStep s' = historyStep s /\
       tiVisible (textInput s') = false
  else forall cv, canvas s = Some cv ->
       cwidth cv <> 0%nat -> cheight cv <> 0%nat ->
       let inked :=
         Drawn (CallFillText (textValue s) (tiX (textInput s))
                  (tiY (textInput s)))
           (textState s (ctx cv)) (bitmap cv) in
       let data := mkImageData (cwidth cv) (cheight cv) inked in
       s' = set_textInput (hide (textInput s))
              (set_textValue []
                 (fire saveHistory (set_canvas (Some (textDrawn s cv)) s))) /\
       canvas s' = Some (textDrawn s cv) /\
       bitmap (textDrawn s cv) = inked /\
       fillStyle (ctx (textDrawn s cv)) = brushColor s /\
       history s' = committed (history s) (historyStep s) data /\
       historyStep s' = len (history s') - 1 /\
       index (history s') (historyStep s') = Some data /\
       textValue s' = [] /\
       tiVisible (textInput s') = false.
Proof.
  intros Hv s'. destruct (forallb is_white (textValue s)) eqn:Hb.
  - unfold s', fire. rewrite commitText_blank by assumption.
    repeat split.
  - intros cv Hc Hw Hh inked data.
    assert (Hd : getImageData (textDrawn s cv) = Some data).
    { unfold getImageData. cbn.
      apply Nat.eqb_neq in Hw, Hh. now rewrite Hw, Hh. }
    assert (Hs' : s' = set_textInput (hide (textInput s))
              (set_textValue []
                 (fire saveHistory (set_canvas (Some (textDrawn s cv)) s)))).
    { unfold s', fire at 1. now rewrite (commitText_render s cv). }
    split; [exact Hs'|]. clearbody s'. subst s'.
    rewrite (saveHistory_fire (set_canvas (Some (textDrawn s cv)) s)
               (textDrawn s cv) data eq_refl Hd).
    cbn [history historyStep canvas textValue textInput tiVisible hide
         set_textInput set_textValue set_historyStep set_history set_canvas].
    repeat split. apply committed_last.
Qed.

Lemma ensureAnnotationLayer_run (r t : App) :
  exists ls a,
    ensureAnnotationLayer r t
    = (Normal tt, set_activeLayerId a (set_layers ls t)).
Proof.
  unfold ensureAnnotationLayer.
  destruct (find _ (layers r)) as [existing|].
  - destruct (visible existing); cbn [negb].
    + exists (layers t), (activeLayerId t). now destruct t.
    + eexists _, _. reflexivity.
  - eexists _, _. reflexivity.
Qed.

Lemma commitText_run (s : App) :
  tiVisible (textInput s) = true ->
  forallb is_white (textValue s) = false ->
  commitText s s =
  match canvas s with
  | None => (Normal tt, set_textInput (hide (textInput s)) (set_textValue [] s))
  | Some cv =>
      match getImageData (textDrawn s cv) with
      | Some _ =>
          (Normal tt,
           set_textInput (hide (textInput s))
             (set_textValue []
                (fire saveHistory (set_canvas (Some (textDrawn s cv)) s))))
      | None => (Thrown, set_canvas (Some (textDrawn s cv)) s)
      end
  end.
Proof.
  intros Hv Hb. unfold commitText. rewrite Hv. cbn [negb].
  unfold bind at 1. unfold gets at 1. rewrite blank_iff, Hb. cbn [negb].
  unfold bind at 1. unfold bind at 1. unfold gets at 1.
  destruct (canvas s) as [cv|] eqn:Hc; [|reflexivity].
  unfold fire. rewrite !saveHistory_run. cbn [canvas set_canvas].
  unfold saveHistory, bind, gets, onCanvas, modify, orThrow, ret, throw. cbn.
  rewrite Hc. cbn.
  unfold getImageData. cbn.
  destruct (Nat.eqb (cwidth cv) 0 || Nat.eqb (cheight cv) 0)%bool; reflexivity.
Qed.

Lemma commitText_closes (s : App) :
  tiVisible (textInput s) = true ->
  result commitText s = Normal tt ->
  tiVisible (textInput (fire commitText s)) = false.
Proof.
  intros Hv. unfold result, fire.
  destruct (forallb is_white (textValue s)) eqn:Hb.
  - now rewrite commitText_blank.
  - rewrite commitText_run by assumption.
    destruct (canvas s) as [cv|]; [|reflexivity].
    destruct (getImageData (textDrawn s cv)); [reflexivity|discriminate].
Qed.

(** Running a handler step by step. *)

Lemma run_modify {B : Type} (f : App -> App) (k : unit -> M B) (t : App) :
  bind (modify f) k t = k tt (f t).
Proof. reflexivity. Qed.

Lemma run_gets {A B : Type} (f : App -> A) (k : A -> M B) (t : App) :
  bind (gets f) k t = k (f t) t.
Proof. reflexivity. Qed.

Lemma run_ret {A B : Type} (a : A) (k : A -> M B) (t : App) :
  bind (ret a) k t = k a t.
Proof. reflexivity. Qed.

Lemma run_step {A B : Type} (m : M A) (k : A -> M B) (t t' : App) (a : A) :
  m t = (Normal a, t') -> bind m k t = k a t'.
Proof. intros H. unfold bind. now rewrite H. Qed.

Lemma run_abort {A B : Type} (m : M A) (k : A -> M B) (t t' : App) :
  m t = (Thrown, t') -> bind m k t = (Thrown, t').
Proof. intros H. unfold bind. now rewrite H. Qed.

Lemma run_onCanvas (f : Canvas -> Canvas) (t : App) (cv : Canvas) :
  canvas t = Some cv ->
  onCanvas f t = (Normal tt, set_canvas (Some (f cv)) t).
Proof. intros H. unfold onCanvas, modify. now rewrite H. Qed.

Lemma set_canvas_twice (v w : option Canvas) (t : App) :
  set_canvas v (set_canvas w t) = set_canvas v t.
Proof. reflexivity. Qed.

Lemma strokeSetup_run (e : MouseEvent) (r t : App) (cv : Canvas) :
  canvas t = Some cv ->
  let x := (clientX e - rectLeft cv)%R in
  let y := (clientY e - rectTop cv)%R in
  (onCanvas (onCtx beginPath) ;;
   onCanvas (onCtx (moveTo (x, y))) ;;
   onCanvas (onCtx (set_strokeStyle
     (if Tool_eqb (annotationTool r) Eraser
      then lit "rgba(0,0,0,1)" else brushColor r))) ;;
   onCanvas (onCtx (set_lineWidth (brushSize r))) ;;
   onCanvas (onCtx (set_lineCap CapRound)) ;;
   onCanvas (onCtx (set_lineJoin JoinRound)) ;;
   onCanvas (onCtx (set_gco
     (if Tool_eqb (annotationTool r) Eraser
      then DestinationOut else SourceOver)))) t
  = (Normal tt, set_canvas (Some (sessionCanvas e r cv)) t).
Proof.
  intros Hc x y.
  repeat (erewrite run_step;
          [|apply run_onCanvas; first [exact Hc|reflexivity]];
          rewrite ?set_canvas_twice).
  erewrite run_onCanvas by reflexivity.
  rewrite set_canvas_twice. reflexivity.
Qed.

Lemma ensureAnnotationLayer_frame (r t t' : App) (c : completion unit) :
  ensureAnnotationLayer r t = (c, t') ->
  c = Normal tt /\ canvas t' = canvas t /\ history t' = history t /\
  historyStep t' = historyStep t /\ textValue t' = textValue t /\
  textInput t' = textInput t /\ snapshot t' = snapshot t.
Proof.
  destruct (ensureAnnotationLayer_run r t) as (ls & a & H).
  rewrite H. intros [= <- <-]. repeat split.
Qed.

Lemma tool_not (a b : Tool) : a <> b -> Tool_eqb a b = false.
Proof. destruct a, b; cbn; congruence. Qed.

(** A press that starts a stroke or a shape, after the commit of a
    pending text (if any) and the check of the overlay layer. *)
Lemma startDrawing_session (e : MouseEvent) (s s1 s2 : App) (cv1 : Canvas) :
  annotationTool s <> Cursor ->
  annotationTool s <> Text ->
  (if tiVisible (textInput s) then commitText s else ret tt) s
    = (Normal tt, s1) ->
  ensureAnnotationLayer s s1 = (Normal tt, s2) ->
  canvas s2 = Some cv1 ->
  let p := ((clientX e - rectLeft cv1)%R, (clientY e - rectTop cv1)%R) in
  let s3 := set_startPos (Some p) (set_isDrawing true s2) in
  startDrawing e s s =
  if isShape (annotationTool s) then
    match getImageData cv1 with
    | Some d => (Normal tt, set_canvas (Some (sessionCanvas e s cv1))
                              (set_snapshot (Some d) s3))
    | None => (Thrown, s3)
    end
  else (Normal tt, set_canvas (Some (sessionCanvas e s cv1)) s3).
Proof.
  intros Hcur Htxt Hrun Hens Hc p s3. unfold startDrawing.
  rewrite (tool_not _ _ Hcur), (tool_not _ _ Htxt), andb_false_r.
  rewrite (run_step _ _ _ _ _ Hrun).
  rewrite (run_step _ _ _ _ _ Hens).
  rewrite run_gets, Hc, !run_modify.
  fold p. fold s3. unfold isShape.
  destruct (Tool_eqb (annotationTool s) Rect
            || Tool_eqb (annotationTool s) Arrow)%bool.
  - destruct (getImageData cv1) as [d|] eqn:Hd.
    + erewrite run_step; [|cbn [orThrow]; rewrite run_ret; reflexivity].
      rewrite (strokeSetup_run e s _ cv1) by exact Hc. reflexivity.
    + erewrite run_abort; [reflexivity|]. cbn [orThrow]. reflexivity.
  - rewrite run_ret. rewrite (strokeSetup_run e s _ cv1) by exact Hc.
    reflexivity.
Qed.

Lemma startDrawing_unmounted (e : MouseEvent) (s s1 s2 : App) :
  annotationTool s <> Cursor ->
  annotationTool s <> Text ->
  (if tiVisible (textInput s) then commitText s else ret tt) s
    = (Normal tt, s1) ->
  ensureAnnotationLayer s s1 = (Normal tt, s2) ->
  canvas s2 = None ->
  startDrawing e s s = (Normal tt, s2).
Proof.
  intros Hcur Htxt Hrun Hens Hc. unfold startDrawing.
  rewrite (tool_not _ _ Hcur), (tool_not _ _ Htxt), andb_false_r.
  rewrite (run_step _ _ _ _ _ Hrun).
  rewrite (run_step _ _ _ _ _ Hens).
  rewrite run_gets, Hc. reflexivity.
Qed.

Lemma startDrawing_text_pending (e : MouseEvent) (s s1 : App) :
  annotationTool s = Text ->
  tiVisible (textInput s) = true ->
  commitText s s = (Normal tt, s1) ->
  startDrawing e s s = (Normal tt, s1).
Proof.
  intros Ht Hv Hrun. unfold startDrawing. rewrite Ht, Hv. cbn [Tool_eqb andb].
  rewrite (run_step _ _ _ _ _ Hrun). reflexivity.
Qed.

(** A press with the text tool while no edit is open: an empty edit opens
    at the press point, and neither the overlay nor the history changes. *)
Lemma press_text_tool_opens_edit (e : MouseEvent) (s : App) (cv : Canvas) :
  annotationTool s = Text ->
  tiVisible (textInput s) = false ->
  canvas s = Some cv ->
  let s' := fire (startDrawing e) s in
  textInput s' = mkTextInput (clientX e - rectLeft cv)%R
                   (clientY e - rectTop cv)%R true /\
  textValue s' = [] /\
  isDrawing s' = false /\
  canvas s' = canvas s /\
  history s' = history s /\
  historyStep s' = historyStep s.
Proof.
  intros Ht Hv Hc s'. unfold s', fire, startDrawing.
  rewrite Ht, Hv. cbn [Tool_eqb andb]. rewrite run_ret.
  destruct (ensureAnnotationLayer s s) as [c s2] eqn:Hens.
  destruct (ensureAnnotationLayer_frame _ _ _ _ Hens)
    as (-> & Hc2 & Hh2 & Hk2 & _).
  rewrite (run_step _ _ _ _ _ Hens), run_gets, Hc2, Hc, !run_modify.
  cbn [snd modify textInput textValue isDrawing canvas history historyStep
       set_isDrawing set_textInput set_textValue set_startPos].
  rewrite Hc2, Hh2, Hk2, Hc. repeat split.
Qed.

(** C4, as the code has it. A press on the overlay while a text edit is
    open, with a tool other than the cursor, first commits the edit (and
    the commit closes it). With the text tool nothing else happens: the
    pending text is rendered and snapshotted as by any commit, and no new
    edit is opened. With a drawing tool the session then begins on the
    state the commit left: the overlay and the history are those of the
    commit, the session is marked as drawing from the press point, and a
    shape tool's preview snapshot is taken of the overlay with the
    committed text. *)
Theorem press_commits_pending_text (e : MouseEvent) (s : App) :
  tiVisible (textInput s) = true ->
  annotationTool s <> Cursor ->
  result commitText s = Normal tt ->
  let s1 := fire commitText s in
  let s' := fire (startDrawing e) s in
  tiVisible (textInput s') = false /\
  match annotationTool s with
  | Text => s' = s1
  | tool =>
      history s' = history s1 /\
      historyStep s' = historyStep s1 /\
      textValue s' = textValue s1 /\
      textInput s' = textInput s1 /\
      option_map bitmap (canvas s') = option_map bitmap (canvas s1) /\
      forall cv1, canvas s1 = Some cv1 ->
        isDrawing s' = true /\
        startPos s' = Some ((clientX e - rectLeft cv1)%R,
                            (clientY e - rectTop cv1)%R) /\
        forall d, tool = Rect \/ tool = Arrow ->
                  getImageData cv1 = Some d -> snapshot s' = Some d
  end.
Proof.
  intros Hv Htool Hres s1 s'.
  pose proof (commitText_closes s Hv Hres) as Hclosed. fold s1 in Hclosed.
  assert (Hrun : commitText s s = (Normal tt, s1)).
  { unfold result in Hres. unfold s1, fire.
    destruct (commitText s s) as [c t]. cbn in *. now subst c. }
  assert (Hs' : s' = snd (startDrawing e s s)) by reflexivity.
  clearbody s' s1.
  destruct (Tool_eqb (annotationTool s) Text) eqn:Et.
  - assert (Ht : annotationTool s = Text)
      by (destruct (annotationTool s); cbn in Et; congruence).
    rewrite (startDrawing_text_pending e s s1 Ht Hv Hrun) in Hs'.
    cbn [snd] in Hs'. subst s'. rewrite Ht. split; [exact Hclosed|reflexivity].
  - assert (Ht : annotationTool s <> Text)
      by (intros E; rewrite E in Et; discriminate).
    assert (Hrun' : (if tiVisible (textInput s) then commitText s else ret tt) s
                    = (Normal tt, s1)) by (now rewrite Hv).
    destruct (ensureAnnotationLayer s s1) as [c s2] eqn:Hens.
    destruct (ensureAnnotationLayer_frame _ _ _ _ Hens)
      as (-> & Hc2 & Hh2 & Hk2 & Hv2 & Hi2 & Hn2).
    assert (Hgoal :
      tiVisible (textInput s') = false /\
      history s' = history s1 /\
      historyStep s' = historyStep s1 /\
      textValue s' = textValue s1 /\
      textInput s' = textInput s1 /\
      option_map bitmap (canvas s') = option_map bitmap (canvas s1) /\
      forall cv1, canvas s1 = Some cv1 ->
        isDrawing s' = true /\
        startPos s' = Some ((clientX e - rectLeft cv1)%R,
                            (clientY e - rectTop cv1)%R) /\
        forall d, annotationTool s = Rect \/ annotationTool s = Arrow ->
                  getImageData cv1 = Some d -> snapshot s' = Some d).
    { destruct (canvas s1) as [cv1|] eqn:Hc1.
      - rewrite (startDrawing_session e s s1 s2 cv1 Htool Ht Hrun' Hens Hc2)
          in Hs'.
        destruct (isShape (annotationTool s)) eqn:Hshape;
          [destruct (getImageData cv1) as [d1|] eqn:Hd1|];
          cbn [snd] in Hs'; subst s';
          cbn [history historyStep textValue textInput canvas isDrawing
               startPos snapshot set_canvas set_snapshot set_startPos
               set_isDrawing option_map];
          rewrite ?Hc2, ?Hh2, ?Hk2, ?Hv2, ?Hi2, ?Hn2;
          (repeat split; try exact Hclosed);
          try match goal with
              | H : Some _ = Some _ |- _ => injection H as <-
              end;
          try match goal with
              | |- Some _ = Some _ => reflexivity
              end.
        + intros d _ Hd. congruence.
        + intros d _ Hd. congruence.
        + intros d [E|E] _; rewrite E in Hshape; discriminate.
      - rewrite (startDrawing_unmounted e s s1 s2 Htool Ht Hrun' Hens Hc2)
          in Hs'.
        cbn [snd] in Hs'. subst s'.
        rewrite Hc2, Hh2, Hk2, Hv2, Hi2.
        repeat split; try exact Hclosed; discriminate. }
    destruct (annotationTool s); try congruence; exact Hgoal.
Qed.

(** ** The calls of the arrow *)

Section ArrowCalls.

Local Open Scope R_scope.

Lemma bitmap_onCtx (f : Context2D -> Context2D) (c : Canvas) :
  bitmap (onCtx f c) = bitmap c.
Proof. reflexivity. Qed.

Lemma ctx_onCtx (f : Context2D -> Context2D) (c : Canvas) :
  ctx (onCtx f c) = f (ctx c).
Proof. reflexivity. Qed.

Lemma bitmap_paint (d : DrawCall) (c : Canvas) :
  bitmap (paint d c) = Drawn d (ctx c) (bitmap c).
Proof. reflexivity. Qed.

Lemma ctx_paint (d : DrawCall) (c : Canvas) : ctx (paint d c) = ctx c.
Proof. reflexivity. Qed.


End ArrowCalls.

(** ** The header of a data URI *)

(** The three headers the expression lists are removed. *)
Lemma cleanBase64_listed (b64 : jsstring) :
  cleanBase64 (dataURI (lit "image/png") b64) = b64 /\
  cleanBase64 (dataURI (lit "image/jpeg") b64) = b64 /\
  cleanBase64 (dataURI (lit "image/webp") b64) = b64.
Proof. repeat split. Qed.

(** C9. A GIF read by the file input (it accepts every [image/*] type)
    reaches [editImage] as a data URI whose header the expression does not
    list: the header is not removed, and the request carries the whole
    data URI as its base64 payload. *)
Theorem editImage_keeps_gif_header :
  cleanBase64 gifUpload = gifUpload /\
  reqData (editImageRequest gifUpload (lit "make it pop") NANO_BANANA)
    = lit "data:image/gif;base64,R0lGODlhAQABAAAAACw=" /\
  Regex.stripPrefix (lit "data:")
    (reqData (editImageRequest gifUpload (lit "make it pop") NANO_BANANA))
    <> None.
Proof. repeat split. discriminate. Qed.

(** ** The properties at the sample states *)

(** The 21st commit: the oldest of 20 snapshots is evicted and the cursor
    stays on the last index. *)
Lemma saveHistory_commit_witness :
  (canvas fullApp = Some canvas0 /\
   getImageData canvas0 = Some img0 /\
   -1 <= historyStep fullApp /\
   (length (history fullApp) <= 20)%nat) /\
  (length (history (fire saveHistory fullApp)) <= 20)%nat /\
  historyStep (fire saveHistory fullApp)
    = len (history (fire saveHistory fullApp)) - 1.
Proof.
  assert (H1 : canvas fullApp = Some canvas0) by reflexivity.
  assert (H2 : getImageData canvas0 = Some img0) by reflexivity.
  assert (H3 : -1 <= historyStep fullApp) by (vm_compute; discriminate).
  assert (H4 : (length (history fullApp) <= 20)%nat) by (vm_compute; lia).
  split; [repeat split; assumption|].
  destruct (saveHistory_commit fullApp canvas0 img0 H1 H2 H3 H4)
    as (_ & _ & Hlen & Hstep & _).
  split; [exact Hlen|exact Hstep].
Defined.

(** Undo from the second of two snapshots. *)
Lemma undo_redo_cases_witness :
  (-1 <= historyStep twoApp <= len (history twoApp) - 1 /\
   canvas twoApp = Some canvas0) /\
  fire handleRedo twoApp = twoApp /\
  exists img, index (history twoApp) (historyStep twoApp - 1) = Some img /\
    fire handleUndo twoApp =
    set_canvas (Some (putImageData img (clearRect canvas0)))
      (set_historyStep (historyStep twoApp - 1) twoApp).
Proof.
  assert (H1 : canvas twoApp = Some canvas0) by reflexivity.
  assert (H2 : -1 <= historyStep twoApp <= len (history twoApp) - 1)
    by (vm_compute; split; discriminate).
  split; [split; assumption|].
  destruct (proj1 (undo_redo_cases twoApp H2) canvas0 H1)
    as (Hundo & _ & _ & _ & Hredo & _).
  split; [apply Hredo; reflexivity|apply Hundo; reflexivity].
Defined.

(** Unmounting the overlay is a step of a session. *)
Lemma unmount_reachable (s : App) :
  reachable s -> reachable (set_canvas None s).
Proof.
  intros H. exact (reach_other s (set_canvas None s) H eq_refl eq_refl).
Qed.

(** The claim fails without a mounted overlay. After two strokes the
    displayed layer goes and the canvas with it; the history keeps both
    entries and the cursor is at 1. An undo (Ctrl+z reaches the handler
    through the window) then leaves the cursor where it is and repaints
    nothing. *)
Lemma undo_unmounted_counterexample :
  reachable unmountedApp /\
  0 < historyStep unmountedApp <= len (history unmountedApp) - 1 /\
  fire handleUndo unmountedApp = unmountedApp /\
  ~ undoesOneStep unmountedApp (fire handleUndo unmountedApp).
Proof.
  assert (Hr : reachable unmountedApp).
  { apply unmount_reachable.
    exact (reach_event EvStopDrawing _
             (reach_event (EvStartDrawing press0) _
                (reach_event EvStopDrawing _
                   (reach_event (EvStartDrawing press0) _
                      (reach_event (EvToolSelect Brush) _
                         (reach_init (Some canvas0))))))). }
  assert (Hk : historyStep unmountedApp = 1) by reflexivity.
  assert (Hl : len (history unmountedApp) = 2) by reflexivity.
  assert (Hu : fire handleUndo unmountedApp = unmountedApp) by reflexivity.
  split; [exact Hr|]. split; [rewrite Hk, Hl; lia|].
  split; [exact Hu|].
  intros [Hstep _]. rewrite Hu, Hk in Hstep. discriminate Hstep.
Qed.

(** Two commits, two undos, two redos. *)
Lemma undo_redo_roundtrip_witness :
  (canvas app0 = Some canvas0 /\ cwidth canvas0 <> 0%nat /\
   cheight canvas0 <> 0%nat /\ history app0 = [] /\ historyStep app0 = -1 /\
   (length [Transparent; Drawn CallStroke ctx0 Transparent] <= 20)%nat) /\
  Nat.iter 2 (fire handleRedo)
    (Nat.iter 2 (fire handleUndo)
       (commits [Transparent; Drawn CallStroke ctx0 Transparent] app0))
  = commits [Transparent; Drawn CallStroke ctx0 Transparent] app0.
Proof.
  assert (H1 : canvas app0 = Some canvas0) by reflexivity.
  assert (H2 : cwidth canvas0 <> 0%nat) by discriminate.
  assert (H3 : cheight canvas0 <> 0%nat) by discriminate.
  assert (H4 : history app0 = []) by reflexivity.
  assert (H5 : historyStep app0 = -1) by reflexivity.
  assert (H6 : (length [Transparent; Drawn CallStroke ctx0 Transparent]
                <= 20)%nat) by (cbn; lia).
  split; [repeat split; assumption|].
  exact (proj1 (proj2 (undo_redo_roundtrip app0 canvas0 _ H1 H2 H3 H4 H5 H6))).
Defined.

Lemma textApp_commit :
  commitText textApp textApp =
  (Normal tt,
   set_textInput (hide (textInput textApp))
     (set_textValue []
        (fire saveHistory
           (set_canvas (Some (textDrawn textApp canvas0)) textApp)))).
Proof.
  apply commitText_render; reflexivity || discriminate.
Qed.

Lemma textApp_commit_runs : result commitText textApp = Normal tt.
Proof. unfold result. now rewrite textApp_commit. Qed.

(** A press with the text tool while "hi" is pending. *)
Lemma press_commits_pending_text_witness :
  (tiVisible (textInput textApp) = true /\
   annotationTool textApp <> Cursor /\
   result commitText textApp = Normal tt) /\
  tiVisible (textInput (fire (startDrawing press0) textApp)) = false /\
  fire (startDrawing press0) textApp = fire commitText textApp.
Proof.
  assert (H1 : tiVisible (textInput textApp) = true) by reflexivity.
  assert (H2 : annotationTool textApp <> Cursor) by discriminate.
  pose proof textApp_commit_runs as H3.
  split; [repeat split; assumption|].
  exact (press_commits_pending_text press0 textApp H1 H2 H3).
Defined.

(** The claim fails there: the pending "hi" is rendered and snapshotted,
    and no edit is open after the press. *)
Lemma press_text_tool_counterexample :
  tiVisible (textInput (fire (startDrawing press0) textApp)) = false /\
  length (history (fire (startDrawing press0) textApp)) = 1%nat /\
  ~ opensFreshEdit press0 textApp (fire (startDrawing press0) textApp).
Proof.
  assert (Hs : fire (startDrawing press0) textApp = fire commitText textApp).
  { unfold fire.
    rewrite (startDrawing_text_pending press0 textApp _ eq_refl eq_refl
               textApp_commit).
    now rewrite textApp_commit. }
  assert (Hclosed : tiVisible (textInput (fire commitText textApp)) = false).
  { unfold fire. now rewrite textApp_commit. }
  rewrite Hs. split; [exact Hclosed|]. split.
  - unfold fire at 1. rewrite textApp_commit.
    cbn [snd history set_textInput set_textValue].
    rewrite (saveHistory_fire
               (set_canvas (Some (textDrawn textApp canvas0)) textApp)
               (textDrawn textApp canvas0)
               (mkImageData 300 150 (bitmap (textDrawn textApp canvas0)))
               eq_refl eq_refl).
    reflexivity.
  - intros (_ & _ & _ & Hopen & _). rewrite Hclosed in Hopen. discriminate.
Qed.

(** C5. With the overlay active above a visible segmentation result and
    the photo it was cut from, the first visible layer that is not the
    overlay is the segmentation result (the layer the page displays), but
    the fallback of [handleExport] tests the layer type against [segment]
    and takes the photo below it; with the photo deleted it finds no layer
    at all and only reports the error. *)
Theorem export_skips_segmentation_result :
  claimedExportLayer exportApp = Some cutoutLayer /\
  exportLayer exportApp = Some photoLayer /\
  exportLayer exportApp <> claimedExportLayer exportApp /\
  exportLayer (set_layers [annotationLayer0; cutoutLayer] exportApp) = None /\
  result (handleExport 1700000009000)
    (set_layers [annotationLayer0; cutoutLayer] exportApp) = Normal NoExport.
Proof.
  assert (H1 : exportLayer exportApp = Some photoLayer) by reflexivity.
  assert (H2 : claimedExportLayer exportApp = Some cutoutLayer) by reflexivity.
  repeat split; try assumption.
  rewrite H1, H2. intros H.
  apply (f_equal (option_map type)) in H. discriminate H.
Qed.

(** Committing "hi", and committing two spaces. *)
Lemma commitText_cases_witness :
  (tiVisible (textInput textApp) = true /\
   tiVisible (textInput blankApp) = true) /\
  canvas (fire commitText textApp) = Some (textDrawn textApp canvas0) /\
  textValue (fire commitText textApp) = [] /\
  fire commitText blankApp = set_textInput (hide (textInput blankApp)) blankApp.
Proof.
  assert (H1 : tiVisible (textInput textApp) = true) by reflexivity.
  assert (H2 : tiVisible (textInput blankApp) = true) by reflexivity.
  split; [split; assumption|].
  pose proof (commitText_cases textApp H1) as Ht.
  pose proof (commitText_cases blankApp H2) as Hb.
  cbv zeta in Ht, Hb.
  change (forallb is_white (textValue textApp)) with false in Ht.
  change (forallb is_white (textValue blankApp)) with true in Hb.
  cbv iota in Ht, Hb.
  destruct (Ht canvas0 eq_refl) as (_ & Hc & _ & _ & _ & _ & _ & Hv & _);
    [discriminate|discriminate|].
  destruct Hb as (Hb & _).
  repeat split; assumption.
Defined.

(** After one dot with the brush. *)
Lemma history_invariant_witness :
  reachable dotApp /\ hist_inv dotApp /\ hist_inv (fire handleUndo dotApp).
Proof.
  assert (H : reachable dotApp)
    by (unfold dotApp, app0; repeat apply reach_event; apply reach_init).
  split; [exact H|].
  destruct (history_invariant dotApp H) as (H1 & _ & _ & H2 & _).
  split; assumption.
Defined.

(** * Further properties *)

(** ** Drawing sessions *)

Lemma set_canvas_same (t : App) (cv : Canvas) :
  canvas t = Some cv -> set_canvas (Some cv) t = t.
Proof. intros H. destruct t. cbn in *. now rewrite H. Qed.

Lemma bind_onCanvas {B : Type} (f : Canvas -> Canvas) (k : unit -> M B)
    (t : App) (cv : Canvas) :
  canvas t = Some cv ->
  bind (onCanvas f) k t = k tt (set_canvas (Some (f cv)) t).
Proof. intros H. now rewrite (run_step _ _ _ _ _ (run_onCanvas f t cv H)). Qed.

Lemma restoreSnapshot_run (r t : App) (cv : Canvas) :
  canvas t = Some cv ->
  restoreSnapshot r t = (Normal tt, set_canvas (Some (restored r cv)) t).
Proof.
  intros H. unfold restoreSnapshot, restored.
  destruct (snapshot r); [now apply run_onCanvas|].
  now rewrite set_canvas_same.
Qed.

(** Run the canvas calls at the head of a handler. *)
Ltac canvas_steps Hc :=
  repeat (erewrite run_step;
          [|first [apply run_onCanvas; first [exact Hc|reflexivity]
                  |apply restoreSnapshot_run; first [exact Hc|reflexivity]]];
          rewrite ?set_canvas_twice);
  try (erewrite run_onCanvas by first [exact Hc|reflexivity]);
  rewrite ?set_canvas_twice.

(** A mouse move of a session acts on the canvas alone. *)
Lemma draw_run (e : MouseEvent) (r t : App) (p : point) (cv : Canvas) :
  isDrawing r = true -> startPos r = Some p -> canvas t = Some cv ->
  snd (draw e r t) = set_canvas (Some (drawOn e r p cv)) t.
Proof.
  intros Hd Hp Hc. unfold draw, drawOn. rewrite Hd, Hp. destruct p as [sx sy].
  rewrite run_gets, Hc. cbn [fst snd].
  destruct (annotationTool r); canvas_steps Hc; try reflexivity;
    cbn [ret snd]; now rewrite set_canvas_same.
Qed.

(** X1. A mouse move changes nothing but the overlay canvas, and nothing
    at all unless a session is in progress with its start point set. *)
Theorem draw_touches_canvas_only (e : MouseEvent) (s : App) :
  let s' := fire (draw e) s in
  s' = set_canvas (canvas s') s /\
  (if isDrawing s
   then match startPos s with Some _ => True | None => s' = s end
   else s' = s).
Proof.
  intros s'. unfold s', fire.
  destruct (isDrawing s) eqn:Hd.
  - destruct (startPos s) as [p|] eqn:Hp.
    + destruct (canvas s) as [cv|] eqn:Hc.
      * rewrite (draw_run e s s p cv Hd Hp Hc). split; [reflexivity|exact I].
      * unfold draw. rewrite Hd, Hp. destruct p. rewrite run_gets, Hc.
        cbn [ret snd]. split; [|exact I]. destruct s; cbn in *. now rewrite Hc.
    + unfold draw. rewrite Hd, Hp. cbn [ret snd].
      split; [destruct s; reflexivity|reflexivity].
  - unfold draw. rewrite Hd. cbn [ret snd].
    split; [destruct s; reflexivity|reflexivity].
Qed.

Lemma drawOn_size (e : MouseEvent) (r : App) (p : point) (cv : Canvas) :
  cwidth (drawOn e r p cv) = cwidth cv /\
  cheight (drawOn e r p cv) = cheight cv.
Proof.
  assert (Hr : cwidth (restored r cv) = cwidth cv /\
               cheight (restored r cv) = cheight cv).
  { unfold restored. destruct (snapshot r) as [img|]; [|now split].
    unfold putImageData. now destruct (_ && _)%bool. }
  destruct Hr as [Hw Hh].
  unfold drawOn. destruct (annotationTool r); now split.
Qed.

(** What the moves of a session keep. *)
Lemma moves_keep (ms : list MouseEvent) (s : App) (p : point) (cv : Canvas) :
  isDrawing s = true -> startPos s = Some p -> canvas s = Some cv ->
  let t := moves ms s in
  isDrawing t = true /\ startPos t = Some p /\
  history t = history s /\ historyStep t = historyStep s /\
  exists c, canvas t = Some c /\ cwidth c = cwidth cv /\ cheight c = cheight cv.
Proof.
  revert s cv. induction ms as [|m ms IH]; intros s cv Hd Hp Hc.
  - cbn. repeat split; try assumption. now exists cv.
  - cbn [moves fold_left]. fold (moves ms (fire (draw m) s)).
    unfold fire. rewrite (draw_run m s s p cv Hd Hp Hc).
    destruct (drawOn_size m s p cv) as [Hw Hh].
    destruct (IH (set_canvas (Some (drawOn m s p cv)) s) (drawOn m s p cv)
                Hd Hp eq_refl) as (H1 & H2 & H3 & H4 & c & H5 & H6 & H7).
    cbv zeta. repeat split; try assumption.
    exists c. repeat split; congruence.
Qed.

(** A press with a drawing tool and no text pending. *)
Lemma press_starts (e : MouseEvent) (s : App) (cv : Canvas) :
  annotationTool s <> Cursor -> annotationTool s <> Text ->
  tiVisible (textInput s) = false ->
  canvas s = Some cv -> cwidth cv <> 0%nat -> cheight cv <> 0%nat ->
  let s1 := fire (startDrawing e) s in
  isDrawing s1 = true /\
  startPos s1 = Some ((clientX e - rectLeft cv)%R, (clientY e - rectTop cv)%R) /\
  canvas s1 = Some (sessionCanvas e s cv) /\
  history s1 = history s /\ historyStep s1 = historyStep s /\
  annotationTool s1 = annotationTool s /\ brushSize s1 = brushSize s /\
  brushColor s1 = brushColor s /\
  snapshot s1 = (if isShape (annotationTool s)
                 then Some (mkImageData (cwidth cv) (cheight cv) (bitmap cv))
                 else snapshot s).
Proof.
  intros Hcur Htxt Hv Hc Hw Hh s1.
  destruct (ensureAnnotationLayer_run s s) as (ls & a & Hens).
  assert (Hrun : (if tiVisible (textInput s) then commitText s else ret tt) s
                 = (Normal tt, s)) by (now rewrite Hv).
  assert (Hd : getImageData cv
               = Some (mkImageData (cwidth cv) (cheight cv) (bitmap cv))).
  { unfold getImageData. apply Nat.eqb_neq in Hw, Hh. now rewrite Hw, Hh. }
  unfold s1, fire.
  rewrite (startDrawing_session e s s _ cv Hcur Htxt Hrun Hens Hc), Hd.
  destruct (isShape (annotationTool s)); cbn; repeat split.
Qed.

Lemma stopDrawing_run (r t : App) (c : Canvas) :
  isDrawing r = true -> canvas t = Some c ->
  let c' := onCtx (set_gco SourceOver) c in
  let t' := set_canvas (Some c') (set_snapshot None (set_isDrawing false t)) in
  snd (stopDrawing r t) =
  match getImageData c' with
  | Some data =>
      set_historyStep (len (committed (history r) (historyStep r) data) - 1)
        (set_history (committed (history r) (historyStep r) data) t')
  | None => t'
  end.
Proof.
  intros Hd Hc c' t'. unfold stopDrawing. rewrite Hd, !run_modify.
  erewrite run_step; [|apply run_onCanvas; exact Hc].
  rewrite saveHistory_run. reflexivity.
Qed.

(** X2. A drawing session commits exactly once, at the release. From a
    press with a drawing tool (no text pending, overlay mounted and of
    non-zero size) through any number of moves the history and its cursor
    stay as they were; the release pushes one snapshot, of the overlay as
    the moves left it, ends the session, drops the preview snapshot and
    sets the compositing back to source-over. With no move at all the
    click still commits. *)
Theorem session_commits_once (e : MouseEvent) (ms : list MouseEvent)
    (s : App) (cv : Canvas) :
  annotationTool s <> Cursor -> annotationTool s <> Text ->
  tiVisible (textInput s) = false ->
  canvas s = Some cv -> cwidth cv <> 0%nat -> cheight cv <> 0%nat ->
  let s2 := moves ms (fire (startDrawing e) s) in
  let s3 := fire stopDrawing s2 in
  history s2 = history s /\ historyStep s2 = historyStep s /\
  exists c2 cv3,
    canvas s2 = Some c2 /\ canvas s3 = Some cv3 /\
    bitmap cv3 = bitmap c2 /\
    globalCompositeOperation (ctx cv3) = SourceOver /\
    history s3 = committed (history s) (historyStep s)
                   (mkImageData (cwidth cv) (cheight cv) (bitmap c2)) /\
    historyStep s3 = len (history s3) - 1 /\
    isDrawing s3 = false /\ snapshot s3 = None.
Proof.
  intros Hcur Htxt Hv Hc Hw Hh s2 s3.
  destruct (press_starts e s cv Hcur Htxt Hv Hc Hw Hh)
    as (Hd1 & Hp1 & Hc1 & Hh1 & Hk1 & _).
  destruct (moves_keep ms _ _ _ Hd1 Hp1 Hc1)
    as (Hd2 & Hp2 & Hh2 & Hk2 & c2 & Hc2 & Hw2 & Hh2').
  fold s2 in Hd2, Hp2, Hh2, Hk2, Hc2.
  split; [congruence|]. split; [congruence|].
  exists c2, (onCtx (set_gco SourceOver) c2).
  assert (Hd : getImageData (onCtx (set_gco SourceOver) c2)
               = Some (mkImageData (cwidth cv) (cheight cv) (bitmap c2))).
  { unfold getImageData. cbn [onCtx with_ctx cwidth cheight bitmap].
    change (cwidth (sessionCanvas e s cv)) with (cwidth cv) in Hw2.
    change (cheight (sessionCanvas e s cv)) with (cheight cv) in Hh2'.
    rewrite Hw2, Hh2'. apply Nat.eqb_neq in Hw, Hh. now rewrite Hw, Hh. }
  unfold s3, fire. rewrite (stopDrawing_run s2 s2 c2 Hd2 Hc2). cbv zeta.
  rewrite Hd, Hh2, Hk2, Hh1, Hk1.
  cbn [canvas history historyStep isDrawing snapshot set_historyStep
       set_history set_canvas set_snapshot set_isDrawing].
  repeat split; assumption.
Qed.


(** X4. The first move of a brush or eraser stroke. After the press (no
    text pending, overlay mounted) the move strokes, over what the overlay
    showed, the path from the press point to the pointer with round caps
    and joins and the brush size as width; the eraser strokes with
    destination-out compositing (it removes pixels) and the brush with
    source-over in the brush colour. *)
Theorem stroke_compositing (e m : MouseEvent) (s : App) (cv : Canvas) :
  annotationTool s = Brush \/ annotationTool s = Eraser ->
  tiVisible (textInput s) = false ->
  canvas s = Some cv ->
  0 < brushSize s ->
  let s2 := fire (draw m) (fire (startDrawing e) s) in
  let erasing := Tool_eqb (annotationTool s) Eraser in
  exists c2,
    canvas s2 = Some c2 /\
    bitmap c2 = Drawn CallStroke (ctx c2) (bitmap cv) /\
    path (ctx c2) =
      [[((clientX m - rectLeft cv)%R, (clientY m - rectTop cv)%R);
        ((clientX e - rectLeft cv)%R, (clientY e - rectTop cv)%R)]] /\
    globalCompositeOperation (ctx c2)
      = (if erasing then DestinationOut else SourceOver) /\
    strokeStyle (ctx c2)
      = (if erasing then lit "rgba(0,0,0,1)" else brushColor s) /\
    lineWidth (ctx c2) = brushSize s /\
    lineCap (ctx c2) = CapRound /\ lineJoin (ctx c2) = JoinRound /\
    history s2 = history s.
Proof.
  intros Htool Hv Hc Hsize s2 erasing.
  assert (Hcur : annotationTool s <> Cursor) by (destruct Htool; congruence).
  assert (Htxt : annotationTool s <> Text) by (destruct Htool; congruence).
  assert (Hshape : isShape (annotationTool s) = false)
    by (destruct Htool as [H|H]; rewrite H; reflexivity).
  destruct (ensureAnnotationLayer_run s s) as (ls & a & Hens).
  assert (Hrun : (if tiVisible (textInput s) then commitText s else ret tt) s
                 = (Normal tt, s)) by (now rewrite Hv).
  pose proof (startDrawing_session e s s _ cv Hcur Htxt Hrun Hens Hc) as H1.
  cbv zeta in H1. rewrite Hshape in H1.
  set (pe := ((clientX e - rectLeft cv)%R, (clientY e - rectTop cv)%R)).
  set (s1 := set_canvas (Some (sessionCanvas e s cv))
               (set_startPos (Some pe)
                  (set_isDrawing true
                     (set_activeLayerId a (set_layers ls s))))).
  assert (Hs2 : s2 = set_canvas (Some (drawOn m s1 pe (sessionCanvas e s cv)))
                       s1).
  { unfold s2, fire at 2. rewrite H1. cbn [snd]. unfold fire.
    apply (draw_run m s1 s1 pe (sessionCanvas e s cv) eq_refl eq_refl eq_refl). }
  clearbody s2. subst s2.
  eexists. split; [reflexivity|].
  assert (Hw : (0 <? brushSize s) = true) by (now apply Z.ltb_lt).
  assert (Hd : drawOn m s1 pe (sessionCanvas e s cv)
               = paint CallStroke
                   (onCtx (lineTo ((clientX m - rectLeft cv)%R,
                                   (clientY m - rectTop cv)%R))
                      (sessionCanvas e s cv))).
  { unfold drawOn. change (annotationTool s1) with (annotationTool s).
    destruct Htool as [H|H]; rewrite H; reflexivity. }
  rewrite Hd, ctx_paint, bitmap_paint, ctx_onCtx, bitmap_onCtx.
  unfold sessionCanvas. cbv zeta. fold pe.
  rewrite !ctx_onCtx, !bitmap_onCtx.
  unfold lineTo, moveTo, beginPath.
  cbn [path set_path set_gco set_lineJoin set_lineCap set_lineWidth
       set_strokeStyle strokeStyle lineWidth lineCap lineJoin
       globalCompositeOperation history set_canvas].
  rewrite Hw. fold erasing. repeat split.
Qed.

(** ** What a handler keeps *)

Lemma keeps_ret {A B : Type} (f : App -> B) (a : A) : keeps f (ret a).
Proof. intros t. reflexivity. Qed.

Lemma keeps_throw {A B : Type} (f : App -> B) : keeps f (@throw A).
Proof. intros t. reflexivity. Qed.

Lemma keeps_gets {B C : Type} (f : App -> B) (g : App -> C) :
  keeps f (gets g).
Proof. intros t. reflexivity. Qed.

Lemma keeps_orThrow {A B : Type} (f : App -> B) (o : option A) :
  keeps f (orThrow o).
Proof. destruct o; intros t; reflexivity. Qed.

Lemma keeps_bind {A B C : Type} (f : App -> C) (m : M A) (k : A -> M B) :
  keeps f m -> (forall a, keeps f (k a)) -> keeps f (bind m k).
Proof.
  intros Hm Hk t. unfold bind. specialize (Hm t).
  destruct (m t) as [[a|] t']; cbn in *; [|exact Hm].
  now rewrite Hk.
Qed.

Lemma keeps_modify {B : Type} (f : App -> B) (g : App -> App) :
  (forall t, f (g t) = f t) -> keeps f (modify g).
Proof. intros H t. apply H. Qed.

Lemma keeps_onCanvas {B : Type} (f : App -> B) (g : Canvas -> Canvas) :
  (forall v t, f (set_canvas v t) = f t) -> keeps f (onCanvas g).
Proof.
  intros H. apply keeps_modify. intros t. destruct (canvas t); [apply H|].
  reflexivity.
Qed.

Lemma keeps_proj {A B C : Type} (f : App -> B) (g : B -> C) (m : M A) :
  keeps f m -> keeps (fun t => g (f t)) m.
Proof. intros H t. cbv beta. now rewrite H. Qed.

Lemma keeps_layers {A : Type} (m : M A) :
  keeps panel m -> keeps layerState m.
Proof. intros H. exact (keeps_proj panel fst m H). Qed.

Lemma keeps_brush {A : Type} (m : M A) :
  keeps panel m -> keeps brushSize m.
Proof. intros H. exact (keeps_proj panel snd m H). Qed.

Lemma keeps_preserves {A B : Type} (f : App -> B) (P : B -> Prop) (m : M A) :
  keeps f m -> preserves (fun t => P (f t)) m.
Proof. intros H t Ht. cbv beta. now rewrite H. Qed.

Create HintDb keep.
#[local] Hint Resolve keeps_ret keeps_throw keeps_gets keeps_orThrow : keep.
#[local] Hint Extern 1 (keeps _ (modify _)) =>
  apply keeps_modify; intros ?; reflexivity : keep.
#[local] Hint Extern 1 (keeps _ (onCanvas _)) =>
  apply keeps_onCanvas; intros ? ?; reflexivity : keep.

Ltac keep_walk :=
  repeat first
    [ solve [auto 3 with keep]
    | apply keeps_bind; [|intros ?]
    | progress cbv zeta
    | match goal with
      | |- keeps _ (if ?b then _ else _) => destruct b
      | |- keeps _ (match ?x with _ => _ end) => destruct x
      end ].

Lemma keeps_panel_saveHistory (r : App) : keeps panel (saveHistory r).
Proof. unfold saveHistory. keep_walk. Qed.

Lemma keeps_panel_handleUndo (r : App) : keeps panel (handleUndo r).
Proof. unfold handleUndo. keep_walk. Qed.

Lemma keeps_panel_handleRedo (r : App) : keeps panel (handleRedo r).
Proof. unfold handleRedo. keep_walk. Qed.

#[local] Hint Resolve keeps_panel_saveHistory keeps_panel_handleUndo
  keeps_panel_handleRedo : keep.

Lemma keeps_panel_commitText (r : App) : keeps panel (commitText r).
Proof. unfold commitText. keep_walk. Qed.

Lemma keeps_panel_stopDrawing (r : App) : keeps panel (stopDrawing r).
Proof. unfold stopDrawing. keep_walk. Qed.

Lemma keeps_panel_draw (e : MouseEvent) (r : App) : keeps panel (draw e r).
Proof. unfold draw, restoreSnapshot. keep_walk. Qed.

Lemma keeps_panel_handleExport (now : Z) (r : App) :
  keeps panel (handleExport now r).
Proof. unfold handleExport, addToast. keep_walk. Qed.

Lemma keeps_panel_updateCanvasSize (img : option (nat * nat)) (r : App) :
  keeps panel (updateCanvasSize img r).
Proof. unfold updateCanvasSize. keep_walk. Qed.

#[local] Hint Resolve keeps_panel_commitText keeps_panel_stopDrawing
  keeps_panel_draw keeps_panel_handleExport keeps_panel_updateCanvasSize
  : keep.
#[local] Hint Extern 2 (keeps layerState _) => apply keeps_layers : keep.
#[local] Hint Extern 2 (keeps brushSize _) => apply keeps_brush : keep.

(** The rest of a press, after the overlay layer is ensured. *)
Lemma keeps_layers_press (e : MouseEvent) (r : App) :
  keeps layerState
    (c <- gets canvas ;;
     match c with
     | None => ret tt
     | Some cv =>
         modify (set_isDrawing true) ;;
         let x := (clientX e - rectLeft cv)%R in
         let y := (clientY e - rectTop cv)%R in
         modify (set_startPos (Some (x, y))) ;;
         if Tool_eqb (annotationTool r) Text then
           modify (set_textValue []) ;;
           modify (set_textInput (mkTextInput x y true)) ;;
           modify (set_isDrawing false)
         else
           (if Tool_eqb (annotationTool r) Rect
               || Tool_eqb (annotationTool r) Arrow
            then data <- orThrow (getImageData cv) ;;
                 modify (set_snapshot (Some data))
            else ret tt) ;;
           onCanvas (onCtx beginPath) ;;
           onCanvas (onCtx (moveTo (x, y))) ;;
           onCanvas (onCtx (set_strokeStyle
             (if Tool_eqb (annotationTool r) Eraser
              then lit "rgba(0,0,0,1)" else brushColor r))) ;;
           onCanvas (onCtx (set_lineWidth (brushSize r))) ;;
           onCanvas (onCtx (set_lineCap CapRound)) ;;
           onCanvas (onCtx (set_lineJoin JoinRound)) ;;
           onCanvas (onCtx (set_gco
             (if Tool_eqb (annotationTool r) Eraser
              then DestinationOut else SourceOver)))
     end).
Proof. keep_walk. Qed.

Lemma keeps_brush_ensureAnnotationLayer (r : App) :
  keeps brushSize (ensureAnnotationLayer r).
Proof. unfold ensureAnnotationLayer. keep_walk. Qed.

#[local] Hint Resolve keeps_brush_ensureAnnotationLayer : keep.

Lemma keeps_brush_handleToolSelect (tool : Tool) (r : App) :
  keeps brushSize (handleToolSelect tool r).
Proof. unfold handleToolSelect. keep_walk. Qed.

Lemma keeps_brush_startDrawing (e : MouseEvent) (r : App) :
  keeps brushSize (startDrawing e r).
Proof. unfold startDrawing. keep_walk. Qed.

Lemma keeps_brush_handleDeleteLayer (i : jsstring) (r : App) :
  keeps brushSize (handleDeleteLayer i r).
Proof.
  unfold handleDeleteLayer. apply keeps_bind.
  - apply keeps_modify. intros t. cbv zeta.
    now destruct (isActive i (activeLayerId r)).
  - intros _. keep_walk.
Qed.

(** ** Lists of layers *)

Lemma find_none_filter {A : Type} (p : A -> bool) (ls : list A) :
  find p ls = None -> filter p ls = [].
Proof.
  induction ls as [|x ls IH]; cbn; [reflexivity|].
  destruct (p x); [discriminate|exact IH].
Qed.

Lemma find_some_filter {A : Type} (p : A -> bool) (ls : list A) (x : A) :
  find p ls = Some x -> exists rest, filter p ls = x :: rest.
Proof.
  induction ls as [|y ls IH]; cbn; [discriminate|].
  destruct (p y); [|exact IH].
  intros [= ->]. now eexists.
Qed.

Lemma overlayCount_none (ls : list Layer) :
  find isOverlay ls = None -> overlayCount ls = 0%nat.
Proof.
  intros H. unfold overlayCount.
  change (fun l => streq (id l) annotationsId) with isOverlay.
  now rewrite (find_none_filter _ _ H).
Qed.

Lemma overlayCount_some (ls : list Layer) (l : Layer) :
  find isOverlay ls = Some l -> (1 <= overlayCount ls)%nat.
Proof.
  intros H. unfold overlayCount.
  change (fun l => streq (id l) annotationsId) with isOverlay.
  destruct (find_some_filter _ _ _ H) as [rest ->]. cbn. lia.
Qed.

Lemma overlayCount_cons (l : Layer) (ls : list Layer) :
  overlayCount (l :: ls)
  = if isOverlay l then S (overlayCount ls) else overlayCount ls.
Proof. unfold overlayCount, isOverlay. cbn [filter]. now destruct (streq _ _). Qed.

Lemma overlayCount_map (g : Layer -> Layer) (ls : list Layer) :
  (forall l, id (g l) = id l) ->
  overlayCount (map g ls) = overlayCount ls.
Proof.
  intros Hg. induction ls as [|l ls IH]; [reflexivity|].
  cbn [map]. rewrite !overlayCount_cons, IH. unfold isOverlay.
  now rewrite Hg.
Qed.

Lemma overlayCount_filter (p : Layer -> bool) (ls : list Layer) :
  (overlayCount (filter p ls) <= overlayCount ls)%nat.
Proof.
  induction ls as [|l ls IH]; [reflexivity|].
  cbn [filter]. destruct (p l); rewrite ?overlayCount_cons;
    destruct (isOverlay l); lia.
Qed.

Lemma id_showOverlay (l : Layer) : id (showOverlay l) = id l.
Proof. unfold showOverlay. now destruct (streq _ _). Qed.

Lemma id_toggle (i : jsstring) (l : Layer) :
  id (if streq (id l) i then flipVisible l else l) = id l.
Proof. now destruct (streq _ _). Qed.

Lemma digits_not_overlay (u : Decimal.uint) :
  streq (digits u) annotationsId = false.
Proof. destruct u; reflexivity. Qed.

Lemma numberToString_not_overlay (z : Z) :
  streq (numberToString z) annotationsId = false.
Proof.
  unfold numberToString. destruct (Z.to_int z) as [u|u];
    [apply digits_not_overlay|reflexivity].
Qed.

Lemma find_id_map (g : Layer -> Layer) (a : option jsstring)
    (ls : list Layer) :
  (forall l, id (g l) = id l) ->
  find (fun l => isActive (id l) a) (map g ls)
  = option_map g (find (fun l => isActive (id l) a) ls).
Proof.
  intros Hg. induction ls as [|l ls IH]; [reflexivity|].
  cbn [map find]. rewrite Hg, IH. now destruct (isActive (id l) a).
Qed.

(** ** The overlay layer *)

Lemma ensure_layers (r t : App) :
  layerState (snd (ensureAnnotationLayer r t))
  = ensured r (layers t) (activeLayerId t).
Proof.
  unfold ensureAnnotationLayer, ensured, isOverlay.
  destruct (find _ (layers r)) as [ex|] eqn:E; [|reflexivity].
  destruct (visible ex); cbn [negb]; [reflexivity|].
  apply find_some in E. destruct E as [_ E]. apply streq_eq in E.
  rewrite E. reflexivity.
Qed.

Lemma viaEnsure_keeps {A : Type} (r : App) (m : M A) :
  keeps layerState m -> viaEnsure r m.
Proof. intros H t. left. apply H. Qed.

Lemma viaEnsure_ensure (r : App) : viaEnsure r (ensureAnnotationLayer r).
Proof. intros t. right. apply ensure_layers. Qed.

Lemma viaEnsure_bind_l {A B : Type} (r : App) (m : M A) (k : A -> M B) :
  keeps layerState m -> (forall a, viaEnsure r (k a)) ->
  viaEnsure r (bind m k).
Proof.
  intros Hm Hk t. unfold bind. specialize (Hm t).
  destruct (m t) as [[a|] t']; cbn [snd] in *; [|now left].
  unfold layerState in Hm. injection Hm as Hl Ha.
  destruct (Hk a t') as [H|H]; [left|right]; rewrite H.
  - unfold layerState. now rewrite Hl, Ha.
  - now rewrite Hl, Ha.
Qed.

Lemma viaEnsure_bind_r {A B : Type} (r : App) (m : M A) (k : A -> M B) :
  viaEnsure r m -> (forall a, keeps layerState (k a)) ->
  viaEnsure r (bind m k).
Proof.
  intros Hm Hk t. unfold bind. specialize (Hm t).
  destruct (m t) as [[a|] t']; cbn [snd] in *; [|exact Hm].
  now rewrite (Hk a t').
Qed.

Lemma viaEnsure_handleToolSelect (tool : Tool) (r : App) :
  viaEnsure r (handleToolSelect tool r).
Proof.
  unfold handleToolSelect. apply viaEnsure_bind_l; [keep_walk|].
  intros _. destruct (negb _);
    [apply viaEnsure_ensure|apply viaEnsure_keeps; keep_walk].
Qed.

Lemma viaEnsure_startDrawing (e : MouseEvent) (r : App) :
  viaEnsure r (startDrawing e r).
Proof.
  unfold startDrawing.
  destruct (Tool_eqb (annotationTool r) Cursor);
    [apply viaEnsure_keeps; keep_walk|].
  apply viaEnsure_bind_l; [keep_walk|]. intros _.
  destruct (_ && _)%bool; [apply viaEnsure_keeps; keep_walk|].
  apply viaEnsure_bind_r; [apply viaEnsure_ensure|].
  intros _. apply keeps_layers_press.
Qed.

Lemma viaEnsure_shortcut (k : jsstring) (r : App) :
  viaEnsure r (shortcut k r).
Proof.
  unfold shortcut.
  repeat match goal with
         | |- viaEnsure _ (if ?b then _ else _) => destruct b
         end;
    try apply viaEnsure_handleToolSelect; apply viaEnsure_keeps; keep_walk.
Qed.

Lemma viaEnsure_handleKeyDown (e : KeyboardEvent) (r : App) :
  viaEnsure r (handleKeyDown e r).
Proof.
  unfold handleKeyDown.
  destruct (_ || _)%bool; [apply viaEnsure_keeps; keep_walk|].
  apply viaEnsure_bind_l; [keep_walk|]. intros _.
  apply viaEnsure_bind_l; [keep_walk|]. intros _.
  apply viaEnsure_shortcut.
Qed.

Lemma viaEnsure_step {A : Type} (ev : PageEvent) (h : App -> M A) (s : App) :
  viaEnsure s (h s) -> layerStep ev s (layerState (fire h s)).
Proof.
  intros H. unfold fire. destruct (H s) as [E|E]; rewrite E; constructor.
Qed.

Lemma keeps_step {A : Type} (ev : PageEvent) (h : App -> M A) (s : App) :
  keeps layerState (h s) -> layerStep ev s (layerState (fire h s)).
Proof. intros H. unfold fire. rewrite H. constructor. Qed.

(** How an event of the page, with the closure of the current render,
    changes the layer list and the active id. *)
Lemma page_layers (ev : PageEvent) (s : App) :
  layerStep ev s (layerState (pageHandle ev s)).
Proof.
  destruct ev as [ev|now u ty n|i|i|v|img|e]; cbn [pageHandle].
  - destruct ev as [tool|e|e| |v| | | |i|now]; cbn [handle].
    + apply viaEnsure_step, viaEnsure_handleToolSelect.
    + apply viaEnsure_step, viaEnsure_startDrawing.
    + apply keeps_step. keep_walk.
    + apply keeps_step. keep_walk.
    + exact (step_same _ s).
    + apply keeps_step. keep_walk.
    + apply keeps_step. keep_walk.
    + apply keeps_step. keep_walk.
    + rewrite handleDeleteLayer_fire. cbv zeta.
      replace (layerState _) with (deleted i (layers s) (activeLayerId s));
        [apply step_deleted|].
      unfold deleted.
      destruct (streq i annotationsId);
        destruct (isActive i (activeLayerId s)); reflexivity.
    + apply keeps_step. keep_walk.
  - exact (step_added _ s now u ty n).
  - exact (step_toggled _ s i).
  - exact (step_selected _ s i eq_refl).
  - exact (step_same _ s).
  - apply keeps_step. keep_walk.
  - apply viaEnsure_step, viaEnsure_handleKeyDown.
Qed.

Lemma show_twice (l : Layer) : show (show l) = show l.
Proof. reflexivity. Qed.

Lemma overlayInv_ensured (s : App) :
  overlayInv (layers s) ->
  overlayInv (fst (ensured s (layers s) (activeLayerId s))).
Proof.
  intros [Hn Hs]. unfold ensured.
  destruct (find isOverlay (layers s)) as [ex|] eqn:E.
  - destruct (visible ex); [now split|]. cbn [fst]. split.
    + now rewrite (overlayCount_map _ _ id_showOverlay).
    + apply Forall_map. revert Hs. apply Forall_impl. intros l Hl.
      unfold overlayShape, showOverlay, isOverlay in *.
      destruct (streq (id l) annotationsId) eqn:El; [|now rewrite El].
      intros _. rewrite show_twice. now apply Hl.
  - cbn [fst]. split.
    + rewrite overlayCount_cons, (overlayCount_none _ E).
      change (isOverlay annotationLayer0) with true. cbv iota. lia.
    + constructor; [|exact Hs]. intros _. reflexivity.
Qed.

Lemma overlayInv_step (ev : PageEvent) (s : App)
    (st : list Layer * option jsstring) :
  layerStep ev s st -> overlayInv (layers s) -> overlayInv (fst st).
Proof.
  intros Hst H.
  destruct Hst as [| |i|now u ty n|i|i _]; unfold deleted; cbn [fst].
  - exact H.
  - now apply overlayInv_ensured.
  - destruct H as [Hn Hs]. split.
    + pose proof (overlayCount_filter
                    (fun l => negb (streq (id l) i)) (layers s)). lia.
    + apply Forall_forall. intros l Hl. apply filter_In in Hl.
      rewrite Forall_forall in Hs. now apply Hs.
  - destruct H as [Hn Hs]. split.
    + rewrite overlayCount_cons. unfold isOverlay, newLayerAt. cbn [id].
      now rewrite numberToString_not_overlay.
    + constructor; [|exact Hs]. unfold overlayShape, isOverlay, newLayerAt.
      cbn [id]. now rewrite numberToString_not_overlay.
  - destruct H as [Hn Hs]. unfold toggled. split.
    + now rewrite (overlayCount_map _ _ (id_toggle i)).
    + apply Forall_map. revert Hs. apply Forall_impl. intros l Hl.
      unfold overlayShape, isOverlay in *. rewrite id_toggle.
      intros Ho. destruct (streq (id l) i); [|now apply Hl].
      change (show (flipVisible l)) with (show l). now apply Hl.
  - exact H.
Qed.

Lemma filter_others_showOverlay (ls : list Layer) :
  filter (fun l => negb (isOverlay l)) (map showOverlay ls)
  = filter (fun l => negb (isOverlay l)) ls.
Proof.
  induction ls as [|l ls IH]; [reflexivity|].
  cbn [map filter]. rewrite IH. unfold isOverlay.
  rewrite id_showOverlay. unfold showOverlay.
  now destruct (streq (id l) annotationsId).
Qed.

Lemma find_overlay_shown (ls : list Layer) :
  find isOverlay (map showOverlay ls)
  = option_map showOverlay (find isOverlay ls).
Proof. exact (find_id_map showOverlay (Some annotationsId) ls id_showOverlay). Qed.

(** X5. After [ensureAnnotationLayer] (with the closure of the current
    render) the first layer that carries the overlay's id is visible; the
    layers that are not the overlay are the same, in the same order; the
    overlay is added only when there was none; the active id stays or
    becomes the overlay's; and with a visible overlay present the call
    changes nothing. *)
Theorem ensureAnnotationLayer_post (s : App) :
  let s' := fire ensureAnnotationLayer s in
  (exists l, find isOverlay (layers s') = Some l /\ visible l = true) /\
  filter (fun l => negb (isOverlay l)) (layers s')
    = filter (fun l => negb (isOverlay l)) (layers s) /\
  overlayCount (layers s') = Nat.max 1 (overlayCount (layers s)) /\
  (activeLayerId s' = activeLayerId s \/
   activeLayerId s' = Some annotationsId) /\
  (forall l, find isOverlay (layers s) = Some l -> visible l = true ->
             s' = s).
Proof.
  intros s'.
  pose proof (ensure_layers s s) as Hst. fold (fire ensureAnnotationLayer s) in Hst.
  fold s' in Hst. unfold layerState, ensured in Hst.
  destruct (find isOverlay (layers s)) as [ex|] eqn:E.
  - pose proof (overlayCount_some _ _ E) as Hone.
    destruct (visible ex) eqn:V; injection Hst as Hl Ha; rewrite Hl.
    + split; [now exists ex|]. split; [reflexivity|].
      split; [lia|]. split; [now left|].
      intros _ _ _. unfold s', fire, ensureAnnotationLayer.
      change (fun l => streq (id l) annotationsId) with isOverlay.
      now rewrite E, V.
    + split.
      { exists (showOverlay ex). rewrite find_overlay_shown, E.
        split; [reflexivity|].
        apply find_some in E. destruct E as [_ E].
        unfold showOverlay. unfold isOverlay in E. now rewrite E. }
      split; [apply filter_others_showOverlay|].
      split; [rewrite (overlayCount_map _ _ id_showOverlay); lia|].
      split; [now right|].
      intros l [= <-] Hv. congruence.
  - injection Hst as Hl Ha. rewrite Hl.
    split; [now exists annotationLayer0|].
    split; [reflexivity|].
    split.
    { rewrite overlayCount_cons, (overlayCount_none _ E).
      change (isOverlay annotationLayer0) with true. reflexivity. }
    split; [now right|]. discriminate.
Qed.

(** X6. At most one layer carries the overlay's id, and a layer that
    does is the overlay as [ensureAnnotationLayer] makes it (type
    [segment], name Annotations, no url, opacity 1), shown or hidden:
    every event of the page, handled with the closure of the current
    render, keeps both. Layers are added with a decimal time stamp as id,
    never the overlay's. (The keyboard listener can hold an older
    closure; the next property is about that.) *)
Theorem overlay_layer_invariant (ev : PageEvent) (s : App) :
  overlayInv (layers s) -> overlayInv (layers (pageHandle ev s)).
Proof.
  intros H. exact (overlayInv_step ev s _ (page_layers ev s) H).
Qed.

(** ** Shortcuts *)

Lemma toolKey_shortcut (k : jsstring) (r : App) :
  isToolKey k = true ->
  exists tool, tool <> Cursor /\ shortcut k r = handleToolSelect tool r.
Proof.
  unfold shortcut, isToolKey.
  destruct (streq k (lit "v")) eqn:Ev.
  { apply streq_eq in Ev. subst k. intros H. cbv in H. discriminate H. }
  destruct (streq k (lit "b"));
    [intros _; exists Brush; split; [discriminate|reflexivity]|].
  destruct (streq k (lit "e"));
    [intros _; exists Eraser; split; [discriminate|reflexivity]|].
  destruct (streq k (lit "t"));
    [intros _; exists Text; split; [discriminate|reflexivity]|].
  destruct (streq k (lit "r"));
    [intros _; exists Rect; split; [discriminate|reflexivity]|].
  destruct (streq k (lit "a"));
    [intros _; exists Arrow; split; [discriminate|reflexivity]|].
  intros H. discriminate H.
Qed.

Lemma toolKey_not_undo (k : jsstring) :
  isToolKey (toLowerCase k) = true ->
  streq k (lit "z") = false /\ streq k (lit "y") = false.
Proof.
  intros H.
  split; (destruct (streq k _) eqn:E;
          [apply streq_eq in E; subst k; cbv in H; discriminate H
          |reflexivity]).
Qed.

(** A key that is neither z nor y, outside a field: the switch alone. *)
Lemma handleKeyDown_plain (e : KeyboardEvent) (r t : App) :
  inField e = false ->
  streq (key e) (lit "z") = false -> streq (key e) (lit "y") = false ->
  handleKeyDown e r t = shortcut (toLowerCase (key e)) r t.
Proof.
  intros Hf Hz Hy. unfold handleKeyDown.
  change (streq (targetTag e) (lit "INPUT")
          || streq (targetTag e) (lit "TEXTAREA"))%bool with (inField e).
  rewrite Hf, Hz, Hy, !andb_false_r. reflexivity.
Qed.

(** X7. The keyboard handler is registered again only when the history
    or its cursor changes, so its closure can hold an older layer list.
    When that list has no overlay, a tool key (b, e, t, r or a, in either
    case, outside a field) prepends a new overlay layer to the current
    list and makes it active, whether or not the current list has one
    already: pressing such a key twice from the first render leaves two
    layers with the overlay's id. *)
Theorem stale_shortcut_adds_overlay (e : KeyboardEvent) (r t : App) :
  inField e = false -> isToolKey (toLowerCase (key e)) = true ->
  find isOverlay (layers r) = None ->
  let t' := fireFrom (handleKeyDown e) r t in
  layers t' = annotationLayer0 :: layers t /\
  activeLayerId t' = Some annotationsId /\
  overlayCount (layers t') = S (overlayCount (layers t)).
Proof.
  intros Hf Hk Hn t'.
  destruct (toolKey_not_undo _ Hk) as [Hz Hy].
  destruct (toolKey_shortcut _ r Hk) as (tool & Htool & Hs).
  assert (Ht' : layerState t'
                = (annotationLayer0 :: layers t, Some annotationsId)).
  { unfold t', fireFrom. rewrite (handleKeyDown_plain e r t Hf Hz Hy), Hs.
    unfold handleToolSelect. rewrite (tool_not _ _ Htool). cbn [negb].
    rewrite run_modify, ensure_layers.
    unfold ensured. now rewrite Hn. }
  unfold layerState in Ht'. injection Ht' as Hl Ha.
  split; [exact Hl|]. split; [exact Ha|].
  rewrite Hl, overlayCount_cons. reflexivity.
Qed.

(** ** The active layer *)

Lemma find_keep_filter (p q : Layer -> bool) (ls : list Layer) :
  (forall l, p l = true -> q l = true) ->
  find p (filter q ls) = find p ls.
Proof.
  intros H. induction ls as [|l ls IH]; [reflexivity|].
  cbn [filter find]. destruct (p l) eqn:Ep.
  - rewrite (H l Ep). cbn [find]. now rewrite Ep.
  - destruct (q l); [cbn [find]; now rewrite Ep|exact IH].
Qed.

Lemma find_in_ids (i : jsstring) (ls : list Layer) :
  In i (map id ls) -> find (fun l => isActive (id l) (Some i)) ls <> None.
Proof.
  induction ls as [|l ls IH]; [intros []|].
  cbn [map In find isActive]. intros [H|H].
  - rewrite H, streq_refl. discriminate.
  - destruct (streq (id l) i); [discriminate|now apply IH].
Qed.

Lemma validIn_step (ev : PageEvent) (s : App)
    (st : list Layer * option jsstring) :
  layerStep ev s st ->
  (forall i, ev = EvSelect i -> In i (map id (layers s))) ->
  validIn (layerState s) -> validIn st.
Proof.
  intros Hst Hsel H. unfold validIn, layerState in H. cbn [fst snd] in H.
  destruct Hst as [| |i|now u ty n|i|i Hev]; unfold validIn.
  - exact H.
  - unfold ensured. destruct (find isOverlay (layers s)) as [ex|] eqn:E.
    + destruct (visible ex); [exact H|]. right. cbn [fst snd].
      rewrite (find_id_map showOverlay _ _ id_showOverlay).
      change (fun l => isActive (id l) (Some annotationsId)) with isOverlay.
      rewrite E. discriminate.
    + right. cbn [fst snd find].
      change (isActive (id annotationLayer0) (Some annotationsId)) with true.
      discriminate.
  - unfold deleted. cbn [fst snd].
    destruct (isActive i (activeLayerId s)) eqn:Ei.
    + destruct (filter _ (layers s)) as [|l f]; [now left|].
      cbn [firstIdOrNull]. destruct (truthy (id l)); [|now left].
      right. cbn [find isActive]. rewrite streq_refl. discriminate.
    + destruct (activeLayerId s) as [j|]; [|now left].
      destruct H as [H|H]; [discriminate H|]. right.
      rewrite find_keep_filter; [exact H|].
      intros l Hl. cbn [isActive] in Hl, Ei. apply streq_eq in Hl.
      destruct (streq (id l) i) eqn:El; [|reflexivity].
      apply streq_eq in El. subst j. rewrite <- El, streq_refl in Ei.
      discriminate Ei.
  - right. unfold newLayerAt. cbn [fst snd find id isActive].
    rewrite streq_refl. discriminate.
  - unfold toggled. cbn [fst snd]. destruct H as [H|H]; [now left|]. right.
    rewrite (find_id_map _ _ _ (id_toggle i)).
    destruct (find _ (layers s)); [discriminate|contradiction].
  - right. cbn [fst snd]. now apply find_in_ids, Hsel.
Qed.

(** X8. The active id is null or names a layer of the list: every event
    of the page, handled with the closure of the current render, keeps
    this, a selection being of a layer the panel lists. Deleting a layer
    leaves the layers of other ids, in their order; when the deleted layer
    was the active one the selection moves to the first layer left, or to
    null when none is left or its id is empty, and otherwise it stays. *)
Theorem active_layer_exists (ev : PageEvent) (s : App) :
  (forall i, ev = EvSelect i -> In i (map id (layers s))) ->
  activeValid s ->
  activeValid (pageHandle ev s) /\
  (forall i, ev = EvApp (EvDeleteLayer i) ->
     layers (pageHandle ev s)
       = filter (fun l => negb (streq (id l) i)) (layers s) /\
     activeLayerId (pageHandle ev s)
       = if isActive i (activeLayerId s)
         then match filter (fun l => negb (streq (id l) i)) (layers s) with
              | l :: _ => match id l with
                          | [] => None
                          | _ :: _ => Some (id l)
                          end
              | [] => None
              end
         else activeLayerId s).
Proof.
  intros Hsel H. split.
  - exact (validIn_step ev s _ (page_layers ev s) Hsel H).
  - intros i ->. cbn [pageHandle handle]. rewrite handleDeleteLayer_fire.
    cbv zeta.
    destruct (streq i annotationsId);
      destruct (isActive i (activeLayerId s));
      cbn [layers activeLayerId set_canvas set_historyStep set_history
           set_layers set_activeLayerId];
      (split; [reflexivity|]);
      try reflexivity;
      destruct (filter _ (layers s)) as [|l f]; try reflexivity;
      cbn [firstIdOrNull]; now destruct (id l).
Qed.

(** ** The keyboard *)

Lemma streq_neq (a b : jsstring) : a <> b -> streq a b = false.
Proof.
  intros H. destruct (streq a b) eqn:E; [|reflexivity].
  now apply streq_eq in E.
Qed.

Lemma shortcut_unbound (k : jsstring) (r : App) :
  boundKey k = false -> shortcut k r = ret tt.
Proof.
  unfold boundKey, isToolKey. intros H.
  repeat match type of H with
         | (_ || _)%bool = false =>
             apply orb_false_iff in H; destruct H as [H ?]
         end.
  unfold shortcut.
  repeat match goal with
         | Hx : streq k _ = false |- _ => rewrite Hx; clear Hx
         end.
  reflexivity.
Qed.

Lemma handleUndo_closure (r t : App) :
  history r = history t -> historyStep r = historyStep t ->
  handleUndo r = handleUndo t.
Proof. intros H1 H2. unfold handleUndo. now rewrite H1, H2. Qed.

Lemma handleRedo_closure (r t : App) :
  history r = history t -> historyStep r = historyStep t ->
  handleRedo r = handleRedo t.
Proof. intros H1 H2. unfold handleRedo. now rewrite H1, H2. Qed.

Lemma unit_bind_ret (m : M unit) (t : App) :
  snd (bind m (fun _ => bind (ret tt) (fun _ => ret tt)) t) = snd (m t).
Proof. unfold bind. destruct (m t) as [[[]|] t']; reflexivity. Qed.

Lemma unit_ret_bind (m : M unit) (t : App) :
  snd (bind (ret tt) (fun _ => bind m (fun _ => ret tt)) t) = snd (m t).
Proof. unfold bind, ret. destruct (m t) as [[[]|] t']; reflexivity. Qed.

(** X9. Undo and redo from the keyboard. The handler's closure is of the
    render of the last change of the history or its cursor, and that is
    enough: outside a field, with Ctrl or Meta held, the key z without
    Shift does what [handleUndo] of the current render does, and the key
    y, or the key z with Shift, what [handleRedo] does, whatever else of
    the closure is out of date. *)
Theorem keyboard_undo_redo (e : KeyboardEvent) (r t : App) :
  inField e = false -> (ctrlKey e || metaKey e)%bool = true ->
  history r = history t -> historyStep r = historyStep t ->
  (key e = lit "z" -> shiftKey e = false ->
   fireFrom (handleKeyDown e) r t = fire handleUndo t) /\
  (key e = lit "y" \/ (key e = lit "z" /\ shiftKey e = true) ->
   fireFrom (handleKeyDown e) r t = fire handleRedo t).
Proof.
  intros Hf Hm Hh Hs.
  assert (Hz : shortcut (toLowerCase (lit "z")) r = ret tt) by reflexivity.
  assert (Hy : shortcut (toLowerCase (lit "y")) r = ret tt) by reflexivity.
  assert (Ezz : streq (lit "z") (lit "z") = true) by reflexivity.
  assert (Ezy : streq (lit "z") (lit "y") = false) by reflexivity.
  assert (Eyz : streq (lit "y") (lit "z") = false) by reflexivity.
  assert (Eyy : streq (lit "y") (lit "y") = true) by reflexivity.
  unfold fireFrom, fire, handleKeyDown.
  change (streq (targetTag e) (lit "INPUT")
          || streq (targetTag e) (lit "TEXTAREA"))%bool with (inField e).
  rewrite Hf, Hm. split.
  - intros Hk Hshift. rewrite Hk, Hshift, Hz, Ezz, Ezy. cbn [andb orb negb].
    rewrite (handleUndo_closure r t Hh Hs). apply unit_bind_ret.
  - intros [Hk|[Hk Hshift]].
    + rewrite Hk, Hy, Eyz, Eyy.
      destruct (shiftKey e); cbn [andb orb negb];
        rewrite (handleRedo_closure r t Hh Hs); apply unit_ret_bind.
    + rewrite Hk, Hshift, Hz, Ezz, Ezy. cbn [andb orb negb].
      rewrite (handleRedo_closure r t Hh Hs). apply unit_ret_bind.
Qed.

(** X10. A key pressed in an input or a textarea changes nothing, and
    neither does a key that is not exactly z or y and whose lower case is
    none of v, b, e, t, r, a and the two brackets, whatever the modifiers
    and the closure. The comparison with z is of the key as reported: the
    capital Z changes nothing, with Ctrl and Shift held or not. *)
Theorem unbound_key_changes_nothing (e : KeyboardEvent) (r t : App) :
  inField e = true \/
  (key e <> lit "z" /\ key e <> lit "y" /\
   boundKey (toLowerCase (key e)) = false) ->
  fireFrom (handleKeyDown e) r t = t.
Proof.
  intros [Hf|(Hz & Hy & Hb)]; unfold fireFrom.
  - unfold handleKeyDown.
    change (streq (targetTag e) (lit "INPUT")
            || streq (targetTag e) (lit "TEXTAREA"))%bool with (inField e).
    now rewrite Hf.
  - destruct (inField e) eqn:Hf.
    + unfold handleKeyDown.
      change (streq (targetTag e) (lit "INPUT")
              || streq (targetTag e) (lit "TEXTAREA"))%bool with (inField e).
      now rewrite Hf.
    + rewrite (handleKeyDown_plain e r t Hf (streq_neq _ _ Hz)
                 (streq_neq _ _ Hy)).
      now rewrite (shortcut_unbound _ r Hb).
Qed.

(** ** The brush size *)

Lemma handle_brush (ev : Event) (s : App) :
  brushSize (handle ev s) = brushSize s.
Proof.
  destruct ev as [tool|e|e| |v| | | |i|now]; cbn [handle]; unfold fire.
  - exact (keeps_brush_handleToolSelect tool s s).
  - exact (keeps_brush_startDrawing e s s).
  - exact (keeps_brush _ (keeps_panel_draw e s) s).
  - exact (keeps_brush _ (keeps_panel_stopDrawing s) s).
  - reflexivity.
  - exact (keeps_brush _ (keeps_panel_commitText s) s).
  - exact (keeps_brush _ (keeps_panel_handleUndo s) s).
  - exact (keeps_brush _ (keeps_panel_handleRedo s) s).
  - exact (keeps_brush_handleDeleteLayer i s s).
  - exact (keeps_brush _ (keeps_panel_handleExport now s) s).
Qed.

Lemma brush_keeps {A : Type} (m : M A) :
  keeps brushSize m -> preserves brushInRange m.
Proof.
  intros H. exact (keeps_preserves brushSize (fun z => 1 <= z <= 50) m H).
Qed.

Lemma shortcut_brush (k : jsstring) (r : App) :
  preserves brushInRange (shortcut k r).
Proof.
  unfold shortcut.
  repeat match goal with
         | |- preserves _ (if ?b then _ else _) => destruct b
         end;
    try (apply brush_keeps, keeps_brush_handleToolSelect);
    try apply preserves_ret;
    apply preserves_modify; intros t Ht; unfold brushInRange in *;
    cbn [brushSize set_brushSize]; lia.
Qed.

Lemma handleKeyDown_brush (e : KeyboardEvent) (r : App) :
  preserves brushInRange (handleKeyDown e r).
Proof.
  unfold handleKeyDown.
  destruct (_ || _)%bool; [apply preserves_ret|].
  apply preserves_bind.
  { destruct (_ && _)%bool; [|apply preserves_ret].
    apply brush_keeps, keeps_brush, keeps_panel_handleUndo. }
  intros _. apply preserves_bind.
  { destruct (_ || _)%bool; [|apply preserves_ret].
    apply brush_keeps, keeps_brush, keeps_panel_handleRedo. }
  intros _. apply shortcut_brush.
Qed.

(** X11. The brush size stays between 1 and 50: the bracket keys move it
    by 2 and clamp it to these bounds, the slider sets it to a value of
    its range (2 to 20), and no other event of the page writes it. *)
Theorem brush_size_in_range (ev : PageEvent) (s : App) :
  (forall v, ev = EvSlide v -> 2 <= v <= 20) ->
  brushInRange s -> brushInRange (pageHandle ev s).
Proof.
  intros Hv H. destruct ev as [ev|now u ty n|i|i|v|img|e]; cbn [pageHandle].
  - unfold brushInRange. now rewrite handle_brush.
  - exact H.
  - exact H.
  - exact H.
  - specialize (Hv v eq_refl). unfold brushInRange, fire. cbn. lia.
  - unfold brushInRange, fire.
    now rewrite (keeps_brush _ (keeps_panel_updateCanvasSize img s) s).
  - exact (handleKeyDown_brush e s s H).
Qed.

(** ** Resizing the overlay *)

Lemma resize_run (r t : App) (cv : Canvas) (w h : nat) :
  canvas t = Some cv -> (cwidth cv, cheight cv) <> (w, h) ->
  snd (updateCanvasSize (Some (w, h)) r t)
  = set_canvas (Some (resized r w h cv)) t.
Proof.
  intros Hc Hne. unfold updateCanvasSize. rewrite run_gets, Hc.
  assert (Hb : (negb (Nat.eqb (cwidth cv) w)
                || negb (Nat.eqb (cheight cv) h))%bool = true).
  { destruct (Nat.eqb_spec (cwidth cv) w) as [Ew|Ew]; [|reflexivity].
    destruct (Nat.eqb_spec (cheight cv) h) as [Eh|Eh]; [|reflexivity].
    exfalso. apply Hne. now rewrite Ew, Eh. }
  rewrite Hb.
  rewrite (bind_onCanvas _ _ t cv Hc).
  rewrite (bind_onCanvas _ _ (set_canvas (Some (setWidth w cv)) t)
             (setWidth w cv) eq_refl).
  rewrite set_canvas_twice. unfold resized. cbv zeta.
  change (setHeight h (setWidth w cv))
    with (mkCanvas w h (rectLeft cv) (rectTop cv) Transparent ctx0).
  destruct (0 <=? historyStep r).
  - destruct (index (history r) (historyStep r)) as [snap|].
    + erewrite run_onCanvas by reflexivity.
      cbn [snd]. now rewrite set_canvas_twice.
    + reflexivity.
  - reflexivity.
Qed.

(** X12. [updateCanvasSize] on a mounted overlay. With the size of the
    image unchanged it does nothing. Otherwise the overlay gets the new
    size and a fresh drawing state, and it shows the history entry at the
    cursor of the closure the call was made with (a raw copy into the
    cleared canvas, clipped or padded when the entry has another size),
    or nothing when that cursor is below 0 or outside that history:
    whatever the overlay showed before is gone. Nothing but the canvas
    changes. *)
Theorem resize_shows_closure_entry (r t : App) (cv : Canvas) (w h : nat) :
  canvas t = Some cv ->
  let t' := fireFrom (updateCanvasSize (Some (w, h))) r t in
  if (Nat.eqb (cwidth cv) w && Nat.eqb (cheight cv) h)%bool then t' = t
  else
    exists c', t' = set_canvas (Some c') t /\
      cwidth c' = w /\ cheight c' = h /\ ctx c' = ctx0 /\
      bitmap c' =
        match (if 0 <=? historyStep r
               then index (history r) (historyStep r) else None) with
        | Some snap =>
            if (Nat.eqb (iwidth snap) w && Nat.eqb (iheight snap) h)%bool
            then idata snap
            else Patched (iwidth snap) (iheight snap) (idata snap) Transparent
        | None => Transparent
        end.
Proof.
  intros Hc t'. unfold t', fireFrom.
  destruct (Nat.eqb_spec (cwidth cv) w) as [Ew|Ew].
  - destruct (Nat.eqb_spec (cheight cv) h) as [Eh|Eh]; cbn [andb].
    + unfold updateCanvasSize. rewrite run_gets, Hc.
      apply Nat.eqb_eq in Ew, Eh. now rewrite Ew, Eh.
    + rewrite (resize_run r t cv w h Hc) by congruence.
      exists (resized r w h cv). split; [reflexivity|]. unfold resized.
      cbv zeta. destruct (0 <=? historyStep r); [|now repeat split].
      destruct (index (history r) (historyStep r)) as [snap|];
        [|now repeat split].
      unfold putImageData. cbn [cwidth cheight].
      destruct (_ && _)%bool; now repeat split.
  - cbn [andb]. rewrite (resize_run r t cv w h Hc) by congruence.
    exists (resized r w h cv). split; [reflexivity|]. unfold resized.
    cbv zeta. destruct (0 <=? historyStep r); [|now repeat split].
    destruct (index (history r) (historyStep r)) as [snap|];
      [|now repeat split].
    unfold putImageData. cbn [cwidth cheight].
    destruct (_ && _)%bool; now repeat split.
Qed.

(** X13. A change of size and back. When the entry at the closure's
    cursor has the size of the overlay, resizing the overlay to another
    size and then to its own again leaves it showing exactly that entry,
    with a fresh drawing state; in between it shows the entry clipped or
    padded. The history and its cursor are the same throughout. *)
Theorem resize_round_trip (r t : App) (cv : Canvas) (snap : ImageData)
    (w' h' : nat) :
  canvas t = Some cv ->
  0 <= historyStep r -> index (history r) (historyStep r) = Some snap ->
  iwidth snap = cwidth cv -> iheight snap = cheight cv ->
  (cwidth cv, cheight cv) <> (w', h') ->
  let t1 := fireFrom (updateCanvasSize (Some (w', h'))) r t in
  let t2 := fireFrom (updateCanvasSize (Some (cwidth cv, cheight cv))) r t1 in
  (exists c1, canvas t1 = Some c1 /\ cwidth c1 = w' /\ cheight c1 = h' /\
     bitmap c1
       = Patched (iwidth snap) (iheight snap) (idata snap) Transparent) /\
  (exists c2, canvas t2 = Some c2 /\
     cwidth c2 = cwidth cv /\ cheight c2 = cheight cv /\
     bitmap c2 = idata snap /\ ctx c2 = ctx0) /\
  history t2 = history t /\ historyStep t2 = historyStep t.
Proof.
  intros Hc Hk Hi Hw Hh Hne t1 t2.
  assert (Hb : (0 <=? historyStep r) = true) by (now apply Z.leb_le).
  assert (H1 : t1 = set_canvas (Some (resized r w' h' cv)) t)
    by (apply resize_run; assumption).
  assert (Hr1 : resized r w' h' cv
                = mkCanvas w' h' (rectLeft cv) (rectTop cv)
                    (Patched (iwidth snap) (iheight snap) (idata snap)
                       Transparent) ctx0).
  { unfold resized. cbv zeta. rewrite Hb, Hi. unfold putImageData.
    cbn [cwidth cheight]. rewrite Hw, Hh.
    destruct (Nat.eqb_spec (cwidth cv) w') as [Ew|Ew];
      [|reflexivity].
    destruct (Nat.eqb_spec (cheight cv) h') as [Eh|Eh];
      [|reflexivity].
    exfalso. apply Hne. now rewrite Ew, Eh. }
  assert (H2 : t2 = set_canvas
                      (Some (resized r (cwidth cv) (cheight cv)
                               (resized r w' h' cv))) t1).
  { apply resize_run; [now rewrite H1|]. rewrite Hr1. cbn [cwidth cheight].
    intros E. apply Hne. now symmetry. }
  clearbody t1 t2. subst t1 t2. rewrite set_canvas_twice.
  split.
  { eexists. split; [reflexivity|]. rewrite Hr1. now repeat split. }
  split; [|now split].
  assert (Hr2 : resized r (cwidth cv) (cheight cv) (resized r w' h' cv)
                = mkCanvas (cwidth cv) (cheight cv)
                    (rectLeft (resized r w' h' cv))
                    (rectTop (resized r w' h' cv)) (idata snap) ctx0).
  { unfold resized at 1. cbv zeta. rewrite Hb, Hi. unfold putImageData.
    cbn [cwidth cheight]. rewrite Hw, Hh, !Nat.eqb_refl. reflexivity. }
  eexists. split; [reflexivity|]. rewrite Hr2. repeat split.
Qed.

(** ** The layer an export takes *)

Lemma find_ext_in {A : Type} (p q : A -> bool) (ls : list A) :
  (forall x, In x ls -> p x = q x) -> find p ls = find q ls.
Proof.
  induction ls as [|x ls IH]; [reflexivity|]. intros H.
  cbn [find]. rewrite (H x (or_introl eq_refl)), IH; [reflexivity|].
  intros y Hy. apply H. now right.
Qed.

(** X14. Without segmentation results the export is of the layer the
    page displays. When the layers of type [segment] are exactly those
    with the overlay's id, the base layer [handleExport] chooses is the
    [displayLayer] of the same render: the active layer unless it is the
    overlay, and otherwise the first visible layer that is not the
    overlay. *)
Theorem export_layer_is_displayed (s : App) :
  (forall l, In l (layers s) ->
     (type l = TSegment <-> id l = annotationsId)) ->
  exportLayer s = displayLayer s.
Proof.
  intros H. unfold exportLayer, displayLayer, activeLayer.
  rewrite find_active.
  assert (Hf : find isVisibleImage (layers s)
               = find (fun l => negb (streq (id l) annotationsId) && visible l)
                   (layers s)).
  { apply find_ext_in. intros l Hl. unfold isVisibleImage.
    f_equal. f_equal. specialize (H l Hl).
    destruct (streq (id l) annotationsId) eqn:E.
    - apply streq_eq in E. apply H in E. now rewrite E.
    - destruct (type l) eqn:Et; try reflexivity.
      assert (Hid : id l = annotationsId) by (now apply H).
      apply streq_eq in Hid. congruence. }
  rewrite Hf.
  destruct (find (fun l => isActive (id l) (activeLayerId s)) (layers s))
    as [l|]; [|reflexivity].
  now destruct (streq (id l) annotationsId).
Qed.

(** ** The service and the prompt panel *)

Lemma rethrow_message {A : Type} (fallback : jsstring) (o : Outcome A)
    (m : option jsstring) :
  truthy fallback = true -> rethrow fallback o = RejectedWith m ->
  exists s, m = Some s /\ truthy s = true.
Proof.
  intros Hf. destruct o as [a|[s|]]; cbn [rethrow]; [discriminate| |].
  - intros [= <-]. eexists. split; [reflexivity|].
    destruct (truthy s) eqn:E; [exact E|exact Hf].
  - intros [= <-]. now eexists.
Qed.

Lemma ensureApiKey_message (model : ModelTier) (a : option AIStudio)
    (m : option jsstring) :
  ensureApiKey model a = RejectedWith m ->
  exists s, m = Some s /\ truthy s = true.
Proof.
  unfold ensureApiKey. destruct model; [discriminate|].
  destruct a as [host|]; [|discriminate].
  destruct (hasKeyBefore host); [discriminate|].
  destruct (hasKeyAfter host); [discriminate|].
  cbn [negb]. intros [= <-]. now eexists.
Qed.

(** X15. A call of the service that fails always carries a message that
    is not empty: the one of [ensureApiKey], the one of the error the API
    call rejected with, the one for a response without inline data, or
    the fallback of the [catch] when the API's error has no message or an
    empty one. So the error toast of [handleAction] shows that message,
    and never its own fallback. *)
Theorem service_rejection_has_message (h : Host) (c : Call)
    (m : option jsstring) :
  awaitCall h c = RejectedWith m ->
  exists s, m = Some s /\ truthy s = true /\
    forall now now' p t,
      toasts (appState (actionEnd now now' p (RejectedWith m) t))
      = toasts (appState t) ++ [mkToast now' s Error].
Proof.
  intros H.
  assert (Hm : exists s, m = Some s /\ truthy s = true).
  { destruct c as [p model|i p model]; cbn [awaitCall] in H;
      [unfold generateImage in H|unfold editImage in H];
      destruct (ensureApiKey model (aistudio h)) as [b|m'] eqn:E;
      try (injection H as <-; exact (ensureApiKey_message _ _ _ E));
      (refine (rethrow_message _ _ _ _ H); reflexivity). }
  destruct Hm as (s & -> & Hs). exists s. split; [reflexivity|].
  split; [exact Hs|]. intros now now' p t.
  unfold actionEnd. rewrite Hs. reflexivity.
Qed.

Lemma firstInline_found (d : InlineData) (response : Response) :
  firstInlineIs d response ->
  firstInline (responseParts response)
  = Some (dataURI (templ (mimeType d)) (templ (data d))).
Proof.
  intros (pre & post & tx & -> & Hpre).
  induction Hpre as [|part pre Hp _ IH]; [reflexivity|].
  cbn [List.app firstInline]. now rewrite Hp.
Qed.

Lemma cleanBase64_of_listed (mime b64 : jsstring) :
  listedType mime = true -> cleanBase64 (dataURI mime b64) = b64.
Proof.
  unfold listedType. intros H.
  destruct (cleanBase64_listed b64) as (Hpng & Hjpeg & Hwebp).
  apply orb_true_iff in H. destruct H as [H|H].
  - apply orb_true_iff in H. destruct H as [H|H];
      apply streq_eq in H; now subst mime.
  - apply streq_eq in H. now subst mime.
Qed.

Lemma candidate_added (now : Z) (u : jsstring) (ty : LayerType)
    (n : jsstring) (ls : list Layer) :
  find (isExportCandidate (Some (numberToString now)))
    (newLayerAt now u ty n :: ls)
  = Some (newLayerAt now u ty n).
Proof.
  cbn [find]. unfold isExportCandidate, newLayerAt at 1 2.
  cbn [id isActive]. now rewrite streq_refl, numberToString_not_overlay.
Qed.

(** The first action after a layer was added, in edit mode. *)
Lemma edit_after_add (now now2 : Z) (u : jsstring) (ty : LayerType)
    (n : jsstring) (ls : list Layer) (r : Page) :
  layers (appState r) = newLayerAt now u ty n :: ls ->
  activeLayerId (appState r) = Some (numberToString now) ->
  mode r = EDIT -> truthy (trim (prompt r)) = true ->
  actionBegin now2 r r
  = (Some (mkPending (CallEdit u (withNegative r) (modelTier r)) TImage
             (lit "Edit: " ++ n)),
     set_isProcessing true r).
Proof.
  intros Hl Ha Hm Hp. unfold actionBegin.
  rewrite Hp, Hm, Hl, Ha, candidate_added. reflexivity.
Qed.

(** X16. From a generation to an edit of its result. A generate action
    with a prompt that is not blank, a key check that passes and a
    response whose first part with inline data has a listed type (png,
    jpeg or webp) puts a generation layer with the data URI of that part
    on top of the layers of the time, makes it active, clears the prompt
    and ends the processing. An edit action after it (edit mode, a new
    prompt, layers and selection as the generation left them) asks for
    an edit of that layer, and the request carries exactly the base64
    data the response had, labelled image/png whatever type it had. *)
Theorem generate_then_edit (h : Host) (r t r2 : Page) (now0 now now' now2 : Z)
    (response : Response) (mime b64 : jsstring) (dialog : bool) :
  mode r = GENERATE -> truthy (trim (prompt r)) = true ->
  ensureApiKey (modelTier r) (aistudio h) = Fulfilled dialog ->
  generateContent h
    (GenReq (generateImageRequest (withNegative r) (modelTier r) (lit "1:1")))
    = Fulfilled response ->
  firstInlineIs (mkInlineData (Some mime) (Some b64)) response ->
  listedType mime = true ->
  let name := lit "Gen: " ++ slice0 (prompt r) 15 ++ lit "..." in
  let p := mkPending (CallGenerate (withNegative r) (modelTier r))
             TGeneration name in
  let t2 := actionEnd now now' p (awaitCall h (call p)) t in
  layers (appState r2) = layers (appState t2) ->
  activeLayerId (appState r2) = activeLayerId (appState t2) ->
  mode r2 = EDIT -> truthy (trim (prompt r2)) = true ->
  actionBegin now0 r r = (Some p, set_isProcessing true r) /\
  awaitCall h (call p) = Fulfilled (dataURI mime b64) /\
  layers (appState t2)
    = newLayerAt now (dataURI mime b64) TGeneration name
        :: layers (appState t) /\
  activeLayerId (appState t2) = Some (numberToString now) /\
  prompt t2 = [] /\ isProcessing t2 = false /\
  actionBegin now2 r2 r2
    = (Some (mkPending
               (CallEdit (dataURI mime b64) (withNegative r2) (modelTier r2))
               TImage (lit "Edit: " ++ name)),
       set_isProcessing true r2) /\
  editImageRequest (dataURI mime b64) (withNegative r2) (modelTier r2)
    = mkEditRequest (modelTier r2) (lit "image/png") b64 (withNegative r2).
Proof.
  intros Hm Hp Hkey Hapi Hfirst Hlisted name p t2 Hl2 Ha2 Hm2 Hp2.
  assert (Hres : awaitCall h (call p) = Fulfilled (dataURI mime b64)).
  { cbn [call p awaitCall]. unfold generateImage. rewrite Hkey, Hapi.
    unfold imageOf. now rewrite (firstInline_found _ _ Hfirst). }
  assert (Ht2 : t2 = set_isProcessing false
                  (set_prompt []
                     (onApp (addToast now' (lit "Processing complete!")
                               Success)
                        (onApp (addLayer now (dataURI mime b64) TGeneration
                                  name) t)))).
  { unfold t2, actionEnd. now rewrite Hres. }
  assert (Hl : layers (appState t2)
               = newLayerAt now (dataURI mime b64) TGeneration name
                   :: layers (appState t)) by (now rewrite Ht2).
  assert (Ha : activeLayerId (appState t2) = Some (numberToString now))
    by (now rewrite Ht2).
  split.
  { unfold actionBegin. now rewrite Hp, Hm. }
  split; [exact Hres|]. split; [exact Hl|]. split; [exact Ha|].
  split; [now rewrite Ht2|]. split; [now rewrite Ht2|].
  split.
  - apply (edit_after_add now now2 _ TGeneration name
             (layers (appState t))); congruence.
  - unfold editImageRequest. now rewrite cleanBase64_of_listed.
Qed.

(** X17. From an upload to an edit. A chosen file of at most 50 MB
    (50 * 1024 * 1024 bytes) is read; when the reader is done the file is
    an image layer on top, named as the file and active, and the page is
    in edit mode, so that an action with a prompt that is not blank asks
    for an edit of what the reader read. A larger file only gives the
    error toast. *)
Theorem upload_then_edit (now0 now now2 : Z) (f : File) (result q : jsstring)
    (t : Page) :
  truthy (trim q) = true ->
  let t1 := uploadEnd now f result t in
  let r2 := set_prompt q t1 in
  (if 50 * 1024 * 1024 <? fileSize f
   then uploadBegin now0 (Some f) t
        = (None, onApp (addToast now0 (lit "File too large. Max 50MB.")
                          Error) t)
   else uploadBegin now0 (Some f) t = (Some f, t)) /\
  mode t1 = EDIT /\
  layers (appState t1)
    = newLayerAt now result TImage (fileName f) :: layers (appState t) /\
  activeLayerId (appState t1) = Some (numberToString now) /\
  actionBegin now2 r2 r2
    = (Some (mkPending (CallEdit result (withNegative r2) (modelTier r2))
               TImage (lit "Edit: " ++ fileName f)),
       set_isProcessing true r2).
Proof.
  intros Hq t1 r2.
  split; [unfold uploadBegin; now destruct (_ <? _)|].
  split; [reflexivity|]. split; [reflexivity|]. split; [reflexivity|].
  now apply (edit_after_add now now2 result TImage (fileName f)
               (layers (appState t))).
Qed.

(** X18. A layer that [addLayer] has just added is the layer the page
    displays and the layer an export takes, whatever its type (a
    segmentation result included) and whatever lies below it. *)
Theorem added_layer_is_shown_and_exported (now : Z) (u : jsstring)
    (ty : LayerType) (n : jsstring) (s : App) :
  let s' := snd (addLayer now u ty n s) in
  displayLayer s' = Some (newLayerAt now u ty n) /\
  exportLayer s' = Some (newLayerAt now u ty n) /\
  activeLayer s' = Some (newLayerAt now u ty n).
Proof.
  intros s'.
  assert (Hact : activeLayer s' = Some (newLayerAt now u ty n)).
  { unfold activeLayer, s'. cbn [addLayer bind modify snd layers activeLayerId
      set_layers set_activeLayerId find]. unfold newLayerAt at 1 2.
    cbn [id isActive]. now rewrite streq_refl. }
  split; [|split; [|exact Hact]].
  - unfold displayLayer. rewrite Hact. unfold newLayerAt at 1. cbn [id].
    now rewrite numberToString_not_overlay.
  - unfold exportLayer.
    change (layers s') with (newLayerAt now u ty n :: layers s).
    change (activeLayerId s') with (Some (numberToString now)).
    now rewrite candidate_added.
Qed.

(** ** The history under the events of the page *)

Lemma bind_from {A B : Type} (P : App -> Prop) (m : M A) (k : A -> M B)
    (s : App) :
  P (snd (m s)) -> (forall a, preserves P (k a)) -> P (snd (bind m k s)).
Proof.
  intros Hm Hk. unfold bind.
  destruct (m s) as [[a|] t']; cbn [snd] in *; [now apply Hk|exact Hm].
Qed.

Lemma preserves_shortcut (k : jsstring) (r : App) :
  preserves hist_inv (shortcut k r).
Proof.
  unfold shortcut.
  repeat match goal with
         | |- preserves _ (if ?b then _ else _) => destruct b
         end;
    try apply preserves_handleToolSelect; try apply preserves_ret;
    apply preserves_frame; intros ?; split; reflexivity.
Qed.

Lemma hist_inv_handleKeyDown (e : KeyboardEvent) (r s : App) :
  history r = history s -> historyStep r = historyStep s ->
  hist_inv s -> hist_inv (fireFrom (handleKeyDown e) r s).
Proof.
  intros Hh Hk H. unfold fireFrom, handleKeyDown.
  destruct (_ || _)%bool; [exact H|].
  destruct ((ctrlKey e || metaKey e) && streq (key e) (lit "z")
            && negb (shiftKey e))%bool eqn:EU.
  - (* undo runs, and then redo does not *)
    apply andb_true_iff in EU. destruct EU as [EU Hs].
    apply andb_true_iff in EU. destruct EU as [Hc Hz].
    apply negb_true_iff in Hs. apply streq_eq in Hz.
    rewrite Hc, Hs, Hz.
    change (streq (lit "z") (lit "y")) with false.
    cbn [andb orb]. apply bind_from.
    + rewrite (handleUndo_closure r s Hh Hk). now apply hist_inv_handleUndo.
    + intros _. apply preserves_bind; [apply preserves_ret|].
      intros _. apply preserves_shortcut.
  - rewrite run_ret.
    match goal with
    | |- context [if ?b then handleRedo r else ret tt] => destruct b
    end.
    + apply bind_from; [|intros _; apply preserves_shortcut].
      rewrite (handleRedo_closure r s Hh Hk). now apply hist_inv_handleRedo.
    + rewrite run_ret. now apply preserves_shortcut.
Qed.

Lemma preserves_updateCanvasSize (img : option (nat * nat)) (r : App) :
  preserves hist_inv (updateCanvasSize img r).
Proof. unfold updateCanvasSize. walk. Qed.

(** X19. The invariant of the history under the whole page. The cursor
    stays between -1 and the last index and the history within 20
    entries under every event of the page handled with the closure of
    the current render, under a key handled with any closure that agrees
    with the store on the history and its cursor (what the [useEffect] of
    the keyboard listener guarantees), and under [updateCanvasSize] with
    any closure at all. *)
Theorem history_invariant_page (s : App) :
  hist_inv s ->
  (forall ev, hist_inv (pageHandle ev s)) /\
  (forall e r, history r = history s -> historyStep r = historyStep s ->
               hist_inv (fireFrom (handleKeyDown e) r s)) /\
  (forall img r, hist_inv (fireFrom (updateCanvasSize img) r s)).
Proof.
  intros H. split; [|split].
  - intros ev. destruct ev as [ev|now u ty n|i|i|v|img|e]; cbn [pageHandle].
    + now apply hist_inv_handle.
    + exact H.
    + exact H.
    + exact H.
    + exact H.
    + now apply preserves_updateCanvasSize.
    + now apply (hist_inv_handleKeyDown e s s).
  - intros e r Hh Hk. now apply hist_inv_handleKeyDown.
  - intros img r. now apply preserves_updateCanvasSize.
Qed.

(** ** Instances *)

(** A brush stroke with one move, on the first render. *)
Lemma session_commits_once_witness :
  (annotationTool brushApp <> Cursor /\ annotationTool brushApp <> Text /\
   tiVisible (textInput brushApp) = false /\
   canvas brushApp = Some canvas0 /\
   cwidth canvas0 <> 0%nat /\ cheight canvas0 <> 0%nat) /\
  history (moves [move0] (fire (startDrawing press0) brushApp))
    = history brushApp /\
  historyStep (moves [move0] (fire (startDrawing press0) brushApp))
    = historyStep brushApp.
Proof.
  assert (H1 : annotationTool brushApp <> Cursor) by discriminate.
  assert (H2 : annotationTool brushApp <> Text) by discriminate.
  assert (H3 : tiVisible (textInput brushApp) = false) by reflexivity.
  assert (H4 : canvas brushApp = Some canvas0) by reflexivity.
  assert (H5 : cwidth canvas0 <> 0%nat) by discriminate.
  assert (H6 : cheight canvas0 <> 0%nat) by discriminate.
  split; [repeat split; assumption|].
  destruct (session_commits_once press0 [move0] brushApp canvas0
              H1 H2 H3 H4 H5 H6) as (Hh & Hk & _).
  split; [exact Hh|exact Hk].
Defined.


(** The first move of a brush stroke on the first render. *)
Lemma stroke_compositing_witness :
  ((annotationTool brushApp = Brush \/ annotationTool brushApp = Eraser) /\
   tiVisible (textInput brushApp) = false /\
   canvas brushApp = Some canvas0 /\ 0 < brushSize brushApp) /\
  exists c2,
    canvas (fire (draw move0) (fire (startDrawing press0) brushApp))
      = Some c2 /\
    bitmap c2 = Drawn CallStroke (ctx c2) (bitmap canvas0).
Proof.
  assert (H1 : annotationTool brushApp = Brush \/
               annotationTool brushApp = Eraser) by (left; reflexivity).
  assert (H2 : tiVisible (textInput brushApp) = false) by reflexivity.
  assert (H3 : canvas brushApp = Some canvas0) by reflexivity.
  assert (H4 : 0 < brushSize brushApp) by reflexivity.
  split; [repeat split; assumption|].
  destruct (stroke_compositing press0 move0 brushApp canvas0 H1 H2 H3 H4)
    as (c2 & Hc & Hb & _).
  exists c2. split; [exact Hc|exact Hb].
Defined.

(** The key b on the first render. *)
Lemma overlay_layer_invariant_witness :
  overlayInv (layers app0) /\
  overlayInv (layers (pageHandle (EvKey (plainKey "b")) app0)).
Proof.
  assert (H : overlayInv (layers app0)).
  { split; [cbn; lia|constructor]. }
  split; [exact H|].
  exact (overlay_layer_invariant (EvKey (plainKey "b")) app0 H).
Defined.

(** The key b twice, both with the closure of the first render. *)
Lemma stale_shortcut_adds_overlay_witness :
  (inField (plainKey "b") = false /\
   isToolKey (toLowerCase (key (plainKey "b"))) = true /\
   find isOverlay (layers app0) = None) /\
  layers (fireFrom (handleKeyDown (plainKey "b")) app0
            (fire (handleKeyDown (plainKey "b")) app0))
    = annotationLayer0 ::
        layers (fire (handleKeyDown (plainKey "b")) app0).
Proof.
  assert (H1 : inField (plainKey "b") = false) by reflexivity.
  assert (H2 : isToolKey (toLowerCase (key (plainKey "b"))) = true)
    by reflexivity.
  assert (H3 : find isOverlay (layers app0) = None) by reflexivity.
  split; [repeat split; assumption|].
  exact (proj1 (stale_shortcut_adds_overlay (plainKey "b") app0
                  (fire (handleKeyDown (plainKey "b")) app0) H1 H2 H3)).
Defined.

(** Deleting the overlay while it is active: the selection moves to the
    segmentation result below it. *)
Lemma active_layer_exists_witness :
  ((forall i, EvApp (EvDeleteLayer annotationsId) = EvSelect i ->
      In i (map id (layers exportApp))) /\
   activeValid exportApp) /\
  activeValid (pageHandle (EvApp (EvDeleteLayer annotationsId)) exportApp) /\
  layers (pageHandle (EvApp (EvDeleteLayer annotationsId)) exportApp)
    = [cutoutLayer; photoLayer] /\
  activeLayerId (pageHandle (EvApp (EvDeleteLayer annotationsId)) exportApp)
    = Some (id cutoutLayer).
Proof.
  assert (H1 : forall i, EvApp (EvDeleteLayer annotationsId) = EvSelect i ->
                 In i (map id (layers exportApp)))
    by (intros i H; discriminate H).
  assert (H2 : activeValid exportApp).
  { right. unfold activeLayer.
    replace (find _ (layers exportApp)) with (Some annotationLayer0)
      by reflexivity. discriminate. }
  split; [split; assumption|].
  destruct (active_layer_exists (EvApp (EvDeleteLayer annotationsId))
              exportApp H1 H2) as [Hv Hd].
  split; [exact Hv|].
  exact (Hd annotationsId eq_refl).
Defined.

(** Ctrl+z with a closure whose layer list is out of date. *)
Lemma keyboard_undo_redo_witness :
  (inField undoKey = false /\
   (ctrlKey undoKey || metaKey undoKey)%bool = true /\
   history twoApp = history (set_layers [photoLayer] twoApp) /\
   historyStep twoApp = historyStep (set_layers [photoLayer] twoApp) /\
   key undoKey = lit "z" /\ shiftKey undoKey = false) /\
  fireFrom (handleKeyDown undoKey) twoApp (set_layers [photoLayer] twoApp)
  = fire handleUndo (set_layers [photoLayer] twoApp).
Proof.
  assert (H1 : inField undoKey = false) by reflexivity.
  assert (H2 : (ctrlKey undoKey || metaKey undoKey)%bool = true)
    by reflexivity.
  assert (H3 : history twoApp = history (set_layers [photoLayer] twoApp))
    by reflexivity.
  assert (H4 : historyStep twoApp
               = historyStep (set_layers [photoLayer] twoApp))
    by reflexivity.
  assert (H5 : key undoKey = lit "z") by reflexivity.
  assert (H6 : shiftKey undoKey = false) by reflexivity.
  split; [repeat split; assumption|].
  exact (proj1 (keyboard_undo_redo undoKey twoApp
                  (set_layers [photoLayer] twoApp) H1 H2 H3 H4) H5 H6).
Defined.

(** Ctrl+Shift with the key reported as Z. *)
Lemma unbound_key_changes_nothing_witness :
  (inField shiftedZ = true \/
   (key shiftedZ <> lit "z" /\ key shiftedZ <> lit "y" /\
    boundKey (toLowerCase (key shiftedZ)) = false)) /\
  fireFrom (handleKeyDown shiftedZ) twoApp twoApp = twoApp.
Proof.
  assert (H : inField shiftedZ = true \/
              (key shiftedZ <> lit "z" /\ key shiftedZ <> lit "y" /\
               boundKey (toLowerCase (key shiftedZ)) = false)).
  { right. split; [|split; [|reflexivity]];
      intros E; apply streq_eq in E; vm_compute in E; discriminate E. }
  split; [exact H|].
  exact (unbound_key_changes_nothing shiftedZ twoApp twoApp H).
Defined.

(** The closing bracket on the first render. *)
Lemma brush_size_in_range_witness :
  ((forall v, EvKey (plainKey "]") = EvSlide v -> 2 <= v <= 20) /\
   brushInRange app0) /\
  brushInRange (pageHandle (EvKey (plainKey "]")) app0).
Proof.
  assert (H1 : forall v, EvKey (plainKey "]") = EvSlide v -> 2 <= v <= 20)
    by (intros v H; discriminate H).
  assert (H2 : brushInRange app0) by (unfold brushInRange; cbn; lia).
  split; [split; assumption|].
  exact (brush_size_in_range (EvKey (plainKey "]")) app0 H1 H2).
Defined.

(** The overlay of 300 by 150 under an image shown at 600 by 300, with
    two entries in the history. *)
Lemma resize_shows_closure_entry_witness :
  canvas twoApp = Some canvas0 /\
  exists c',
    fireFrom (updateCanvasSize (Some (600, 300)%nat)) twoApp twoApp
      = set_canvas (Some c') twoApp /\
    cwidth c' = 600%nat /\ cheight c' = 300%nat /\ ctx c' = ctx0 /\
    bitmap c' = Patched 300 150 Transparent Transparent.
Proof.
  assert (H : canvas twoApp = Some canvas0) by reflexivity.
  split; [exact H|].
  exact (resize_shows_closure_entry twoApp twoApp canvas0 600 300 H).
Defined.

Lemma resize_round_trip_witness :
  (canvas twoApp = Some canvas0 /\ 0 <= historyStep twoApp /\
   index (history twoApp) (historyStep twoApp) = Some img0 /\
   iwidth img0 = cwidth canvas0 /\ iheight img0 = cheight canvas0 /\
   (cwidth canvas0, cheight canvas0) <> (600, 300)%nat) /\
  history
    (fireFrom (updateCanvasSize (Some (cwidth canvas0, cheight canvas0)))
       twoApp
       (fireFrom (updateCanvasSize (Some (600, 300)%nat)) twoApp twoApp))
  = history twoApp.
Proof.
  assert (H1 : canvas twoApp = Some canvas0) by reflexivity.
  assert (H2 : 0 <= historyStep twoApp) by (vm_compute; discriminate).
  assert (H3 : index (history twoApp) (historyStep twoApp) = Some img0)
    by reflexivity.
  assert (H4 : iwidth img0 = cwidth canvas0) by reflexivity.
  assert (H5 : iheight img0 = cheight canvas0) by reflexivity.
  assert (H6 : (cwidth canvas0, cheight canvas0) <> (600, 300)%nat)
    by discriminate.
  split; [repeat split; assumption|].
  exact (proj1 (proj2 (proj2 (resize_round_trip twoApp twoApp canvas0 img0
                                600 300 H1 H2 H3 H4 H5 H6)))).
Defined.

(** The overlay active above a photo. *)
Lemma export_layer_is_displayed_witness :
  (forall l, In l (layers (set_layers [annotationLayer0; photoLayer] exportApp)) ->
     (type l = TSegment <-> id l = annotationsId)) /\
  exportLayer (set_layers [annotationLayer0; photoLayer] exportApp)
  = displayLayer (set_layers [annotationLayer0; photoLayer] exportApp).
Proof.
  assert (H : forall l,
            In l (layers (set_layers [annotationLayer0; photoLayer] exportApp)) ->
            (type l = TSegment <-> id l = annotationsId)).
  { intros l [<-|[<-|[]]]; split; intros E; try reflexivity.
    - discriminate E.
    - apply streq_eq in E. vm_compute in E. discriminate E. }
  split; [exact H|].
  exact (export_layer_is_displayed _ H).
Defined.

(** An API call that rejects without a message. *)
Lemma service_rejection_has_message_witness :
  awaitCall deadHost (CallGenerate (lit "a cat") NANO_BANANA)
    = RejectedWith (Some (lit "Failed to generate image.")) /\
  exists s, Some (lit "Failed to generate image.") = Some s /\
            truthy s = true.
Proof.
  assert (H : awaitCall deadHost (CallGenerate (lit "a cat") NANO_BANANA)
              = RejectedWith (Some (lit "Failed to generate image.")))
    by reflexivity.
  split; [exact H|].
  destruct (service_rejection_has_message deadHost _ _ H) as (s & Hs & Ht & _).
  exists s. split; [exact Hs|exact Ht].
Defined.

(** A cat is generated as a JPEG and then edited. *)
Lemma generate_then_edit_witness :
  (mode catPage = GENERATE /\ truthy (trim (prompt catPage)) = true /\
   ensureApiKey (modelTier catPage) (aistudio catHost) = Fulfilled false /\
   generateContent catHost
     (GenReq (generateImageRequest (withNegative catPage)
                (modelTier catPage) (lit "1:1")))
     = Fulfilled catResponse /\
   firstInlineIs (mkInlineData (Some (lit "image/jpeg"))
                    (Some (lit "/9j/4AAQSkZJRg=="))) catResponse /\
   listedType (lit "image/jpeg") = true /\
   mode nightPage = EDIT /\ truthy (trim (prompt nightPage)) = true) /\
  editImageRequest (dataURI (lit "image/jpeg") (lit "/9j/4AAQSkZJRg=="))
    (withNegative nightPage) (modelTier nightPage)
  = mkEditRequest (modelTier nightPage) (lit "image/png")
      (lit "/9j/4AAQSkZJRg==") (withNegative nightPage).
Proof.
  assert (H1 : mode catPage = GENERATE) by reflexivity.
  assert (H2 : truthy (trim (prompt catPage)) = true) by reflexivity.
  assert (H3 : ensureApiKey (modelTier catPage) (aistudio catHost)
               = Fulfilled false) by reflexivity.
  assert (H4 : generateContent catHost
                 (GenReq (generateImageRequest (withNegative catPage)
                            (modelTier catPage) (lit "1:1")))
               = Fulfilled catResponse) by reflexivity.
  assert (H5 : firstInlineIs (mkInlineData (Some (lit "image/jpeg"))
                                (Some (lit "/9j/4AAQSkZJRg=="))) catResponse).
  { exists [mkPart None (Some (lit "Here is your image."))], [], None.
    split; [reflexivity|]. repeat constructor. }
  assert (H6 : listedType (lit "image/jpeg") = true) by reflexivity.
  assert (H7 : mode nightPage = EDIT) by reflexivity.
  assert (H8 : truthy (trim (prompt nightPage)) = true) by reflexivity.
  split; [repeat split; assumption|].
  exact (proj2 (proj2 (proj2 (proj2 (proj2 (proj2 (proj2
    (generate_then_edit catHost catPage catPage nightPage
       1700000000000 1700000001000 1700000001001 1700000002000
       catResponse (lit "image/jpeg") (lit "/9j/4AAQSkZJRg==") false
       H1 H2 H3 H4 H5 H6 eq_refl eq_refl H7 H8)))))))).
Defined.

(** A photo of 200 KB is uploaded and then edited. *)
Lemma upload_then_edit_witness :
  truthy (trim (lit "brighter")) = true /\
  uploadBegin 1700000000000 (Some photoFile) catPage
    = (Some photoFile, catPage) /\
  mode (uploadEnd 1700000000500 photoFile
          (dataURI (lit "image/png") (lit "iVBORw0KGgo=")) catPage) = EDIT.
Proof.
  assert (H : truthy (trim (lit "brighter")) = true) by reflexivity.
  split; [exact H|].
  destruct (upload_then_edit 1700000000000 1700000000500 1700000001000
              photoFile (dataURI (lit "image/png") (lit "iVBORw0KGgo="))
              (lit "brighter") catPage H) as (Hb & Hm & _).
  split; [exact Hb|exact Hm].
Defined.

(** Ctrl+z with two entries in the history. *)
Lemma history_invariant_page_witness :
  hist_inv twoApp /\ hist_inv (pageHandle (EvKey undoKey) twoApp).
Proof.
  assert (H : hist_inv twoApp) by (unfold hist_inv, len; cbn; lia).
  split; [exact H|].
  exact (proj1 (history_invariant_page twoApp H) (EvKey undoKey)).
Defined.
